(** * Peplink warranty checker: a shallow embedding of [index.js]

    The script is one linear pipeline: exchange client credentials for a
    bearer token, read the organizations, read the devices of every
    organization, keep the devices whose warranty ends within 90 days,
    print them as CSV lines and mail the CSV.

    The embedding keeps the shape of the script.  JSON data are values of a
    small untyped universe ([value]), because the script reads the decoded
    bodies dynamically (truthiness tests, property reads that may throw).
    Effects (network requests, console output, the SMTP submission,
    [process.exit]) are threaded through a state-and-completion monad whose
    state is the trace of everything the run has done so far.  What the script
    takes from its runtime and its surroundings (JSON.parse, Date.parse, the
    environment, the network, the mail relay, the clock) is gathered in the
    record [world]. *)

From stdpp Require Import gmap strings list pretty.
From Stdlib Require Import ZArith Ascii String.

Local Open Scope Z_scope.
Set Warnings "-register-all".

(** ** JavaScript values *)

Module JS.

(** Decoded JSON, plus [undefined] for the result of reading a property
    that is not there.  Numbers are the integral ones (ids, time stamps,
    status codes); strings are sequences of bytes (UTF-8). *)
Inductive value : Type :=
  | VUndefined
  | VNull
  | VBool (b : bool)
  | VNum (n : Z)
  | VStr (s : string)
  | VArr (items : list value)
  | VObj (fields : list (string * value)).

(** Thrown values.  [Error msg] is [new Error(msg)]; the other two are the
    errors the runtime raises itself. *)
Inductive exn : Type :=
  | Error (msg : string)
  | TypeError (msg : string)
  | SyntaxError (msg : string).

(** ToBoolean. *)
Definition truthy (v : value) : bool :=
  match v with
  | VUndefined | VNull => false
  | VBool b => b
  | VNum n => negb (n =? 0)
  | VStr s => negb (String.eqb s EmptyString)
  | VArr _ | VObj _ => true
  end.

(** ToString, as a template literal applies it.  Two kinds of values are
    outside of what this function describes: an integer beyond 2^53 - 1 in
    magnitude, which the language prints with the fewest digits that
    identify its binary64 number and not in full, and an object with a
    property [toString] of its own, on which the conversion throws.  The
    typed reading of the data below ([as_organization], [inventory_served])
    admits neither where the script converts a value to text. *)
Fixpoint toString (v : value) : string :=
  match v with
  | VUndefined => "undefined"
  | VNull => "null"
  | VBool b => if b then "true" else "false"
  | VNum n => pretty n
  | VStr s => s
  | VArr items =>
      (fix join (l : list value) : string :=
         match l with
         | [] => EmptyString
         | x :: r =>
             match x with
             | VUndefined | VNull => EmptyString
             | _ => toString x
             end +:+
             match r with
             | [] => EmptyString
             | _ :: _ => "," +:+ join r
             end
         end) items
  | VObj _ => "[object Object]"
  end.

(** Error.prototype.toString, used when an error is appended to a string. *)
Definition exn_name (e : exn) : string :=
  match e with
  | Error _ => "Error"
  | TypeError _ => "TypeError"
  | SyntaxError _ => "SyntaxError"
  end.

Definition exn_message (e : exn) : string :=
  match e with Error m | TypeError m | SyntaxError m => m end.

Definition exn_toString (e : exn) : string :=
  if String.eqb (exn_message e) EmptyString then exn_name e
  else exn_name e +:+ ": " +:+ exn_message e.

(** An object is the list of its own properties, each key once; a key that
    is not there reads as [undefined]. *)
Fixpoint lookup_field (k : string) (fields : list (string * value)) : value :=
  match fields with
  | [] => VUndefined
  | (k', v) :: r => if String.eqb k k' then v else lookup_field k r
  end.

(** The value of [v.k] where the read does not throw. *)
Definition field (k : string) (v : value) : value :=
  match v with VObj fields => lookup_field k fields | _ => VUndefined end.

(** [Array.isArray]. *)
Definition isArray (v : value) : bool :=
  match v with VArr _ => true | _ => false end.

(** The elements of an array; [length] of anything else is not looked at. *)
Definition items (v : value) : list value :=
  match v with VArr l => l | _ => [] end.

(** [a || b] on values. *)
Definition or_else (a b : value) : value := if truthy a then a else b.

(** [Number.isSafeInteger] on an integer: these print in full. *)
Definition safe_integer (n : Z) : bool := Z.abs n <=? 2 ^ 53 - 1.

(** A string. *)
Definition is_text (v : value) : bool :=
  match v with VStr _ => true | _ => false end.

(** What can be the id of a record: a string or a safe integer. *)
Definition identifier (v : value) : bool :=
  match v with
  | VStr _ => true
  | VNum n => safe_integer n
  | _ => false
  end.

End JS.
Export JS.

(** ** Strings *)

(** The double-quote character, for the quoted CSV fields. *)
Definition dq : string := String "034"%char EmptyString.

Definition in_range (lo hi c : ascii) : bool :=
  (N_of_ascii lo <=? N_of_ascii c)%N && (N_of_ascii c <=? N_of_ascii hi)%N.

(** The complement of the character class of [/[^a-zA-Z0-9]/]. *)
Definition is_alnum (c : ascii) : bool :=
  in_range "a" "z" c || in_range "A" "Z" c || in_range "0" "9" c.

(** [s.replace(/[^a-zA-Z0-9]/g, '')] on a string [s]: every character the
    class matches is replaced by nothing. *)
Fixpoint strip_non_alnum (s : string) : string :=
  match s with
  | EmptyString => EmptyString
  | String c r =>
      if is_alnum c then String c (strip_non_alnum r) else strip_non_alnum r
  end.

(** [lines.join(sep)]. *)
Fixpoint join (sep : string) (lines : list string) : string :=
  match lines with
  | [] => EmptyString
  | [l] => l
  | l :: r => l +:+ sep +:+ join sep r
  end.

(** The line feed the CSV lines are joined with. *)
Definition LF : string := String "010"%char EmptyString.

(** Number of occurrences of a character in a string. *)
Fixpoint count_char (c : ascii) (s : string) : nat :=
  match s with
  | EmptyString => 0%nat
  | String c' r => ((if Ascii.eqb c c' then 1 else 0) + count_char c r)%nat
  end.

(** ** Numbers and dates *)

(** A Date holds a time value in milliseconds since the epoch, or NaN (an
    invalid date); [None] is NaN.  The same type serves for the numbers the
    script computes from dates. *)
Definition number : Type := option Z.

(** TimeClip of the language specification: a time value beyond
    8.64e15 ms from the epoch is not a date. *)
Definition max_time : Z := 8640000000000000.

Definition TimeClip (t : Z) : number :=
  if Z.abs t <=? max_time then Some t else None.

(** [a <= b] on two dates: false as soon as one of them is invalid. *)
Definition date_le (a b : number) : bool :=
  match a, b with
  | Some x, Some y => x <=? y
  | _, _ => false
  end.

(** [new Date(d.getTime() + ms)]. *)
Definition add_ms (d : number) (ms : Z) : number :=
  match d with
  | Some t => TimeClip (t + ms)
  | None => None
  end.

Definition msInDay : Z := 24 * 60 * 60 * 1000.

(** *** Arithmetic in binary64

    The script computes with binary64 numbers.  Time values are integers of
    at most 8.64e15 in magnitude, which binary64 holds; the difference of two
    of them and its quotient by [msInDay] are rounded to the nearest binary64
    number, ties to the even significand.  A positive binary64 number is
    written here as a pair [(m, e)] that stands for [m * 2^e], with a
    significand [m] of 53 bits.  The exponent is not bounded: the numbers of
    the script lie between 1e-8 and 2e16 in magnitude, far inside the range
    of binary64, where no underflow and no overflow occurs. *)

(** The fraction [n / (d * 2^e)], with integral numerator and denominator. *)
Definition scale (n d e : Z) : Z * Z :=
  (n * 2 ^ Z.max 0 (- e), d * 2 ^ Z.max 0 e).

(** The integer nearest to [num / den], the even one of two that are
    equally near. *)
Definition round_half_even (num den : Z) : Z :=
  let q := num / den in
  let r := num mod den in
  if 2 * r <? den then q
  else if den <? 2 * r then q + 1
  else if Z.even q then q else q + 1.

(** The exponent [e] for which [n / d] lies in [[2^52 * 2^e, 2^53 * 2^e)]. *)
Definition binary64_exponent (n d : Z) : Z :=
  let s := Z.log2 n - Z.log2 d - 52 in
  if 2 ^ 52 <=? fst (scale n d s) / snd (scale n d s) then s else s - 1.

(** The binary64 number nearest to [n / d], for positive [n] and [d]. *)
Definition binary64 (n d : Z) : Z * Z :=
  let e := binary64_exponent n d in
  (round_half_even (fst (scale n d e)) (snd (scale n d e)), e).

(** [Math.floor] and [Math.ceil] of a positive binary64 number. *)
Definition Math_floor (v : Z * Z) : Z :=
  (fst v * 2 ^ Z.max 0 (snd v)) / 2 ^ Z.max 0 (- snd v).

Definition Math_ceil (v : Z * Z) : Z :=
  - ((- (fst v * 2 ^ Z.max 0 (snd v))) / 2 ^ Z.max 0 (- snd v)).

(** The binary64 number nearest to the integer [x]; it is an integer. *)
Definition binary64_of_integer (x : Z) : Z :=
  match x with
  | 0 => 0
  | Zpos _ => Math_floor (binary64 x 1)
  | Zneg _ => - Math_floor (binary64 (- x) 1)
  end.

(** [Math.ceil(x / d)] for an integer-valued [x] and a positive integer
    [d]: the quotient is rounded to binary64 first.  The ceiling of a
    quotient in (-1, 0] is a zero, and both zeros print as 0. *)
Definition Math_ceil_quotient (x d : Z) : Z :=
  match x with
  | 0 => 0
  | Zpos _ => Math_ceil (binary64 x d)
  | Zneg _ => - Math_floor (binary64 (- x) d)
  end.

(** [Math.ceil((t1 - t2) / msInDay)] on two time values: the difference is
    rounded, then the quotient. *)
Definition days_between (t1 t2 : Z) : Z :=
  Math_ceil_quotient (binary64_of_integer (t1 - t2)) msInDay.

(** The ceiling of the exact quotient [x / d], for comparison. *)
Definition ceil_div (x d : Z) : Z := - ((- x) / d).

(** [diffInDays(date1, date2)]. *)
Definition diffInDays (date1 date2 : number) : number :=
  match date1, date2 with
  | Some t1, Some t2 => Some (days_between t1 t2)
  | _, _ => None
  end.

(** ToString of a number inside a template literal. *)
Definition number_toString (x : number) : string :=
  match x with
  | Some z => pretty z
  | None => "NaN"
  end.

(** ** Effects *)

(** What the script sends to [fetch]. *)
Record request : Type := {
  method : string;
  url : string;
  headers : list (string * string);
  body : list (string * string)      (* the URLSearchParams of a form POST *)
}.

(** What it reads back: [response.status] and [await response.text()]. *)
Record response : Type := {
  status : Z;
  text : string
}.

(** [response.ok]. *)
Definition ok (r : response) : bool :=
  (200 <=? status r) && (status r <=? 299).

(** A fetch either resolves with a response or rejects. *)
Inductive fetch_result : Type :=
  | Responded (r : response)
  | Rejected (e : exn).

(** [JSON.parse] either returns a value or throws a SyntaxError, whose
    message is carried. *)
Inductive parse_result : Type :=
  | Parsed (v : value)
  | Unparseable (msg : string).

(** The options of [nodemailer.createTransport]; the port is kept as the
    text of SMTP_PORT, which the script hands to [Number]. *)
Record transport : Type := {
  host : string;
  port : string;
  secure : bool;
  auth_user : string;
  auth_pass : string
}.

(** The options of [transporter.sendMail]. *)
Record mail : Type := {
  from : string;
  to : string;
  subject : string;
  mail_text : string;
  attachments : list (string * string)   (* filename, content *)
}.

(** [sendMail] resolves with an info object, of which the message id is
    read, or rejects. *)
Inductive send_result : Type :=
  | Sent (messageId : string)
  | SendFailed (e : exn).

(** One constructor for each console call of the script, with the values
    the call prints. *)
Inductive console_msg : Type :=
  | TokenRetrieved (token : value)
  | ErrorRetrievingToken (err : exn)
  | RawOrganizationBody (raw : string)
  | ErrorFetchingOrganizations (err : exn)
  | NoOrganizationsFound
  | RetrievedOrganizations (count : nat)
  | FetchingDevices (orgId orgName : value)
  | RawDeviceResponse (orgId : value) (raw : string)
  | ErrorFetchingDevices (orgId : value) (err : exn)
  | NoDevicesFound (orgName : value)
  | NoExpiringDevices
  | CsvOutputBanner
  | CsvOutput (csvContent : string)
  | MissingSmtpSettings
  | EmailSent (messageId : string)
  | ErrorSendingEmail (err : exn)
  | UnexpectedError (err : exn).

(** Everything a run does that can be observed from outside. *)
Inductive event : Type :=
  | Fetch (req : request)
  | ConsoleLog (m : console_msg)
  | ConsoleError (m : console_msg)
  | SendMail (t : transport) (m : mail).

Definition trace : Type := list event.

(** The requests of a trace, oldest first. *)
Definition requests_of (t : trace) : list request :=
  omap (fun e => match e with Fetch r => Some r | _ => None end) t.

(** The events of the delivery step: the submission and its three logs. *)
Definition is_delivery (e : event) : bool :=
  match e with
  | SendMail _ _ => true
  | ConsoleLog (EmailSent _) => true
  | ConsoleError (ErrorSendingEmail _) => true
  | ConsoleError MissingSmtpSettings => true
  | _ => false
  end.

(** The surroundings of one run. *)
Record world : Type := {
  JSON_parse : string -> parse_result;
  Date_parse : string -> number;
  env : gmap string string;                            (* process.env *)
  net : list request -> request -> fetch_result;       (* earlier requests, this one *)
  smtp : transport -> mail -> send_result;
  clock : Z                                            (* the time value of [new Date()] *)
}.

(** How a piece of the script ends: with a value, by throwing, or by
    [process.exit(code)]. *)
Inductive completion (A : Type) : Type :=
  | Normal (a : A)
  | Throw (e : exn)
  | Exit (code : Z).
Arguments Normal {A} a.
Arguments Throw {A} e.
Arguments Exit {A} code.

Definition M (A : Type) : Type := trace -> completion A * trace.

Definition ret {A} (a : A) : M A := fun t => (Normal a, t).

Definition bind {A B} (m : M A) (f : A -> M B) : M B := fun t =>
  match m t with
  | (Normal a, t') => f a t'
  | (Throw e, t') => (Throw e, t')
  | (Exit c, t') => (Exit c, t')
  end.

Declare Scope M_scope.
Delimit Scope M_scope with M.
Notation "x ← y ; z" := (bind y (fun x => z))
  (at level 20, y at level 100, z at level 200, only parsing) : M_scope.
Notation "y ;; z" := (bind y (fun _ => z))
  (at level 100, z at level 200, only parsing, right associativity) : M_scope.
Local Open Scope M_scope.

Definition throw {A} (e : exn) : M A := fun t => (Throw e, t).

Definition process_exit {A} (code : Z) : M A := fun t => (Exit code, t).

Definition emit (e : event) : M unit := fun t => (Normal tt, t ++ [e]).

Definition console_log (m : console_msg) : M unit := emit (ConsoleLog m).

Definition console_error (m : console_msg) : M unit := emit (ConsoleError m).

(** [try { m } catch (err) { handler err }]. *)
Definition try_catch {A} (m : M A) (handler : exn -> M A) : M A := fun t =>
  match m t with
  | (Throw e, t') => handler e t'
  | r => r
  end.

(** [for (const x of xs) { acc = body x acc }]: the loops of the script
    change one local, the list of CSV lines. *)
Fixpoint for_of {A} (body : value -> A -> M A) (xs : list value) (acc : A) : M A :=
  match xs with
  | [] => ret acc
  | x :: r => acc' ← body x acc; for_of body r acc'
  end.

(** [v.k] for one of the keys the script reads; reading a property of
    [null] or [undefined] throws (the message is the one of V8). *)
Definition get_prop (v : value) (k : string) : M value :=
  match v with
  | VObj fields => ret (lookup_field k fields)
  | VNull =>
      throw (TypeError ("Cannot read properties of null (reading '" +:+ k +:+ "')"))
  | VUndefined =>
      throw (TypeError ("Cannot read properties of undefined (reading '" +:+ k +:+ "')"))
  | VBool _ | VNum _ | VStr _ | VArr _ => ret VUndefined
  end.

(** ** The script *)

(** Truthiness of an environment variable: set, and not the empty text. *)
Definition env_truthy (o : option string) : bool :=
  match o with
  | Some s => negb (String.eqb s EmptyString)
  | None => false
  end.

Definition env_text (o : option string) : string := default EmptyString o.

(** A setting that is not there, or is there with nothing in it. *)
Definition absent_or_empty (o : option string) : Prop :=
  o = None \/ o = Some EmptyString.

Definition TOKEN_ENDPOINT : string := "https://api.ic.peplink.com/api/oauth2/token".
Definition ORG_ENDPOINT : string := "https://api.ic.peplink.com/rest/o".
Definition DEV_ENDPOINT (orgId : value) : string :=
  "https://api.ic.peplink.com/rest/o/" +:+ toString orgId +:+ "/d?includeWarranty=true".

Definition csv_header : string :=
  "org_name,serial_number,warranty_expiry_date,days_until_expiry,is_expired".

Definition ninety_days : Z := 90 * 24 * 60 * 60 * 1000.

(** The template literal of one CSV line. *)
Definition csv_line (orgName : string) (serial : string) (expiry_date : string)
    (daysLeft : string) (isExpired : string) : string :=
  dq +:+ orgName +:+ dq +:+ "," +:+ dq +:+ serial +:+ dq +:+ "," +:+
  dq +:+ expiry_date +:+ dq +:+ "," +:+ dq +:+ daysLeft +:+ dq +:+ "," +:+
  dq +:+ isExpired +:+ dq.

(** [new Date(v)] for a decoded JSON value: a string is parsed, anything
    else is turned into a number, arrays and objects through their string
    form. *)
Definition new_Date (parse : string -> number) (v : value) : number :=
  match v with
  | VStr s => parse s
  | VNum n => TimeClip n
  | VBool b => TimeClip (if b then 1 else 0)
  | VNull => TimeClip 0
  | VUndefined => None
  | VArr _ | VObj _ => parse (toString v)
  end.

(** [v.replace(/[^a-zA-Z0-9]/g, '')]: only a string has the method. *)
Definition replace_non_alnum (v : value) : M string :=
  match v with
  | VStr s => ret (strip_non_alnum s)
  | _ => throw (TypeError "device.sn.replace is not a function")
  end.

Definition token_request (client_id client_secret : string) : request :=
  {| method := "POST"; url := TOKEN_ENDPOINT;
     headers := [("Content-Type", "application/x-www-form-urlencoded")];
     body := [("client_id", client_id); ("client_secret", client_secret);
              ("grant_type", "client_credentials")] |}.

Definition org_request (token : value) : request :=
  {| method := "GET"; url := ORG_ENDPOINT;
     headers := [("Authorization", "Bearer " +:+ toString token)];
     body := [] |}.

Definition dev_request (token orgId : value) : request :=
  {| method := "GET"; url := DEV_ENDPOINT orgId;
     headers := [("Authorization", "Bearer " +:+ toString token)];
     body := [] |}.

(** The clock of a run: a time value with 90 days of dates left after it. *)
Definition clock_ok (now : Z) : Prop :=
  Z.abs now <= max_time /\ Z.abs (now + ninety_days) <= max_time.

(** The line the script pushes for a device with the given string fields. *)
Definition device_line (orgName : value) (now : Z) (fields : list (string * value))
    (serial literal : string) (expiryDate : Z) : string :=
  csv_line (toString orgName) (strip_non_alnum serial) literal
           (pretty (days_between expiryDate now))
           (if truthy (lookup_field "expired" fields) then "YES" else "NO").

Section Script.

Variable w : world.

(** [await fetch(...)]: the request is recorded, the network answers from
    the requests made before it. *)
Definition fetch (req : request) : M response := fun t =>
  match net w (requests_of t) req with
  | Responded r => (Normal r, t ++ [Fetch req])
  | Rejected e => (Throw e, t ++ [Fetch req])
  end.

Definition JSON_parse_M (raw : string) : M value :=
  match JSON_parse w raw with
  | Parsed v => ret v
  | Unparseable msg => throw (SyntaxError msg)
  end.

Definition getBearerToken : M value :=
  let PEPLINK_CLIENT_ID := env w !! "PEPLINK_CLIENT_ID" in
  let PEPLINK_CLIENT_SECRET := env w !! "PEPLINK_CLIENT_SECRET" in
  if negb (env_truthy PEPLINK_CLIENT_ID) || negb (env_truthy PEPLINK_CLIENT_SECRET)
  then throw (Error "Missing PEPLINK_CLIENT_ID or PEPLINK_CLIENT_SECRET in .env")
  else
    response ← fetch (token_request (env_text PEPLINK_CLIENT_ID)
                                    (env_text PEPLINK_CLIENT_SECRET));
    let rawTokenBody := text response in
    if negb (ok response)
    then throw (Error ("Failed to get token: " +:+ pretty (status response) +:+
                       " - " +:+ rawTokenBody))
    else
      tokenJson ← try_catch (JSON_parse_M rawTokenBody)
                    (fun err => throw (Error ("Failed to parse token JSON: " +:+
                                              exn_toString err)));
      access_token ← get_prop tokenJson "access_token";
      if negb (truthy access_token)
      then throw (Error "No access_token in token response")
      else ret access_token.

Definition sendEmailWithCSV (csvContent : string) : M unit :=
  let SMTP_HOST := env w !! "SMTP_HOST" in
  let SMTP_PORT := env w !! "SMTP_PORT" in
  let SMTP_USER := env w !! "SMTP_USER" in
  let SMTP_PASS := env w !! "SMTP_PASS" in
  let SMTP_TO := env w !! "SMTP_TO" in
  let SMTP_FROM := env w !! "SMTP_FROM" in
  if negb (env_truthy SMTP_HOST) || negb (env_truthy SMTP_PORT) ||
     negb (env_truthy SMTP_USER) || negb (env_truthy SMTP_PASS) ||
     negb (env_truthy SMTP_TO)
  then console_error MissingSmtpSettings
  else
    let transporter :=
      {| host := env_text SMTP_HOST; port := env_text SMTP_PORT; secure := true;
         auth_user := env_text SMTP_USER; auth_pass := env_text SMTP_PASS |} in
    let mailOptions :=
      {| from := if env_truthy SMTP_FROM then env_text SMTP_FROM else env_text SMTP_USER;
         to := env_text SMTP_TO;
         subject := "Peplink Warranty Expiry Report";
         mail_text := "Please see attached CSV with devices expiring in <= 90 days.<br><b>Remember</b> that these are only representative of devices we have InControl access to!";
         attachments := [("peplink_ic2_warranty_report.csv", csvContent)] |} in
    try_catch
      (emit (SendMail transporter mailOptions);;
       match smtp w transporter mailOptions with
       | Sent messageId => console_log (EmailSent messageId)
       | SendFailed err => throw err
       end)
      (fun err => console_error (ErrorSendingEmail err)).

(** The body of the inner loop, for one device. *)
Definition device_body (orgName : value) (now cutoffDate : number)
    (device : value) (csvLines : list string) : M (list string) :=
  sn ← get_prop device "sn";
  if negb (truthy sn) then ret csvLines            (* continue *)
  else
    expiry_date ← get_prop device "expiry_date";
    if negb (truthy expiry_date) then ret csvLines (* continue *)
    else
      serial ← replace_non_alnum sn;
      let expiryDate := new_Date (Date_parse w) expiry_date in
      if date_le expiryDate cutoffDate then
        let daysLeft := diffInDays expiryDate now in
        expired ← get_prop device "expired";
        let isExpired := if truthy expired then "YES" else "NO" in
        ret (csvLines ++
              [csv_line (toString orgName) serial (toString expiry_date)
                        (number_toString daysLeft) isExpired])
      else ret csvLines.

(** The body of the outer loop, for one organization. *)
Definition org_body (token : value) (now cutoffDate : number)
    (org : value) (csvLines : list string) : M (list string) :=
  orgId ← get_prop org "id";
  orgName ← get_prop org "name";
  console_log (FetchingDevices orgId orgName);;
  fetched ← try_catch
    (devResponse ← fetch (dev_request token orgId);
     let devRawBody := text devResponse in
     if negb (ok devResponse)
     then throw (Error ("Failed to fetch devices for org " +:+ toString orgId +:+ ": " +:+
                        pretty (status devResponse) +:+ " - " +:+ devRawBody))
     else
       console_log (RawDeviceResponse orgId devRawBody);;
       devicesData ← JSON_parse_M devRawBody;
       ret (Some devicesData))
    (fun err => console_error (ErrorFetchingDevices orgId err);; ret None);
  match fetched with
  | None => ret csvLines                           (* continue, from the catch *)
  | Some devicesData =>
      data ← get_prop devicesData "data";
      let devices := or_else data (VArr []) in
      if negb (isArray devices) || (List.length (items devices) =? 0)%nat
      then console_log (NoDevicesFound orgName);; ret csvLines   (* continue *)
      else for_of (device_body orgName now cutoffDate) (items devices) csvLines
  end.

(** Step 1 of [main]: retrieve the token, or log and exit. *)
Definition retrieve_token : M value :=
  try_catch
    (token ← getBearerToken;
     console_log (TokenRetrieved token);;
     ret token)
    (fun err => console_error (ErrorRetrievingToken err);; process_exit 1).

(** Step 2 of [main]: fetch the organizations, or log and exit. *)
Definition fetch_organizations (token : value) : M value :=
  try_catch
    (orgResponse ← fetch (org_request token);
     let orgRawBody := text orgResponse in
     if negb (ok orgResponse)
     then throw (Error ("Failed to fetch orgs: " +:+ pretty (status orgResponse) +:+
                        " - " +:+ orgRawBody))
     else
       console_log (RawOrganizationBody orgRawBody);;
       JSON_parse_M orgRawBody)
    (fun err => console_error (ErrorFetchingOrganizations err);; process_exit 1).

Definition main : M unit :=
  token ← retrieve_token;
  orgData ← fetch_organizations token;
  orgs ← get_prop orgData "data";
  if negb (isArray orgs) || (List.length (items orgs) =? 0)%nat
  then
    console_log NoOrganizationsFound;;
    ret tt                                           (* return *)
  else
    console_log (RetrievedOrganizations (List.length (items orgs)));;
    let csvLines := [csv_header] in
    let now := TimeClip (clock w) in
    let cutoffDate := add_ms now ninety_days in
    csvLines ← for_of (org_body token now cutoffDate) (items orgs) csvLines;
    if (List.length csvLines =? 1)%nat then
      console_log NoExpiringDevices;;
      sendEmailWithCSV (join LF csvLines)
    else
      let csvContent := join LF csvLines in
      console_log CsvOutputBanner;;
      console_log (CsvOutput csvContent);;
      sendEmailWithCSV csvContent.

(** The last lines of the script: [main().catch(...)], and the exit code of
    a process whose script ran to its end. *)
Definition run : Z * trace :=
  match main [] with
  | (Normal _, t) => (0, t)
  | (Throw err, t) => (1, t ++ [ConsoleError (UnexpectedError err)])
  | (Exit code, t) => (code, t)
  end.

Definition exit_code : Z := fst run.
Definition run_trace : trace := snd run.

(** [main] up to the point where it hands the CSV to [sendEmailWithCSV]:
    the same steps, ending with the text that would be sent, or with nothing
    where [main] returns early.  [main_pipeline] below shows that [main] is
    this followed by the delivery. *)
Definition report_steps (token orgData : value) : M (option string) :=
  orgs ← get_prop orgData "data";
  if negb (isArray orgs) || (List.length (items orgs) =? 0)%nat
  then
    console_log NoOrganizationsFound;;
    ret None
  else
    console_log (RetrievedOrganizations (List.length (items orgs)));;
    let csvLines := [csv_header] in
    let now := TimeClip (clock w) in
    let cutoffDate := add_ms now ninety_days in
    csvLines ← for_of (org_body token now cutoffDate) (items orgs) csvLines;
    if (List.length csvLines =? 1)%nat then
      console_log NoExpiringDevices;;
      ret (Some (join LF csvLines))
    else
      let csvContent := join LF csvLines in
      console_log CsvOutputBanner;;
      console_log (CsvOutput csvContent);;
      ret (Some csvContent).

Definition pipeline : M (option string) :=
  token ← retrieve_token;
  orgData ← fetch_organizations token;
  report_steps token orgData.

Definition deliver (report : option string) : M unit :=
  match report with
  | Some csvContent => sendEmailWithCSV csvContent
  | None => ret tt
  end.

(** The five SMTP settings [sendEmailWithCSV] asks for are all there. *)
Definition smtp_complete : bool :=
  env_truthy (env w !! "SMTP_HOST") && env_truthy (env w !! "SMTP_PORT") &&
  env_truthy (env w !! "SMTP_USER") && env_truthy (env w !! "SMTP_PASS") &&
  env_truthy (env w !! "SMTP_TO").

Definition transporter_of_env : transport :=
  {| host := env_text (env w !! "SMTP_HOST"); port := env_text (env w !! "SMTP_PORT");
     secure := true;
     auth_user := env_text (env w !! "SMTP_USER");
     auth_pass := env_text (env w !! "SMTP_PASS") |}.

Definition mailOptions_of_env (csvContent : string) : mail :=
  {| from := if env_truthy (env w !! "SMTP_FROM") then env_text (env w !! "SMTP_FROM")
             else env_text (env w !! "SMTP_USER");
     to := env_text (env w !! "SMTP_TO");
     subject := "Peplink Warranty Expiry Report";
     mail_text := "Please see attached CSV with devices expiring in <= 90 days.<br><b>Remember</b> that these are only representative of devices we have InControl access to!";
     attachments := [("peplink_ic2_warranty_report.csv", csvContent)] |}.

(** What the delivery step adds to the trace. *)
Definition email_events (csvContent : string) : trace :=
  if smtp_complete then
    [SendMail transporter_of_env (mailOptions_of_env csvContent);
     match smtp w transporter_of_env (mailOptions_of_env csvContent) with
     | Sent messageId => ConsoleLog (EmailSent messageId)
     | SendFailed err => ConsoleError (ErrorSendingEmail err)
     end]
  else [ConsoleError MissingSmtpSettings].

(** The token request of this environment. *)
Definition the_token_request : request :=
  token_request (env_text (env w !! "PEPLINK_CLIENT_ID"))
                (env_text (env w !! "PEPLINK_CLIENT_SECRET")).

Definition credentials_set : bool :=
  env_truthy (env w !! "PEPLINK_CLIENT_ID") &&
  env_truthy (env w !! "PEPLINK_CLIENT_SECRET").

(** The token endpoint grants [token]: a 2xx answer whose body decodes to
    something with that truthy [access_token]. *)
Definition token_granted (token : value) : Prop :=
  credentials_set = true /\
  exists r j,
    net w [] the_token_request = Responded r /\ ok r = true /\
    JSON_parse w (text r) = Parsed j /\
    field "access_token" j = token /\ truthy token = true.

(** After that, the organization request is answered 2xx with the text
    [raw], which decodes to [j]. *)
Definition orgs_answered (token : value) (raw : string) (j : value) : Prop :=
  exists r,
    net w [the_token_request] (org_request token) = Responded r /\ ok r = true /\
    text r = raw /\ JSON_parse w raw = Parsed j.

(** The trace of a run up to the decoded organization list. *)
Definition prefix_trace (token : value) (raw : string) : trace :=
  [Fetch the_token_request; ConsoleLog (TokenRetrieved token);
   Fetch (org_request token); ConsoleLog (RawOrganizationBody raw)].

End Script.

(** ** The typed reading of the data

    The specification describes organizations, devices and report rows as
    records and the filter and the formatter as functions of their own.  The
    script has neither: it reads decoded JSON and pushes finished lines.  The
    definitions of this part follow the specification; the theorems relate
    them to the script. *)

Record Organization : Type := {
  orgId : value;
  orgName : string
}.

Record Device : Type := {
  serialNumber : option string;        (* [None]: the device has no serial *)
  warrantyExpiryDate : option string;  (* the date as the API writes it *)
  isExpired : bool
}.

Inductive YesNo : Type := YES | NO.

Record ReportRow : Type := {
  organizationName : string;
  normalizedSerial : string;
  expiryDateLiteral : string;
  daysUntilExpiry : Z;
  expiredFlag : YesNo
}.

(** A string field of a decoded object: a string, or nothing when the value
    is falsy; any other value is not a string field. *)
Definition as_string_field (v : value) : option (option string) :=
  match v with
  | VStr s => Some (Some s)
  | _ => if truthy v then None else Some None
  end.

(** An organization: an object whose [name] is a string and whose [id] is
    an [identifier]. *)
Definition as_organization (v : value) : option Organization :=
  match v with
  | VObj fields =>
      match lookup_field "name" fields with
      | VStr n =>
          if identifier (lookup_field "id" fields)
          then Some {| orgId := lookup_field "id" fields; orgName := n |}
          else None
      | _ => None
      end
  | _ => None
  end.

Definition as_device (v : value) : option Device :=
  match v with
  | VObj fields =>
      match as_string_field (lookup_field "sn" fields),
            as_string_field (lookup_field "expiry_date" fields) with
      | Some sn, Some expiry =>
          Some {| serialNumber := sn; warrantyExpiryDate := expiry;
                  isExpired := truthy (lookup_field "expired" fields) |}
      | _, _ => None
      end
  | _ => None
  end.

(** Follows the specification: the row of one device, if it has one.  A
    device is skipped when it lacks a serial or a date (an empty one counts
    as lacking), when its date does not parse, and when its date is after
    the cutoff.  The day count of a row is the number [diffInDays] computes,
    [days_between]. *)
Definition selectRow (parse : string -> number) (organizationName : string)
    (now : Z) (horizonDays : Z) (d : Device) : option ReportRow :=
  match serialNumber d, warrantyExpiryDate d with
  | Some serial, Some literal =>
      if String.eqb serial EmptyString || String.eqb literal EmptyString then None
      else
        match parse literal with
        | Some expiryDate =>
            let cutoff := now + horizonDays * msInDay in
            if expiryDate <=? cutoff then
              Some {| organizationName := organizationName;
                      normalizedSerial := strip_non_alnum serial;
                      expiryDateLiteral := literal;
                      daysUntilExpiry := days_between expiryDate now;
                      expiredFlag := if isExpired d then YES else NO |}
            else None
        | None => None
        end
  | _, _ => None
  end.

(** Follows the specification: [selectExpiring(devices, organizationName,
    now, horizonDays)]. *)
Definition selectExpiring (parse : string -> number) (devices : list Device)
    (organizationName : string) (now : Z) (horizonDays : Z) : list ReportRow :=
  omap (selectRow parse organizationName now horizonDays) devices.

Definition quoted (field : string) : string := dq +:+ field +:+ dq.

Definition YesNo_text (f : YesNo) : string :=
  match f with YES => "YES" | NO => "NO" end.

(** Follows the specification: one line of the report, every field between
    double quotes, nothing escaped. *)
Definition row_line (r : ReportRow) : string :=
  join "," (map quoted [organizationName r; normalizedSerial r; expiryDateLiteral r;
                         pretty (daysUntilExpiry r); YesNo_text (expiredFlag r)]).

(** Follows the specification: [formatCSV(rows)], as lines and as text. *)
Definition formatCSV_lines (rows : list ReportRow) : list string :=
  csv_header :: map row_line rows.

Definition formatCSV (rows : list ReportRow) : string :=
  join LF (formatCSV_lines rows).

(** ** What the API serves during the loop over the organizations *)

(** The answer to the device request of one organization: a list of
    devices in a 2xx response, or a response that is not 2xx. *)
Inductive org_outcome : Type :=
  | DevicesListed (r : response) (devices : list Device)
  | DeviceFetchFailed (r : response).

Definition device_error (orgId : value) (r : response) : exn :=
  Error ("Failed to fetch devices for org " +:+ toString orgId +:+ ": " +:+
         pretty (status r) +:+ " - " +:+ text r).

(** The events the loop body leaves for an organization, by outcome. *)
Definition org_events (token : value) (o : Organization) (out : org_outcome) : trace :=
  [ConsoleLog (FetchingDevices (orgId o) (VStr (orgName o)));
   Fetch (dev_request token (orgId o))] ++
  match out with
  | DevicesListed r [] =>
      [ConsoleLog (RawDeviceResponse (orgId o) (text r));
       ConsoleLog (NoDevicesFound (VStr (orgName o)))]
  | DevicesListed r (_ :: _) =>
      [ConsoleLog (RawDeviceResponse (orgId o) (text r))]
  | DeviceFetchFailed r =>
      [ConsoleError (ErrorFetchingDevices (orgId o) (device_error (orgId o) r))]
  end.

(** The rows an organization contributes, by outcome. *)
Definition org_rows (parse : string -> number) (now : Z) (o : Organization)
    (out : org_outcome) : list ReportRow :=
  match out with
  | DevicesListed _ devices => selectExpiring parse devices (orgName o) now 90
  | DeviceFetchFailed _ => []
  end.

(** At trace [t] the network answers the device request of [o] with [out]. *)
Definition answers (w : world) (token : value) (t : trace) (o : Organization)
    (out : org_outcome) : Prop :=
  match out with
  | DevicesListed r devices =>
      net w (requests_of t) (dev_request token (orgId o)) = Responded r /\
      ok r = true /\
      exists fields vs,
        JSON_parse w (text r) = Parsed (VObj fields) /\
        lookup_field "data" fields = VArr vs /\
        Forall2 (fun v d => as_device v = Some d) vs devices
  | DeviceFetchFailed r =>
      net w (requests_of t) (dev_request token (orgId o)) = Responded r /\
      ok r = false
  end.

(** From trace [t] on, the network answers the device requests of the
    organizations of [inv], one after the other, with their outcomes. *)
Fixpoint serves (w : world) (token : value) (t : trace)
    (inv : list (Organization * org_outcome)) : Prop :=
  match inv with
  | [] => True
  | (o, out) :: rest =>
      answers w token t o out /\ serves w token (t ++ org_events token o out) rest
  end.

Definition inventory_events (token : value) (inv : list (Organization * org_outcome)) : trace :=
  flat_map (fun p => org_events token (fst p) (snd p)) inv.

(** The report of an inventory: the rows of its organizations, in order. *)
Definition report_rows (parse : string -> number) (now : Z)
    (inv : list (Organization * org_outcome)) : list ReportRow :=
  flat_map (fun p => org_rows parse now (fst p) (snd p)) inv.


(** What the run logs once the report is complete. *)
Definition report_log (rows : list ReportRow) : trace :=
  match rows with
  | [] => [ConsoleLog NoExpiringDevices]
  | _ :: _ => [ConsoleLog CsvOutputBanner; ConsoleLog (CsvOutput (formatCSV rows))]
  end.

(** A run in which the token is granted and is a string, the organization
    request is answered with the organizations of [inv] (at least one), and
    the device requests are answered with the outcomes of [inv]. *)
Definition inventory_served (w : world) (token : value) (raw : string)
    (inv : list (Organization * org_outcome)) : Prop :=
  token_granted w token /\
  is_text token = true /\
  clock_ok (clock w) /\
  exists fields vs,
    orgs_answered w token raw (VObj fields) /\
    lookup_field "data" fields = VArr vs /\
    vs <> [] /\
    Forall2 (fun v o => as_organization v = Some o) vs (map fst inv) /\
    serves w token
      (prefix_trace w token raw ++ [ConsoleLog (RetrievedOrganizations (List.length vs))])
      inv.

(** The trace of such a run up to the delivery. *)
Definition served_trace (w : world) (token : value) (raw : string)
    (inv : list (Organization * org_outcome)) : trace :=
  prefix_trace w token raw ++
  [ConsoleLog (RetrievedOrganizations (List.length inv))] ++
  inventory_events token inv ++
  report_log (report_rows (Date_parse w) (clock w) inv).
(** ** Reading aids for the loops

    Names for parts of the loop bodies and for what a piece of the script
    leaves in the trace; the lemmas that use them say how they relate to the
    script. *)

(** What the body of the loop does with the devices it decoded. *)
Definition device_steps (w : world) (orgName : value) (now cutoffDate : number)
    (devicesData : value) (csvLines : list string) : M (list string) :=
  bind (get_prop devicesData "data") (fun data =>
    let devices := or_else data (VArr []) in
    if negb (isArray devices) || (List.length (items devices) =? 0)%nat
    then bind (console_log (NoDevicesFound orgName)) (fun _ => ret csvLines)
    else for_of (device_body w orgName now cutoffDate) (items devices) csvLines).

(** A stretch of trace without any event of the delivery step. *)
Definition quiet (d : trace) : Prop := List.existsb is_delivery d = false.

(** The device request the loop makes for an element of the organization
    list. *)
Definition dev_request_of (token : value) (org : value) : request :=
  dev_request token (field "id" org).

(** The mails submitted in a trace. *)
Definition mails_of (t : trace) : list mail :=
  omap (fun e => match e with SendMail _ m => Some m | _ => None end) t.

(** A text begins with the header line: it is the header, or the header,
    a line feed and more. *)
Definition header_first (csvContent : string) : Prop :=
  exists more : list string, csvContent = join LF (csv_header :: more).

(** ** Worlds to run the script in

    The worlds of the examples are built from tables: the text of every
    page the API serves, the decoded form of every text, the environment
    variables.  Their [Date.parse] reads the date-only form of the ISO
    format (YYYY-MM-DD, midnight UTC), the form the API writes, and nothing
    else. *)

Module Examples.

Definition digit (c : ascii) : option Z :=
  let n := N_of_ascii c in
  if (48 <=? n)%N && (n <=? 57)%N then Some (Z.of_N n - 48) else None.

Fixpoint digits (acc : Z) (l : list ascii) : option Z :=
  match l with
  | [] => Some acc
  | c :: r => match digit c with
              | Some d => digits (10 * acc + d) r
              | None => None
              end
  end.

(** Days from 1970-01-01 to a date of the proleptic Gregorian calendar. *)
Definition days_from_civil (y m d : Z) : Z :=
  let y' := if m <=? 2 then y - 1 else y in
  let era := y' / 400 in
  let yoe := y' - era * 400 in
  let doy := (153 * (if 2 <? m then m - 3 else m + 9) + 2) / 5 + d - 1 in
  let doe := yoe * 365 + yoe / 4 - yoe / 100 + doy in
  era * 146097 + doe - 719468.

Definition iso_date_parse (s : string) : number :=
  match list_ascii_of_string s with
  | [y1; y2; y3; y4; "-"%char; m1; m2; "-"%char; d1; d2] =>
      match digits 0 [y1; y2; y3; y4], digits 0 [m1; m2], digits 0 [d1; d2] with
      | Some y, Some m, Some d =>
          if (1 <=? m) && (m <=? 12) && (1 <=? d) && (d <=? 31)
          then TimeClip (days_from_civil y m d * msInDay)
          else None
      | _, _, _ => None
      end
  | _ => None
  end.

(** The content of a JSON string: the quote, the backslash and the line
    feed are written as escapes (the other control characters do not occur
    in the examples). *)
Definition backslash : ascii := "092"%char.

Fixpoint escape (s : string) : string :=
  match s with
  | EmptyString => EmptyString
  | String c r =>
      if Ascii.eqb c "010" then String backslash (String "n" (escape r))
      else if Ascii.eqb c "034" || Ascii.eqb c backslash
           then String backslash (String c (escape r))
           else String c (escape r)
  end.

(** The JSON text of a value. *)
Fixpoint stringify (v : value) : string :=
  match v with
  | VUndefined => "undefined"
  | VNull => "null"
  | VBool b => if b then "true" else "false"
  | VNum n => pretty n
  | VStr s => dq +:+ escape s +:+ dq
  | VArr items =>
      "[" +:+
      (fix elements (l : list value) : string :=
         match l with
         | [] => EmptyString
         | [x] => stringify x
         | x :: r => stringify x +:+ "," +:+ elements r
         end) items +:+ "]"
  | VObj fields =>
      "{" +:+
      (fix members (l : list (string * value)) : string :=
         match l with
         | [] => EmptyString
         | [(k, x)] => dq +:+ k +:+ dq +:+ ":" +:+ stringify x
         | (k, x) :: r => dq +:+ k +:+ dq +:+ ":" +:+ stringify x +:+ "," +:+ members r
         end) fields +:+ "}"
  end.

(** JSON.parse restricted to the texts of the values of a table. *)
Fixpoint parse_known (known : list value) (raw : string) : parse_result :=
  match known with
  | [] => Unparseable "Unexpected token"
  | v :: r => if String.eqb raw (stringify v) then Parsed v else parse_known r raw
  end.

(** A network that answers by URL, whatever came before. *)
Fixpoint serve (pages : list (string * response)) (req : request) : fetch_result :=
  match pages with
  | [] => Rejected (TypeError "fetch failed")
  | (u, r) :: rest => if String.eqb (url req) u then Responded r else serve rest req
  end.

Definition page (code : Z) (v : value) : response :=
  {| status := code; text := stringify v |}.

Definition make_world (vars : list (string * string)) (pages : list (string * response))
    (known : list value) (relay : send_result) (time : Z) : world :=
  {| JSON_parse := parse_known known;
     Date_parse := iso_date_parse;
     env := list_to_map vars;
     net := fun _ req => serve pages req;
     smtp := fun _ _ => relay;
     clock := time |}.

(** 2026-01-01T00:00:00Z. *)
Definition new_year_2026 : Z := 1767225600000.

Definition full_env : list (string * string) :=
  [("PEPLINK_CLIENT_ID", "client"); ("PEPLINK_CLIENT_SECRET", "secret");
   ("SMTP_HOST", "smtp.example.com"); ("SMTP_PORT", "465");
   ("SMTP_USER", "someone@example.com"); ("SMTP_PASS", "someSecret");
   ("SMTP_TO", "recipient@somewhere.com")].

Definition without (key : string) (vars : list (string * string)) : list (string * string) :=
  List.filter (fun p => negb (String.eqb (fst p) key)) vars.

Definition token_body : value := VObj [("access_token", VStr "tok")].

Definition org (n : Z) (name : string) : value :=
  VObj [("id", VNum n); ("name", VStr name)].

Definition device (sn expiry_date : string) (expired : bool) : value :=
  VObj [("sn", VStr sn); ("expiry_date", VStr expiry_date); ("expired", VBool expired)].

Definition listing (l : list value) : value := VObj [("data", VArr l)].

(** One organization, one device whose warranty ends in 45 days. *)
Definition devices_B : value := listing [device "AB-12 34" "2026-02-15" false].
Definition orgs_B : value := listing [org 1 "Acme"].
Definition world_B : world :=
  make_world full_env
    [(TOKEN_ENDPOINT, page 200 token_body);
     (ORG_ENDPOINT, page 200 orgs_B);
     (DEV_ENDPOINT (VNum 1), page 200 devices_B)]
    [token_body; orgs_B; devices_B] (Sent "<1@example.com>") new_year_2026.

(** The same, the warranty ending in 120 days. *)
Definition devices_C : value := listing [device "AB-12 34" "2026-05-01" false].
Definition world_C : world :=
  make_world full_env
    [(TOKEN_ENDPOINT, page 200 token_body);
     (ORG_ENDPOINT, page 200 orgs_B);
     (DEV_ENDPOINT (VNum 1), page 200 devices_C)]
    [token_body; orgs_B; devices_C] (Sent "<1@example.com>") new_year_2026.

(** Two organizations; the device request of the first is answered 500. *)
Definition orgs_D : value := listing [org 1 "Acme"; org 2 "Bolt"].
Definition devices_D : value := listing [device "1111-2222-3333" "2025-12-22" true].
Definition failure_D : response := {| status := 500; text := "Internal Server Error" |}.
Definition world_D : world :=
  make_world full_env
    [(TOKEN_ENDPOINT, page 200 token_body);
     (ORG_ENDPOINT, page 200 orgs_D);
     (DEV_ENDPOINT (VNum 1), failure_D);
     (DEV_ENDPOINT (VNum 2), page 200 devices_D)]
    [token_body; orgs_D; devices_D] (Sent "<1@example.com>") new_year_2026.

(** The organization list is empty. *)
Definition orgs_A : value := listing [].
Definition world_A : world :=
  make_world full_env
    [(TOKEN_ENDPOINT, page 200 token_body); (ORG_ENDPOINT, page 200 orgs_A)]
    [token_body; orgs_A] (Sent "<1@example.com>") new_year_2026.

(** The token request is answered 401. *)
Definition world_E : world :=
  make_world full_env
    [(TOKEN_ENDPOINT, {| status := 401; text := "Unauthorized" |})]
    [] (Sent "<1@example.com>") new_year_2026.

(** The token endpoint answers 200 with the JSON text null. *)
Definition world_null_token : world :=
  make_world full_env
    [(TOKEN_ENDPOINT, page 200 VNull)] [VNull] (Sent "<1@example.com>") new_year_2026.

(** The relay refuses the message. *)
Definition world_F : world :=
  make_world full_env
    [(TOKEN_ENDPOINT, page 200 token_body);
     (ORG_ENDPOINT, page 200 orgs_B);
     (DEV_ENDPOINT (VNum 1), page 200 devices_B)]
    [token_body; orgs_B; devices_B]
    (SendFailed (Error "connect ECONNREFUSED")) new_year_2026.

(** SMTP_HOST is not set. *)
Definition world_no_smtp_host : world :=
  make_world (without "SMTP_HOST" full_env)
    [(TOKEN_ENDPOINT, page 200 token_body);
     (ORG_ENDPOINT, page 200 orgs_B);
     (DEV_ENDPOINT (VNum 1), page 200 devices_B)]
    [token_body; orgs_B; devices_B] (Sent "<1@example.com>") new_year_2026.

(** PEPLINK_CLIENT_SECRET is set to the empty text. *)
Definition world_blank_secret : world :=
  make_world (("PEPLINK_CLIENT_SECRET", EmptyString) :: without "PEPLINK_CLIENT_SECRET" full_env)
    [(TOKEN_ENDPOINT, page 200 token_body)] [token_body]
    (Sent "<1@example.com>") new_year_2026.

End Examples.

(** ** More worlds: the failures the script meets on its way *)

Module Failures.
Import Examples.

(** Nothing answers: every fetch rejects. *)
Definition world_offline : world :=
  make_world full_env [] [] (Sent "<1@example.com>") new_year_2026.

(** The organization request is answered 503. *)
Definition unavailable : response := {| status := 503; text := "Service Unavailable" |}.
Definition world_orgs_unavailable : world :=
  make_world full_env
    [(TOKEN_ENDPOINT, page 200 token_body); (ORG_ENDPOINT, unavailable)]
    [token_body] (Sent "<1@example.com>") new_year_2026.

(** The organization request is answered 200 with the JSON text null. *)
Definition world_orgs_null : world :=
  make_world full_env
    [(TOKEN_ENDPOINT, page 200 token_body); (ORG_ENDPOINT, page 200 VNull)]
    [token_body; VNull] (Sent "<1@example.com>") new_year_2026.



(** One organization with three devices, the second with a number for a
    serial. *)
Definition numeric_serial : value :=
  VObj [("sn", VNum 12345678); ("expiry_date", VStr "2026-02-15"); ("expired", VBool false)].
Definition devices_numeric : value :=
  listing [device "AB-12 34" "2026-02-15" false; numeric_serial;
           device "CD-56 78" "2026-03-01" false].
Definition world_numeric_serial : world :=
  make_world full_env
    [(TOKEN_ENDPOINT, page 200 token_body);
     (ORG_ENDPOINT, page 200 orgs_B);
     (DEV_ENDPOINT (VNum 1), page 200 devices_numeric)]
    [token_body; orgs_B; devices_numeric] (Sent "<1@example.com>") new_year_2026.

(** One organization whose name runs over two lines, one device whose
    warranty ends in 45 days. *)
Definition two_line_name : string := "North" +:+ LF +:+ "Wing".
Definition orgs_two_lines : value := listing [org 1 two_line_name].
Definition world_two_line_name : world :=
  make_world full_env
    [(TOKEN_ENDPOINT, page 200 token_body);
     (ORG_ENDPOINT, page 200 orgs_two_lines);
     (DEV_ENDPOINT (VNum 1), page 200 devices_B)]
    [token_body; orgs_two_lines; devices_B] (Sent "<1@example.com>") new_year_2026.

(** One organization with three devices, the second with a serial of two
    dashes and a blank. *)
Definition devices_punctuation : value :=
  listing [device "AB-12 34" "2026-02-15" false; device "- -" "2026-02-15" true;
           device "CD-56 78" "2026-03-01" false].
Definition world_punctuation : world :=
  make_world full_env
    [(TOKEN_ENDPOINT, page 200 token_body);
     (ORG_ENDPOINT, page 200 orgs_B);
     (DEV_ENDPOINT (VNum 1), page 200 devices_punctuation)]
    [token_body; orgs_B; devices_punctuation] (Sent "<1@example.com>") new_year_2026.

End Failures.

(** * Properties *)

(** ** Serial normalization *)

Lemma strip_non_alnum_filter (s : string) :
  list_ascii_of_string (strip_non_alnum s) =
  List.filter is_alnum (list_ascii_of_string s).
Proof.
  induction s as [|c s IH]; simpl; [reflexivity|].
  destruct (is_alnum c); simpl; congruence.
Qed.

Lemma strip_non_alnum_fixed (s : string) :
  List.forallb is_alnum (list_ascii_of_string s) = true ->
  strip_non_alnum s = s.
Proof.
  induction s as [|c s IH]; simpl; [reflexivity|].
  intros [Hc Hs]%andb_true_iff. rewrite Hc, IH; auto.
Qed.

Lemma strip_non_alnum_all_alnum (s : string) :
  List.forallb is_alnum (list_ascii_of_string (strip_non_alnum s)) = true.
Proof.
  induction s as [|c s IH]; simpl; [reflexivity|].
  destruct (is_alnum c) eqn:Hc; simpl; [rewrite Hc|]; auto.
Qed.

Lemma is_alnum_spec (c : ascii) :
  is_alnum c = true <->
  let n := nat_of_ascii c in
  (97 <= n <= 122 \/ 65 <= n <= 90 \/ 48 <= n <= 57)%nat.
Proof.
  unfold is_alnum, in_range, nat_of_ascii.
  change (N_of_ascii "a") with 97%N. change (N_of_ascii "z") with 122%N.
  change (N_of_ascii "A") with 65%N. change (N_of_ascii "Z") with 90%N.
  change (N_of_ascii "0") with 48%N. change (N_of_ascii "9") with 57%N.
  cbv zeta.
  rewrite !orb_true_iff, !andb_true_iff, !N.leb_le. lia.
Qed.

(** C8.  The replacement that normalizes a serial deletes the characters
    outside a-z, A-Z and 0-9 and no other: what is left of [s] is the list of
    its letters and digits, in their order; and doing it twice is doing it
    once. *)
Theorem serial_normalization_idempotent :
  forall s : string,
    strip_non_alnum (strip_non_alnum s) = strip_non_alnum s /\
    list_ascii_of_string (strip_non_alnum s) =
      List.filter is_alnum (list_ascii_of_string s) /\
    (forall c : ascii,
        is_alnum c = true <->
        let n := nat_of_ascii c in
        (97 <= n <= 122 \/ 65 <= n <= 90 \/ 48 <= n <= 57)%nat).
Proof.
  intros s. split; [|split].
  - apply strip_non_alnum_fixed, strip_non_alnum_all_alnum.
  - apply strip_non_alnum_filter.
  - apply is_alnum_spec.
Qed.

(** ** Days until expiry *)

Lemma msInDay_pos : 0 < msInDay.
Proof. reflexivity. Qed.

Lemma ceil_div_spec (x d : Z) :
  0 < d -> (ceil_div x d - 1) * d < x <= ceil_div x d * d.
Proof.
  intros Hd. unfold ceil_div.
  pose proof (Z.div_mod (- x) d ltac:(lia)) as E.
  pose proof (Z.mod_pos_bound (- x) d Hd) as B.
  nia.
Qed.

Lemma ceil_div_unique (x d n : Z) :
  0 < d -> (n - 1) * d < x <= n * d -> ceil_div x d = n.
Proof.
  intros Hd Hn. pose proof (ceil_div_spec x d Hd). nia.
Qed.

(** *** Rounding to binary64

    [binary64 n d] is a number with a significand of at least 2^52 that is
    within half a unit of its last place of [n / d]. *)

Lemma pow2_pos (e : Z) : 0 < 2 ^ Z.max 0 e.
Proof. apply Z.pow_pos_nonneg; lia. Qed.

Lemma round_half_even_spec (num den : Z) :
  0 < den ->
  2 * num - den <= 2 * round_half_even num den * den /\
  2 * round_half_even num den * den <= 2 * num + den /\
  num / den <= round_half_even num den.
Proof.
  intros Hden. unfold round_half_even.
  pose proof (Z.div_mod num den ltac:(lia)) as Hdm.
  pose proof (Z.mod_pos_bound num den Hden) as Hr.
  destruct (2 * (num mod den) <? den) eqn:H1;
    [apply Z.ltb_lt in H1 | apply Z.ltb_ge in H1].
  { nia. }
  destruct (den <? 2 * (num mod den)) eqn:H2;
    [apply Z.ltb_lt in H2 | apply Z.ltb_ge in H2].
  { nia. }
  destruct (Z.even (num / den)); nia.
Qed.

Lemma scale_pos (n d e : Z) :
  0 < n -> 0 < d -> 0 < fst (scale n d e) /\ 0 < snd (scale n d e).
Proof.
  intros Hn Hd. unfold scale; simpl.
  pose proof (pow2_pos e). pose proof (pow2_pos (- e)). nia.
Qed.

(** The scaled quotient at exponent [e] is at least 2^52 as soon as
    [e + Z.log2 d + 53 <= Z.log2 n]. *)
Lemma scale_lower (n d e : Z) :
  0 < n -> 0 < d -> e + Z.log2 d + 53 <= Z.log2 n ->
  2 ^ 52 <= fst (scale n d e) / snd (scale n d e).
Proof.
  intros Hn Hd He.
  destruct (scale_pos n d e Hn Hd) as [Hnum Hden].
  apply Z.div_le_lower_bound; [exact Hden|].
  unfold scale; simpl.
  destruct (Z.log2_spec n Hn) as [Hn1 _].
  destruct (Z.log2_spec d Hd) as [_ Hd2].
  pose proof (Z.log2_nonneg d) as Hb.
  pose proof (Z.log2_nonneg n) as Ha.
  set (a := Z.log2 n) in *. set (b := Z.log2 d) in *.
  assert (Hkey : 2 ^ (Z.max 0 e + b + 53) <= 2 ^ a * 2 ^ Z.max 0 (- e)).
  { rewrite <- Z.pow_add_r by lia. apply Z.pow_le_mono_r; lia. }
  assert (Hsplit : 2 ^ (Z.max 0 e + b + 53) = 2 ^ Z.max 0 e * 2 ^ Z.succ b * 2 ^ 52).
  { rewrite <- !Z.pow_add_r by lia. f_equal. lia. }
  pose proof (pow2_pos e). pose proof (pow2_pos (- e)).
  assert (0 < 2 ^ 52) by (apply Z.pow_pos_nonneg; lia).
  nia.
Qed.

Lemma binary64_spec (n d : Z) :
  0 < n -> 0 < d ->
  let m := fst (binary64 n d) in
  let e := snd (binary64 n d) in
  2 ^ 52 <= m /\
  Z.log2 n - Z.log2 d - 53 <= e <= Z.log2 n - Z.log2 d - 52 /\
  2 * fst (scale n d e) - snd (scale n d e) <= 2 * m * snd (scale n d e) /\
  2 * m * snd (scale n d e) <= 2 * fst (scale n d e) + snd (scale n d e).
Proof.
  intros Hn Hd m e.
  assert (He : Z.log2 n - Z.log2 d - 53 <= e <= Z.log2 n - Z.log2 d - 52).
  { unfold e, binary64, binary64_exponent; cbn [snd].
    match goal with |- context [if ?c then _ else _] => destruct c end; lia. }
  assert (Hq : 2 ^ 52 <= fst (scale n d e) / snd (scale n d e)).
  { unfold e, binary64, binary64_exponent; cbn [snd].
    match goal with |- context [if ?c then _ else _] => destruct c eqn:Ht end.
    - apply Z.leb_le in Ht. exact Ht.
    - apply scale_lower; lia. }
  destruct (scale_pos n d e Hn Hd) as [Hnum Hden].
  destruct (round_half_even_spec (fst (scale n d e)) (snd (scale n d e)) Hden)
    as (H1 & H2 & H3).
  fold e in H1, H2, H3.
  change (round_half_even (fst (scale n d e)) (snd (scale n d e))) with m
    in H1, H2, H3.
  repeat split; try lia.
Qed.

Lemma log2_msInDay : Z.log2 msInDay = 26.
Proof. reflexivity. Qed.

Lemma log2_below (x k : Z) : 0 < x -> x < 2 ^ k -> Z.log2 x < k.
Proof. intros Hx Hlt. apply Z.log2_lt_pow2; assumption. Qed.

Lemma binary64_integer_exact (x : Z) :
  0 < x -> x <= 2 ^ 53 -> Math_floor (binary64 x 1) = x.
Proof.
  intros Hx Hle.
  destruct (Z.eq_dec x (2 ^ 53)) as [-> | Hne]; [vm_compute; reflexivity|].
  assert (Hlog : Z.log2 x < 53) by (apply log2_below; lia).
  destruct (binary64_spec x 1 Hx ltac:(lia)) as (Hm & He & H1 & H2).
  change (Z.log2 1) with 0 in He.
  unfold Math_floor.
  set (m := fst (binary64 x 1)) in *.
  set (e := snd (binary64 x 1)) in *.
  clearbody m e.
  unfold scale in H1, H2; cbn [fst snd] in H1, H2.
  replace (Z.max 0 e) with 0 in * by lia.
  change (2 ^ 0) with 1 in *.
  pose proof (pow2_pos (- e)) as HN.
  set (N := 2 ^ Z.max 0 (- e)) in *.
  assert (m = x * N) by lia. subst m.
  rewrite Z.mul_1_r. apply Z.div_mul. lia.
Qed.

Lemma binary64_of_integer_exact (x : Z) :
  Z.abs x <= 2 ^ 53 -> binary64_of_integer x = x.
Proof.
  intros Hx. destruct x as [|p|p]; [reflexivity| |].
  - unfold binary64_of_integer. apply binary64_integer_exact; lia.
  - unfold binary64_of_integer.
    rewrite binary64_integer_exact by lia. lia.
Qed.

Lemma quotient_by_msInDay_exact (x : Z) :
  0 < x -> x <= 2 ^ 53 ->
  Math_floor (binary64 x msInDay) = x / msInDay /\
  Math_ceil (binary64 x msInDay) = ceil_div x msInDay.
Proof.
  intros Hx Hle.
  destruct (Z.eq_dec x (2 ^ 53)) as [-> | Hne]; [split; vm_compute; reflexivity|].
  assert (Hlog : Z.log2 x < 53) by (apply log2_below; lia).
  destruct (binary64_spec x msInDay Hx msInDay_pos) as (Hm & He & H1 & H2).
  rewrite log2_msInDay in He.
  unfold Math_floor, Math_ceil, ceil_div.
  set (m := fst (binary64 x msInDay)) in *.
  set (e := snd (binary64 x msInDay)) in *.
  clearbody m e.
  unfold scale in H1, H2; cbn [fst snd] in H1, H2.
  replace (Z.max 0 e) with 0 in * by lia.
  change (2 ^ 0) with 1 in *.
  assert (HN : 2 ^ 26 <= 2 ^ Z.max 0 (- e)) by (apply Z.pow_le_mono_r; lia).
  set (N := 2 ^ Z.max 0 (- e)) in *.
  change (2 ^ 26) with 67108864 in HN.
  rewrite !Z.mul_1_r in *.
  pose proof (Z.div_mod x msInDay ltac:(discriminate)) as Hdm.
  pose proof (Z.mod_pos_bound x msInDay msInDay_pos) as Hr.
  set (k := x / msInDay) in *. set (r := x mod msInDay) in *.
  change msInDay with 86400000 in *.
  destruct (Z.eq_dec r 0) as [Hr0 | Hr0].
  - assert (m = k * N) by nia. subst m.
    split.
    + apply Z.div_mul. lia.
    + replace (- (k * N)) with ((- k) * N) by lia. rewrite Z.div_mul by lia.
      replace (- x) with ((- k) * 86400000) by lia. rewrite Z.div_mul by lia.
      reflexivity.
  - assert (Hlo : k * N < m) by nia.
    assert (Hhi : m < (k + 1) * N) by nia.
    split.
    + symmetry. apply (Z.div_unique_pos m N k (m - k * N)); lia.
    + f_equal.
      rewrite <- (Z.div_unique_pos (- m) N (- (k + 1)) ((k + 1) * N - m)) by lia.
      rewrite <- (Z.div_unique_pos (- x) 86400000 (- (k + 1)) (86400000 - r)) by lia.
      reflexivity.
Qed.

Lemma Math_ceil_quotient_exact (x : Z) :
  Z.abs x <= 2 ^ 53 -> Math_ceil_quotient x msInDay = ceil_div x msInDay.
Proof.
  intros Hx. destruct x as [|p|p]; [reflexivity| |].
  - unfold Math_ceil_quotient. apply quotient_by_msInDay_exact; lia.
  - unfold Math_ceil_quotient, ceil_div.
    destruct (quotient_by_msInDay_exact (- Z.neg p)) as [-> _]; [lia | lia |].
    reflexivity.
Qed.

Lemma days_between_exact (t1 t2 : Z) :
  Z.abs (t1 - t2) <= 2 ^ 53 -> days_between t1 t2 = ceil_div (t1 - t2) msInDay.
Proof.
  intros Hx. unfold days_between.
  rewrite binary64_of_integer_exact by exact Hx.
  apply Math_ceil_quotient_exact. exact Hx.
Qed.

Lemma binary64_integer_large (x : Z) :
  2 ^ 53 < x -> 2 ^ 53 <= Math_floor (binary64 x 1).
Proof.
  intros Hx.
  assert (Hpos : 0 < x) by (assert (0 < 2 ^ 53) by reflexivity; lia).
  assert (Hlog : 53 <= Z.log2 x).
  { apply Z.log2_le_pow2; [exact Hpos | lia]. }
  destruct (binary64_spec x 1 Hpos ltac:(lia)) as (Hm & He & H1 & H2).
  change (Z.log2 1) with 0 in He.
  unfold Math_floor.
  set (m := fst (binary64 x 1)) in *.
  set (e := snd (binary64 x 1)) in *.
  clearbody m e.
  unfold scale in H1, H2; cbn [fst snd] in H1, H2.
  replace (Z.max 0 (- e)) with 0 in * by lia.
  replace (Z.max 0 e) with e in * by lia.
  change (2 ^ 0) with 1 in *. rewrite Z.div_1_r.
  destruct (Z.eq_dec e 0) as [-> | Hne].
  - change (2 ^ 0) with 1 in *. lia.
  - assert (2 ^ 1 <= 2 ^ e) by (apply Z.pow_le_mono_r; lia).
    change (2 ^ 1) with 2 in *. change (2 ^ 52) with 4503599627370496 in *.
    change (2 ^ 53) with 9007199254740992 in *. nia.
Qed.

Lemma Math_ceil_quotient_large (x : Z) :
  2 ^ 53 <= x -> 2 ^ 26 <= Math_ceil_quotient x msInDay.
Proof.
  intros Hx.
  assert (Hpos : 0 < x) by (assert (0 < 2 ^ 53) by reflexivity; lia).
  assert (Hlog : 53 <= Z.log2 x) by (apply Z.log2_le_pow2; [exact Hpos | lia]).
  destruct (binary64_spec x msInDay Hpos msInDay_pos) as (Hm & He & _ & _).
  rewrite log2_msInDay in He.
  destruct x as [|p|p]; try lia.
  unfold Math_ceil_quotient, Math_ceil.
  set (m := fst (binary64 (Z.pos p) msInDay)) in *.
  set (e := snd (binary64 (Z.pos p) msInDay)) in *.
  clearbody m e.
  pose proof (pow2_pos e) as HP.
  assert (HP1 : 1 <= 2 ^ Z.max 0 e) by lia.
  assert (HN : 2 ^ Z.max 0 (- e) <= 2 ^ 26) by (apply Z.pow_le_mono_r; lia).
  pose proof (pow2_pos (- e)) as HN0.
  set (P := 2 ^ Z.max 0 e) in *. set (N := 2 ^ Z.max 0 (- e)) in *.
  change (2 ^ 26) with 67108864 in *. change (2 ^ 52) with 4503599627370496 in *.
  assert (Hdiv : (- (m * P)) / N <= - 67108864).
  { apply Z.div_le_upper_bound; [lia | nia]. }
  lia.
Qed.

Lemma Math_ceil_quotient_negative (x : Z) :
  x < 0 -> Math_ceil_quotient x msInDay <= 0.
Proof.
  intros Hx. destruct x as [|p|p]; try lia.
  unfold Math_ceil_quotient, Math_floor.
  destruct (binary64_spec (- Z.neg p) msInDay ltac:(lia) msInDay_pos) as (Hm & _).
  set (m := fst (binary64 (- Z.neg p) msInDay)) in *.
  set (e := snd (binary64 (- Z.neg p) msInDay)) in *.
  clearbody m e.
  pose proof (pow2_pos e). pose proof (pow2_pos (- e)).
  assert (0 <= 2 ^ 52) by (apply Z.pow_nonneg; lia).
  assert (0 <= (m * 2 ^ Z.max 0 e) / 2 ^ Z.max 0 (- e)).
  { apply Z.div_pos; nia. }
  lia.
Qed.

Lemma days_between_far (t1 t2 : Z) :
  (2 ^ 53 < t1 - t2 -> 2 ^ 26 <= days_between t1 t2) /\
  (t1 - t2 < - 2 ^ 53 -> days_between t1 t2 <= 0).
Proof.
  unfold days_between. split; intros Hx.
  - apply Math_ceil_quotient_large.
    assert (0 < 2 ^ 53) by reflexivity.
    destruct (t1 - t2) as [|p|p] eqn:E; try lia.
    unfold binary64_of_integer. apply binary64_integer_large. exact Hx.
  - apply Math_ceil_quotient_negative.
    assert (0 < 2 ^ 53) by reflexivity.
    destruct (t1 - t2) as [|p|p] eqn:E; try lia.
    unfold binary64_of_integer.
    pose proof (binary64_integer_large (- Z.neg p) ltac:(lia)). lia.
Qed.

(** C3, the parts that fail.  A warranty that ended one millisecond ago is
    printed as ending in 0 days: the difference is negative, the day count
    is not.  And between two dates that are more than 2^53 ms apart the
    difference itself is rounded before it is divided: from
    -4320000000000001 to 8640000000000000, both of them time values of valid
    dates, the script counts 150000000 days where the ceiling of the
    difference in days is 150000001. *)
Lemma days_count_counterexample :
  (let now := 1767225600000 in
   let expiryDate := now - 1 in
   diffInDays (Some expiryDate) (Some now) = Some 0 /\
   Z.sgn (expiryDate - now) = -1 /\
   Z.sgn 0 <> Z.sgn (expiryDate - now)) /\
  (let now := -4320000000000001 in
   let expiryDate := 8640000000000000 in
   TimeClip now = Some now /\ TimeClip expiryDate = Some expiryDate /\
   diffInDays (Some expiryDate) (Some now) = Some 150000000 /\
   ceil_div (expiryDate - now) msInDay = 150000001).
Proof. vm_compute. repeat split; congruence. Qed.

(** C3, as the script has it.  For two dates at most 2^53 ms apart (some
    285000 years) the day count is the ceiling of the difference in days:
    the least [d] with [expiryDate - now <= d] days.  It is 0 at [now] and
    -10 exactly ten days before.  Its sign follows the difference except
    within the last day before [now], where the count is 0 while the
    difference is negative: it is positive exactly when the date is after
    [now], and negative exactly when the date is a whole day or more
    before. *)
Theorem days_until_expiry_ceiling :
  forall expiryDate now : Z,
    Z.abs (expiryDate - now) <= 2 ^ 53 ->
    let d := ceil_div (expiryDate - now) msInDay in
    diffInDays (Some expiryDate) (Some now) = Some d /\
    (d - 1) * msInDay < expiryDate - now <= d * msInDay /\
    diffInDays (Some now) (Some now) = Some 0 /\
    diffInDays (Some (now - 10 * msInDay)) (Some now) = Some (-10) /\
    (0 < d <-> now < expiryDate) /\
    (d < 0 <-> expiryDate - now <= - msInDay) /\
    (d = 0 <-> - msInDay < expiryDate - now <= 0).
Proof.
  intros e n Hrange d.
  pose proof msInDay_pos as Hpos.
  pose proof (ceil_div_spec (e - n) msInDay Hpos) as Hd. fold d in Hd.
  split; [|split; [exact Hd|split; [|split]]].
  - unfold diffInDays. rewrite (days_between_exact e n Hrange). reflexivity.
  - unfold diffInDays, days_between. rewrite Z.sub_diag. reflexivity.
  - unfold diffInDays, days_between.
    replace (n - 10 * msInDay - n) with (- (10 * msInDay)) by lia.
    vm_compute. reflexivity.
  - repeat split; intros; nia.
Qed.

Lemma days_until_expiry_ceiling_witness :
  let now := 1767225600000 in
  let expiryDate := 1771113600000 in
  diffInDays (Some expiryDate) (Some now) = Some 45 /\
  (45 - 1) * msInDay < expiryDate - now <= 45 * msInDay /\
  diffInDays (Some now) (Some now) = Some 0 /\
  diffInDays (Some (now - 10 * msInDay)) (Some now) = Some (-10) /\
  (0 < 45 <-> now < expiryDate) /\
  (45 < 0 <-> expiryDate - now <= - msInDay) /\
  (45 = 0 <-> - msInDay < expiryDate - now <= 0).
Proof.
  intros now expiryDate.
  apply (days_until_expiry_ceiling expiryDate now).
  vm_compute. discriminate.
Defined.

(** ** The filter, device by device *)

Lemma string_eqb_empty (s : string) :
  String.eqb s EmptyString = false <-> s <> EmptyString.
Proof. apply String.eqb_neq. Qed.

Lemma truthy_VStr (s : string) : truthy (VStr s) = true <-> s <> EmptyString.
Proof.
  simpl. rewrite negb_true_iff. apply string_eqb_empty.
Qed.

Lemma TimeClip_valid (t : Z) : Z.abs t <= max_time -> TimeClip t = Some t.
Proof.
  intros H. unfold TimeClip. apply Z.leb_le in H. rewrite H. reflexivity.
Qed.

Lemma cutoff_valid (now : Z) :
  clock_ok now ->
  TimeClip now = Some now /\
  add_ms (TimeClip now) ninety_days = Some (now + ninety_days).
Proof.
  intros [H1 H2]. rewrite (TimeClip_valid _ H1). simpl.
  rewrite (TimeClip_valid _ H2). auto.
Qed.

(** A device with a serial and a date that parses. *)
Lemma device_body_dated (w : world) (orgName : value) (now : Z)
    (fields : list (string * value)) (csvLines : list string) (t : trace)
    (serial literal : string) (expiryDate : Z) :
  clock_ok now ->
  lookup_field "sn" fields = VStr serial -> serial <> EmptyString ->
  lookup_field "expiry_date" fields = VStr literal -> literal <> EmptyString ->
  Date_parse w literal = Some expiryDate ->
  device_body w orgName (TimeClip now) (add_ms (TimeClip now) ninety_days)
              (VObj fields) csvLines t =
  (Normal (if expiryDate <=? now + ninety_days
           then csvLines ++ [device_line orgName now fields serial literal expiryDate]
           else csvLines), t).
Proof.
  intros Hclock Hsn Hs He Hl Hparse.
  destruct (cutoff_valid now Hclock) as [Hnow Hcut].
  unfold device_body, bind, get_prop, ret. rewrite Hsn, He, Hcut, Hnow.
  apply truthy_VStr in Hs, Hl. rewrite Hs, Hl. simpl.
  rewrite Hparse. simpl.
  destruct (expiryDate <=? now + ninety_days); reflexivity.
Qed.

(** A device that lacks a field, or whose date does not parse. *)
Lemma device_body_skipped (w : world) (orgName : value) (now cutoffDate : number)
    (fields : list (string * value)) (csvLines : list string) (t : trace) :
  truthy (lookup_field "sn" fields) = false \/
  truthy (lookup_field "expiry_date" fields) = false \/
  (exists serial literal,
      lookup_field "sn" fields = VStr serial /\
      lookup_field "expiry_date" fields = VStr literal /\
      Date_parse w literal = None) ->
  device_body w orgName now cutoffDate (VObj fields) csvLines t = (Normal csvLines, t).
Proof.
  intros H. unfold device_body, bind, get_prop, ret.
  destruct (truthy (lookup_field "sn" fields)) eqn:Hsn; simpl; [|reflexivity].
  destruct (truthy (lookup_field "expiry_date" fields)) eqn:He; simpl; [|reflexivity].
  destruct H as [H|[H|(serial & literal & H1 & H2 & H3)]]; try congruence.
  rewrite H1, H2. simpl. rewrite H3. reflexivity.
Qed.

Lemma strip_non_alnum_nothing_left (s : string) :
  List.forallb (fun c => negb (is_alnum c)) (list_ascii_of_string s) = true ->
  strip_non_alnum s = EmptyString.
Proof.
  induction s as [|c s IH]; simpl; [reflexivity|].
  intros [Hc Hs]%andb_true_iff. apply negb_true_iff in Hc. rewrite Hc. auto.
Qed.

(** ** Delivery *)

Lemma app_cons_assoc {A} (l : list A) (x : A) (r : list A) :
  (l ++ [x]) ++ r = l ++ x :: r.
Proof. rewrite <- List.app_assoc. reflexivity. Qed.

Lemma sendEmailWithCSV_events (w : world) (csvContent : string) (t : trace) :
  sendEmailWithCSV w csvContent t = (Normal tt, t ++ email_events w csvContent).
Proof.
  unfold sendEmailWithCSV, email_events, smtp_complete.
  destruct (env_truthy (env w !! "SMTP_HOST")); simpl; [|reflexivity].
  destruct (env_truthy (env w !! "SMTP_PORT")); simpl; [|reflexivity].
  destruct (env_truthy (env w !! "SMTP_USER")); simpl; [|reflexivity].
  destruct (env_truthy (env w !! "SMTP_PASS")); simpl; [|reflexivity].
  destruct (env_truthy (env w !! "SMTP_TO")); simpl; [|reflexivity].
  unfold try_catch, bind, emit, console_log, console_error, emit, throw.
  fold (transporter_of_env w). fold (mailOptions_of_env w csvContent).
  destruct (smtp w (transporter_of_env w) (mailOptions_of_env w csvContent));
    rewrite app_cons_assoc; reflexivity.
Qed.

Lemma deliver_events (w : world) (report : option string) (t : trace) :
  deliver w report t =
  (Normal tt, t ++ match report with
                   | Some csvContent => email_events w csvContent
                   | None => []
                   end).
Proof.
  destruct report as [csvContent|]; simpl.
  - apply sendEmailWithCSV_events.
  - unfold ret. rewrite List.app_nil_r. reflexivity.
Qed.

(** [main] is the pipeline followed by the delivery of its report. *)
Lemma main_pipeline (w : world) (t : trace) :
  main w t = bind (pipeline w) (deliver w) t.
Proof.
  unfold main, pipeline, report_steps, bind.
  destruct (retrieve_token w t) as [[token|e|c] t1]; try reflexivity.
  destruct (fetch_organizations w token t1) as [[orgData|e|c] t2]; try reflexivity.
  destruct (get_prop orgData "data" t2) as [[orgs|e|c] t3]; try reflexivity.
  destruct (negb (isArray orgs) || (List.length (items orgs) =? 0)%nat).
  - reflexivity.
  - simpl.
    destruct (for_of _ _ _ _) as [[csvLines|e|c] t4]; try reflexivity.
    destruct (List.length csvLines =? 1)%nat; reflexivity.
Qed.

(** The exit code and the trace of a run, from its pipeline. *)
Lemma run_pipeline (w : world) :
  run w =
  match pipeline w [] with
  | (Normal report, t) =>
      (0, t ++ match report with
               | Some csvContent => email_events w csvContent
               | None => []
               end)
  | (Throw err, t) => (1, t ++ [ConsoleError (UnexpectedError err)])
  | (Exit code, t) => (code, t)
  end.
Proof.
  unfold run. rewrite main_pipeline. unfold bind.
  destruct (pipeline w []) as [[report|e|c] t]; try reflexivity.
  rewrite deliver_events. reflexivity.
Qed.

(** ** The token *)

Lemma credentials_set_iff (w : world) :
  credentials_set w = true <->
  env_truthy (env w !! "PEPLINK_CLIENT_ID") = true /\
  env_truthy (env w !! "PEPLINK_CLIENT_SECRET") = true.
Proof. unfold credentials_set. apply andb_true_iff. Qed.

Lemma getBearerToken_missing_credentials (w : world) (t : trace) :
  credentials_set w = false ->
  getBearerToken w t =
  (Throw (Error "Missing PEPLINK_CLIENT_ID or PEPLINK_CLIENT_SECRET in .env"), t).
Proof.
  unfold credentials_set, getBearerToken. intros H.
  destruct (env_truthy (env w !! "PEPLINK_CLIENT_ID")); simpl in *; [|reflexivity].
  rewrite H. reflexivity.
Qed.

(** With credentials, the token request goes out and its answer is read
    as follows. *)
Lemma getBearerToken_answer (w : world) (t : trace) :
  credentials_set w = true ->
  getBearerToken w t =
  (match net w (requests_of t) (the_token_request w) with
   | Rejected e => Throw e
   | Responded r =>
       if negb (ok r)
       then Throw (Error ("Failed to get token: " +:+ pretty (status r) +:+
                          " - " +:+ text r))
       else
         match JSON_parse w (text r) with
         | Unparseable msg =>
             Throw (Error ("Failed to parse token JSON: " +:+
                           exn_toString (SyntaxError msg)))
         | Parsed VNull =>
             Throw (TypeError "Cannot read properties of null (reading 'access_token')")
         | Parsed VUndefined =>
             Throw (TypeError "Cannot read properties of undefined (reading 'access_token')")
         | Parsed j =>
             if truthy (field "access_token" j)
             then Normal (field "access_token" j)
             else Throw (Error "No access_token in token response")
         end
   end, t ++ [Fetch (the_token_request w)]).
Proof.
  intros [H1 H2]%credentials_set_iff.
  unfold getBearerToken. rewrite H1, H2. simpl.
  unfold bind, fetch. fold (the_token_request w).
  destruct (net w (requests_of t) (the_token_request w)) as [r|e]; [|reflexivity].
  destruct (ok r); simpl; [|reflexivity].
  unfold try_catch, JSON_parse_M.
  destruct (JSON_parse w (text r)) as [j|msg]; [|reflexivity].
  destruct j; simpl; try reflexivity;
    unfold ret; simpl;
    match goal with |- context [negb ?b] => destruct b end; reflexivity.
Qed.

Lemma getBearerToken_never_exits (w : world) (t t' : trace) (code : Z) :
  getBearerToken w t <> (Exit code, t').
Proof.
  destruct (credentials_set w) eqn:Hc.
  - rewrite (getBearerToken_answer w t Hc).
    destruct (net w _ _) as [r|e]; [|discriminate].
    destruct (negb (ok r)); [discriminate|].
    destruct (JSON_parse w (text r)) as [j|msg]; [|discriminate].
    destruct j; try discriminate;
      match goal with |- context [if ?b then _ else _] => destruct b end; discriminate.
  - rewrite (getBearerToken_missing_credentials w t Hc). discriminate.
Qed.

Lemma retrieve_token_success (w : world) (t t' : trace) (token : value) :
  getBearerToken w t = (Normal token, t') ->
  retrieve_token w t = (Normal token, t' ++ [ConsoleLog (TokenRetrieved token)]).
Proof.
  intros H. unfold retrieve_token, try_catch, bind. rewrite H. reflexivity.
Qed.

Lemma retrieve_token_failure (w : world) (t t' : trace) (e : exn) :
  getBearerToken w t = (Throw e, t') ->
  retrieve_token w t = (Exit 1, t' ++ [ConsoleError (ErrorRetrievingToken e)]).
Proof.
  intros H. unfold retrieve_token, try_catch, bind. rewrite H. reflexivity.
Qed.

(** A failed token exchange ends the run: exit code 1, nothing after the
    error message. *)
Lemma run_token_failure (w : world) (t : trace) (e : exn) :
  getBearerToken w [] = (Throw e, t) ->
  run w = (1, t ++ [ConsoleError (ErrorRetrievingToken e)]).
Proof.
  intros H. unfold run, main, bind.
  rewrite (retrieve_token_failure w [] t e H). reflexivity.
Qed.

(** C6.  When the token endpoint answers, [getBearerToken] returns the
    [access_token] of the body exactly when the answer is 2xx and its body
    decodes to something with a truthy (for a string: non-empty)
    [access_token].  Otherwise it throws: for an answer that is not 2xx, an
    error with the status and the raw body; for a body that does not
    decode, the parse error; for a decoded body without such a field, the
    error that says so (for the body null the failed property read itself
    is what is thrown).  Whatever it throws, the run logs it and exits with
    code 1, the token request being the only request made. *)
Theorem token_acquisition :
  forall (w : world) (r : response),
    credentials_set w = true ->
    net w [] (the_token_request w) = Responded r ->
    let result := getBearerToken w [] in
    let t1 := [Fetch (the_token_request w)] in
    (forall token : value,
        result = (Normal token, t1) <->
        ok r = true /\
        exists j, JSON_parse w (text r) = Parsed j /\
                  field "access_token" j = token /\ truthy token = true) /\
    (ok r = false ->
     result = (Throw (Error ("Failed to get token: " +:+ pretty (status r) +:+
                             " - " +:+ text r)), t1)) /\
    (forall msg : string,
        ok r = true -> JSON_parse w (text r) = Unparseable msg ->
        result = (Throw (Error ("Failed to parse token JSON: " +:+
                                exn_toString (SyntaxError msg))), t1)) /\
    (forall j : value,
        ok r = true -> JSON_parse w (text r) = Parsed j ->
        truthy (field "access_token" j) = false ->
        exists e, result = (Throw e, t1) /\
                  (j <> VNull -> j <> VUndefined ->
                   e = Error "No access_token in token response")) /\
    ((exists token, result = (Normal token, t1)) \/ (exists e, result = (Throw e, t1))) /\
    (forall e : exn,
        result = (Throw e, t1) ->
        run w = (1, [Fetch (the_token_request w); ConsoleError (ErrorRetrievingToken e)]) /\
        requests_of (run_trace w) = [the_token_request w]).
Proof.
  intros w r Hcred Hnet result t1.
  pose proof (getBearerToken_answer w [] Hcred) as E.
  simpl requests_of in E. rewrite Hnet in E. simpl app in E.
  fold result in E. fold t1 in E.
  split; [|split; [|split; [|split; [|split]]]].
  - intros token. split.
    + intros H. rewrite E in H. destruct (ok r); simpl in H; [|discriminate].
      split; [reflexivity|].
      destruct (JSON_parse w (text r)) as [j|msg]; [|discriminate].
      exists j. split; [reflexivity|].
      destruct j; try discriminate; simpl in *;
        match type of H with
        | context [if ?b then _ else _] => destruct b eqn:Hb
        end; try discriminate; inversion H; subst; auto.
    + intros (Hok & j & Hparse & Hfield & Htruthy).
      rewrite E, Hok, Hparse. simpl. subst token.
      destruct j; simpl in *; try discriminate; try rewrite Htruthy; reflexivity.
  - intros Hok. rewrite E, Hok. reflexivity.
  - intros msg Hok Hparse. rewrite E, Hok, Hparse. reflexivity.
  - intros j Hok Hparse Hfalsy. rewrite E, Hok, Hparse. simpl.
    destruct j; simpl in *; try rewrite Hfalsy;
      (eexists; split; [reflexivity|]; intros; congruence).
  - rewrite E. destruct (ok r); simpl; [|right; eexists; reflexivity].
    destruct (JSON_parse w (text r)) as [j|msg]; [|right; eexists; reflexivity].
    destruct j; try (right; eexists; reflexivity);
      match goal with |- context [if ?b then _ else _] => destruct b end;
      first [left; eexists; reflexivity | right; eexists; reflexivity].
  - intros e H. split.
    + apply (run_token_failure w t1 e H).
    + unfold run_trace. rewrite (run_token_failure w t1 e H). reflexivity.
Qed.

Lemma token_acquisition_witness :
  let w := Examples.world_E in
  getBearerToken w [] =
    (Throw (Error "Failed to get token: 401 - Unauthorized"),
     [Fetch (the_token_request w)]) /\
  run w =
    (1, [Fetch (the_token_request w);
         ConsoleError (ErrorRetrievingToken
                         (Error "Failed to get token: 401 - Unauthorized"))]) /\
  requests_of (run_trace w) = [the_token_request w].
Proof.
  intros w.
  destruct (token_acquisition w {| status := 401; text := "Unauthorized" |}
              eq_refl eq_refl) as (_ & Hfail & _ & _ & _ & Hrun).
  split; [exact (Hfail eq_refl)|].
  exact (Hrun _ (Hfail eq_refl)).
Defined.

(** ** Configuration *)

Lemma env_truthy_false_iff (o : option string) :
  env_truthy o = false <-> absent_or_empty o.
Proof.
  unfold absent_or_empty. destruct o as [s|]; simpl.
  - rewrite negb_false_iff, String.eqb_eq. split.
    + intros ->. auto.
    + intros [H|H]; congruence.
  - split; auto.
Qed.

Lemma credentials_set_false_iff (w : world) :
  credentials_set w = false <->
  absent_or_empty (env w !! "PEPLINK_CLIENT_ID") \/
  absent_or_empty (env w !! "PEPLINK_CLIENT_SECRET").
Proof.
  unfold credentials_set. rewrite andb_false_iff, !env_truthy_false_iff. tauto.
Qed.

Lemma smtp_complete_false_iff (w : world) :
  smtp_complete w = false <->
  absent_or_empty (env w !! "SMTP_HOST") \/ absent_or_empty (env w !! "SMTP_PORT") \/
  absent_or_empty (env w !! "SMTP_USER") \/ absent_or_empty (env w !! "SMTP_PASS") \/
  absent_or_empty (env w !! "SMTP_TO").
Proof.
  unfold smtp_complete. rewrite !andb_false_iff, !env_truthy_false_iff. tauto.
Qed.

Lemma email_events_incomplete (w : world) (csvContent : string) :
  smtp_complete w = false ->
  email_events w csvContent = [ConsoleError MissingSmtpSettings].
Proof. intros H. unfold email_events. rewrite H. reflexivity. Qed.

(** C4, the part that fails.  With SMTP_HOST unset and everything else in
    place, the run makes its three requests, finds the setting missing only
    when it is about to send, logs that, and ends with exit code 0. *)
Lemma smtp_setting_missing_counterexample :
  let w := Examples.world_no_smtp_host in
  env w !! "SMTP_HOST" = None /\
  exit_code w = 0 /\
  List.length (requests_of (run_trace w)) = 3%nat /\
  List.last (run_trace w) (ConsoleLog NoExpiringDevices) = ConsoleError MissingSmtpSettings.
Proof. vm_compute. repeat split. Qed.

(** C4, as the script has it.  The two API credentials are checked before
    anything is sent: if one is absent or empty, the run logs one fixed
    error that names both keys and exits with code 1 without a request.
    The SMTP settings are checked at send time only: if one of the five is
    absent or empty, [sendEmailWithCSV] logs one fixed message and returns,
    no mail is submitted, and a run that got that far ends with exit code
    0. *)
Theorem configuration_checks :
  forall w : world,
    (absent_or_empty (env w !! "PEPLINK_CLIENT_ID") \/
     absent_or_empty (env w !! "PEPLINK_CLIENT_SECRET") ->
     run w =
       (1, [ConsoleError
              (ErrorRetrievingToken
                 (Error "Missing PEPLINK_CLIENT_ID or PEPLINK_CLIENT_SECRET in .env"))]) /\
     requests_of (run_trace w) = []) /\
    (absent_or_empty (env w !! "SMTP_HOST") \/ absent_or_empty (env w !! "SMTP_PORT") \/
     absent_or_empty (env w !! "SMTP_USER") \/ absent_or_empty (env w !! "SMTP_PASS") \/
     absent_or_empty (env w !! "SMTP_TO") ->
     (forall (csvContent : string) (t : trace),
         sendEmailWithCSV w csvContent t =
           (Normal tt, t ++ [ConsoleError MissingSmtpSettings])) /\
     (forall (csvContent : string) (t : trace),
         pipeline w [] = (Normal (Some csvContent), t) ->
         run w = (0, t ++ [ConsoleError MissingSmtpSettings]))).
Proof.
  intros w. split.
  - intros H%credentials_set_false_iff.
    pose proof (run_token_failure w [] _ (getBearerToken_missing_credentials w [] H)) as E.
    split; [exact E|]. unfold run_trace. rewrite E. reflexivity.
  - intros H%smtp_complete_false_iff. split.
    + intros csvContent t.
      rewrite sendEmailWithCSV_events, (email_events_incomplete w csvContent H).
      reflexivity.
    + intros csvContent t Hp. rewrite run_pipeline, Hp.
      rewrite (email_events_incomplete w csvContent H). reflexivity.
Qed.

Lemma configuration_checks_witness :
  (run Examples.world_blank_secret =
     (1, [ConsoleError
            (ErrorRetrievingToken
               (Error "Missing PEPLINK_CLIENT_ID or PEPLINK_CLIENT_SECRET in .env"))]) /\
   requests_of (run_trace Examples.world_blank_secret) = []) /\
  sendEmailWithCSV Examples.world_no_smtp_host csv_header [] =
    (Normal tt, [ConsoleError MissingSmtpSettings]).
Proof.
  split.
  - apply (proj1 (configuration_checks Examples.world_blank_secret)).
    right. right. reflexivity.
  - apply (proj2 (configuration_checks Examples.world_no_smtp_host)).
    left. left. reflexivity.
Defined.

(** ** The organizations *)

Lemma fetch_organizations_answered (w : world) (token : value) (t : trace)
    (r : response) (j : value) :
  net w (requests_of t) (org_request token) = Responded r ->
  ok r = true ->
  JSON_parse w (text r) = Parsed j ->
  fetch_organizations w token t =
  (Normal j, t ++ [Fetch (org_request token); ConsoleLog (RawOrganizationBody (text r))]).
Proof.
  intros Hnet Hok Hparse.
  unfold fetch_organizations, try_catch, bind, fetch. rewrite Hnet, Hok. simpl.
  unfold console_log, emit, JSON_parse_M. rewrite Hparse. unfold ret.
  rewrite app_cons_assoc. reflexivity.
Qed.

Lemma getBearerToken_granted (w : world) (token : value) :
  token_granted w token ->
  getBearerToken w [] = (Normal token, [Fetch (the_token_request w)]).
Proof.
  intros (Hcred & r & j & Hnet & Hok & Hparse & Hfield & Htruthy).
  rewrite (getBearerToken_answer w [] Hcred). simpl requests_of.
  rewrite Hnet, Hok, Hparse. simpl. subst token.
  destruct j; simpl in *; try discriminate; try rewrite Htruthy; reflexivity.
Qed.

Lemma pipeline_first_steps (w : world) (token : value) (raw : string) (j : value) :
  token_granted w token ->
  orgs_answered w token raw j ->
  pipeline w [] = report_steps w token j (prefix_trace w token raw).
Proof.
  intros Htok (r & Hnet & Hok & Hraw & Hparse).
  unfold pipeline, bind.
  rewrite (retrieve_token_success w [] _ token (getBearerToken_granted w token Htok)).
  subst raw.
  rewrite (fetch_organizations_answered w token _ r j); auto.
Qed.

(** C2, the part that fails.  The token is granted, the organization list
    comes back empty, all SMTP settings are there: the run logs that it
    found no organization and returns.  It builds no report and the trace
    holds no event of the delivery step; the exit code is 0. *)
Lemma no_organizations_counterexample :
  let w := Examples.world_A in
  smtp_complete w = true /\
  exit_code w = 0 /\
  fst (pipeline w []) = Normal None /\
  List.existsb is_delivery (run_trace w) = false /\
  List.last (run_trace w) (ConsoleLog NoExpiringDevices) = ConsoleLog NoOrganizationsFound.
Proof. vm_compute. repeat split. Qed.

(** C2, as the script has it.  When the token is granted and the
    organization request is answered 2xx with a body (other than null)
    whose [data] is missing, is no array or is an empty array, the run logs
    that no organization was found and returns at once: no report is built,
    no mail is sent or attempted, and the exit code is 0. *)
Theorem no_organizations_no_report :
  forall (w : world) (token : value) (raw : string) (j : value),
    token_granted w token ->
    orgs_answered w token raw j ->
    j <> VNull -> j <> VUndefined ->
    isArray (field "data" j) = false \/ items (field "data" j) = [] ->
    pipeline w [] =
      (Normal None, prefix_trace w token raw ++ [ConsoleLog NoOrganizationsFound]) /\
    run w = (0, prefix_trace w token raw ++ [ConsoleLog NoOrganizationsFound]) /\
    List.existsb is_delivery (run_trace w) = false.
Proof.
  intros w token raw j Htok Horgs Hnull Hundef Hdata.
  assert (Hp : pipeline w [] =
               (Normal None, prefix_trace w token raw ++ [ConsoleLog NoOrganizationsFound])).
  { rewrite (pipeline_first_steps w token raw j Htok Horgs).
    unfold report_steps. unfold bind at 1.
    assert (Hget : forall t, get_prop j "data" t = (Normal (field "data" j), t)).
    { intros t. destruct j; try reflexivity; congruence. }
    rewrite Hget.
    assert (Hcond : negb (isArray (field "data" j)) ||
                    (List.length (items (field "data" j)) =? 0)%nat = true).
    { destruct Hdata as [H|H]; rewrite H; simpl; auto using orb_true_r. }
    rewrite Hcond. reflexivity. }
  assert (Hr : run w = (0, prefix_trace w token raw ++ [ConsoleLog NoOrganizationsFound])).
  { rewrite run_pipeline, Hp. rewrite List.app_nil_r. reflexivity. }
  split; [exact Hp|]. split; [exact Hr|].
  unfold run_trace. rewrite Hr. reflexivity.
Qed.

Lemma no_organizations_no_report_witness :
  let w := Examples.world_A in
  pipeline w [] =
    (Normal None,
     prefix_trace w (VStr "tok") (Examples.stringify Examples.orgs_A) ++
     [ConsoleLog NoOrganizationsFound]) /\
  run w =
    (0, prefix_trace w (VStr "tok") (Examples.stringify Examples.orgs_A) ++
        [ConsoleLog NoOrganizationsFound]) /\
  List.existsb is_delivery (run_trace w) = false.
Proof.
  intros w.
  apply (no_organizations_no_report w (VStr "tok")
           (Examples.stringify Examples.orgs_A) Examples.orgs_A).
  - split; [reflexivity|].
    exists (Examples.page 200 Examples.token_body), Examples.token_body.
    repeat split.
  - exists (Examples.page 200 Examples.orgs_A). repeat split.
  - discriminate.
  - discriminate.
  - right. reflexivity.
Defined.

(** ** The loops against the typed reading *)

Lemma append_cons (x : ascii) (a b : string) :
  String x a +:+ b = String x (a +:+ b).
Proof. reflexivity. Qed.

Lemma append_assoc (a b c : string) : (a +:+ b) +:+ c = a +:+ (b +:+ c).
Proof.
  induction a as [|x a IH]; [reflexivity|].
  rewrite !append_cons, IH. reflexivity.
Qed.

(** The template literal of the script writes what the formatter of the
    specification writes. *)
Lemma row_line_csv_line (r : ReportRow) :
  row_line r =
  csv_line (organizationName r) (normalizedSerial r) (expiryDateLiteral r)
           (pretty (daysUntilExpiry r)) (YesNo_text (expiredFlag r)).
Proof.
  unfold row_line, csv_line, quoted. simpl. rewrite !append_assoc. reflexivity.
Qed.

Lemma as_string_field_Some (v : value) (s : string) :
  as_string_field v = Some (Some s) -> v = VStr s.
Proof.
  destruct v; simpl; try (destruct (truthy _); discriminate); try discriminate.
  - destruct b; discriminate.
  - destruct (negb (n =? 0)); discriminate.
  - congruence.
Qed.

Lemma as_string_field_None (v : value) :
  as_string_field v = Some None -> truthy v = false.
Proof.
  destruct v; simpl; try discriminate; try reflexivity.
  - destruct b; [discriminate|reflexivity].
  - destruct (negb (n =? 0)); [discriminate|reflexivity].
Qed.

(** One device: the script pushes the line of the row the specification
    selects, or nothing when it selects none. *)
Lemma device_body_selectRow (w : world) (name : string) (now : Z)
    (v : value) (d : Device) (csvLines : list string) (t : trace) :
  clock_ok now ->
  as_device v = Some d ->
  device_body w (VStr name) (TimeClip now) (add_ms (TimeClip now) ninety_days)
              v csvLines t =
  (Normal (csvLines ++
           match selectRow (Date_parse w) name now 90 d with
           | Some r => [row_line r]
           | None => []
           end), t).
Proof.
  intros Hclock Hd.
  destruct v as [| | | | |?|fields]; try discriminate. simpl in Hd.
  destruct (as_string_field (lookup_field "sn" fields)) as [sn|] eqn:Hsn;
    [|discriminate].
  destruct (as_string_field (lookup_field "expiry_date" fields)) as [ex|] eqn:Hex;
    [|discriminate].
  inversion Hd; subst d; clear Hd. unfold selectRow. simpl.
  destruct sn as [serial|].
  - apply as_string_field_Some in Hsn.
    destruct (String.eqb serial EmptyString) eqn:Hs.
    + (* an empty serial *)
      apply String.eqb_eq in Hs. subst serial.
      rewrite device_body_skipped by (left; rewrite Hsn; reflexivity).
      destruct ex; simpl; rewrite List.app_nil_r; reflexivity.
    + apply String.eqb_neq in Hs.
      destruct ex as [literal|].
      * apply as_string_field_Some in Hex.
        destruct (String.eqb literal EmptyString) eqn:Hl.
        -- apply String.eqb_eq in Hl. subst literal.
           rewrite device_body_skipped by (right; left; rewrite Hex; reflexivity).
           simpl. rewrite List.app_nil_r; reflexivity.
        -- apply String.eqb_neq in Hl. simpl.
           destruct (Date_parse w literal) as [expiryDate|] eqn:Hparse.
           ++ rewrite (device_body_dated w (VStr name) now fields csvLines t
                         serial literal expiryDate Hclock Hsn Hs Hex Hl Hparse).
              change (90 * msInDay) with ninety_days.
              destruct (expiryDate <=? now + ninety_days).
              ** rewrite row_line_csv_line. unfold device_line. simpl.
                 destruct (truthy (lookup_field "expired" fields)); reflexivity.
              ** rewrite List.app_nil_r. reflexivity.
           ++ rewrite device_body_skipped
                by (right; right; exists serial, literal; auto).
              rewrite List.app_nil_r. reflexivity.
      * apply as_string_field_None in Hex.
        rewrite device_body_skipped by (right; left; exact Hex).
        simpl. rewrite List.app_nil_r. reflexivity.
  - apply as_string_field_None in Hsn.
    rewrite device_body_skipped by (left; exact Hsn).
    rewrite List.app_nil_r. reflexivity.
Qed.

(** The inner loop: the lines of the selected rows, in the order of the
    devices. *)
Lemma for_of_devices (w : world) (name : string) (now : Z)
    (vs : list value) (devices : list Device) :
  clock_ok now ->
  Forall2 (fun v d => as_device v = Some d) vs devices ->
  forall (csvLines : list string) (t : trace),
    for_of (device_body w (VStr name) (TimeClip now)
                        (add_ms (TimeClip now) ninety_days)) vs csvLines t =
    (Normal (csvLines ++
             map row_line (selectExpiring (Date_parse w) devices name now 90)), t).
Proof.
  intros Hclock HF. induction HF as [|v d vs devices Hd HF IH]; intros csvLines t.
  - simpl. unfold ret. rewrite List.app_nil_r. reflexivity.
  - simpl for_of. unfold bind.
    rewrite (device_body_selectRow w name now v d csvLines t Hclock Hd).
    rewrite IH. unfold selectExpiring. simpl omap.
    destruct (selectRow (Date_parse w) name now 90 d) as [r|]; simpl.
    + rewrite <- List.app_assoc. reflexivity.
    + rewrite List.app_nil_r. reflexivity.
Qed.

Lemma requests_of_app (t1 t2 : trace) :
  requests_of (t1 ++ t2) = requests_of t1 ++ requests_of t2.
Proof. apply omap_app. Qed.

Lemma requests_of_log (t : trace) (m : console_msg) :
  requests_of (t ++ [ConsoleLog m]) = requests_of t.
Proof. rewrite requests_of_app. simpl. apply List.app_nil_r. Qed.

Lemma as_organization_inv (v : value) (o : Organization) :
  as_organization v = Some o ->
  exists fields,
    v = VObj fields /\
    lookup_field "id" fields = orgId o /\
    lookup_field "name" fields = VStr (orgName o).
Proof.
  destruct v as [| | | | | |fields]; try discriminate. simpl.
  destruct (lookup_field "name" fields) eqn:Hn; try discriminate.
  destruct (identifier (lookup_field "id" fields)); try discriminate.
  intros H. inversion H; subst. exists fields. auto.
Qed.

Lemma as_organization_identifier (v : value) (o : Organization) :
  as_organization v = Some o -> identifier (orgId o) = true.
Proof.
  destruct v as [| | | | | |fields]; try discriminate. simpl.
  destruct (lookup_field "name" fields) eqn:Hn; try discriminate.
  destruct (identifier (lookup_field "id" fields)) eqn:Hid; try discriminate.
  intros H. inversion H; subst. exact Hid.
Qed.

(** One organization whose device request is refused: the error is logged,
    the lines are as they were. *)
Lemma org_body_failed (w : world) (token : value) (now cutoffDate : number)
    (v : value) (o : Organization) (r : response) (csvLines : list string) (t : trace) :
  as_organization v = Some o ->
  answers w token t o (DeviceFetchFailed r) ->
  org_body w token now cutoffDate v csvLines t =
  (Normal csvLines, t ++ org_events token o (DeviceFetchFailed r)).
Proof.
  intros (fields & -> & Hid & Hname)%as_organization_inv [Hnet Hok].
  unfold org_body, bind, get_prop, ret. rewrite Hid, Hname.
  unfold console_log, emit, try_catch, fetch.
  rewrite requests_of_log, Hnet, Hok. simpl.
  unfold throw, console_error, emit, device_error.
  rewrite <- !List.app_assoc. reflexivity.
Qed.

(** One organization whose devices are listed. *)
Lemma org_body_listed (w : world) (token : value) (now : Z)
    (v : value) (o : Organization) (r : response) (devices : list Device)
    (csvLines : list string) (t : trace) :
  clock_ok now ->
  as_organization v = Some o ->
  answers w token t o (DevicesListed r devices) ->
  org_body w token (TimeClip now) (add_ms (TimeClip now) ninety_days) v csvLines t =
  (Normal (csvLines ++
           map row_line (selectExpiring (Date_parse w) devices (orgName o) now 90)),
   t ++ org_events token o (DevicesListed r devices)).
Proof.
  intros Hclock (fields & -> & Hid & Hname)%as_organization_inv
         (Hnet & Hok & body & vs & Hparse & Hdata & HF).
  unfold org_body, bind, get_prop, ret. rewrite Hid, Hname.
  unfold console_log, emit, try_catch, fetch.
  rewrite requests_of_log, Hnet, Hok.
  unfold JSON_parse_M. rewrite Hparse. unfold ret. simpl.
  rewrite Hdata. unfold or_else. simpl.
  destruct HF as [|v d vs devices Hd HF].
  - simpl. rewrite List.app_nil_r, <- !List.app_assoc. reflexivity.
  - cbn -[for_of].
    rewrite (for_of_devices w (orgName o) now (v :: vs) (d :: devices) Hclock
               (List.Forall2_cons _ _ Hd HF)).
    rewrite <- !List.app_assoc. reflexivity.
Qed.

Lemma org_body_served (w : world) (token : value) (now : Z)
    (v : value) (o : Organization) (out : org_outcome)
    (csvLines : list string) (t : trace) :
  clock_ok now ->
  as_organization v = Some o ->
  answers w token t o out ->
  org_body w token (TimeClip now) (add_ms (TimeClip now) ninety_days) v csvLines t =
  (Normal (csvLines ++ map row_line (org_rows (Date_parse w) now o out)),
   t ++ org_events token o out).
Proof.
  intros Hclock Ho Hans. destruct out as [r devices|r].
  - apply org_body_listed; assumption.
  - rewrite (org_body_failed w token _ _ v o r csvLines t Ho Hans).
    simpl. rewrite List.app_nil_r. reflexivity.
Qed.

(** The outer loop: the lines of the rows of the inventory, organization by
    organization, in the order of the organization list. *)
Lemma for_of_orgs (w : world) (token : value) (now : Z)
    (inv : list (Organization * org_outcome)) :
  clock_ok now ->
  forall (vs : list value) (csvLines : list string) (t : trace),
    Forall2 (fun v o => as_organization v = Some o) vs (map fst inv) ->
    serves w token t inv ->
    for_of (org_body w token (TimeClip now) (add_ms (TimeClip now) ninety_days))
           vs csvLines t =
    (Normal (csvLines ++ map row_line (report_rows (Date_parse w) now inv)),
     t ++ inventory_events token inv).
Proof.
  intros Hclock. induction inv as [|[o out] inv IH]; intros vs csvLines t HF Hs.
  - inversion HF; subst. simpl. unfold ret. rewrite !List.app_nil_r. reflexivity.
  - inversion HF as [|v o' vs' os Ho HF']; subst. destruct Hs as [Hans Hs].
    simpl for_of. unfold bind.
    rewrite (org_body_served w token now v o out csvLines t Hclock Ho Hans).
    rewrite (IH vs' _ _ HF' Hs).
    unfold report_rows, inventory_events. simpl flat_map.
    rewrite List.map_app, <- !List.app_assoc. reflexivity.
Qed.

(** The whole pipeline of a run that is served an inventory: the report
    is the CSV of the rows of the inventory. *)
Lemma pipeline_served (w : world) (token : value) (raw : string)
    (inv : list (Organization * org_outcome)) :
  inventory_served w token raw inv ->
  pipeline w [] =
  (Normal (Some (formatCSV (report_rows (Date_parse w) (clock w) inv))),
   served_trace w token raw inv).
Proof.
  intros (Htok & Htext & Hclock & fields & vs & Horgs & Hdata & Hne & HF & Hs).
  rewrite (pipeline_first_steps w token raw (VObj fields) Htok Horgs).
  unfold report_steps. unfold bind at 1. unfold get_prop, ret. rewrite Hdata.
  simpl isArray. simpl items.
  assert (Hlen : List.length vs = List.length inv).
  { apply Forall2_length in HF. rewrite List.length_map in HF. exact HF. }
  destruct vs as [|v vs]; [congruence|].
  change (negb (isArray (VArr (v :: vs))) ||
          (List.length (items (VArr (v :: vs))) =? 0)%nat) with false.
  change (items (VArr (v :: vs))) with (v :: vs).
  cbv beta iota. unfold console_log at 1. unfold emit at 1. cbv beta iota.
  unfold bind at 1. unfold bind at 1.
  rewrite (for_of_orgs w token (clock w) inv Hclock (v :: vs) [csv_header] _ HF Hs).
  unfold served_trace. rewrite <- Hlen.
  set (rows := report_rows (Date_parse w) (clock w) inv).
  destruct rows as [|row rows'] eqn:Hrows.
  - simpl. unfold bind, console_log, emit, ret. reflexivity.
  - unfold bind, console_log, emit, ret.
    change ([csv_header] ++ map row_line (row :: rows'))
      with (formatCSV_lines (row :: rows')).
    change (List.length (formatCSV_lines (row :: rows')) =? 1)%nat with false.
    cbv beta iota. fold (formatCSV (row :: rows')). unfold report_log.
    rewrite <- !List.app_assoc. reflexivity.
Qed.

Lemma run_served (w : world) (token : value) (raw : string)
    (inv : list (Organization * org_outcome)) :
  inventory_served w token raw inv ->
  run w =
  (0, served_trace w token raw inv ++
      email_events w (formatCSV (report_rows (Date_parse w) (clock w) inv))).
Proof.
  intros H. rewrite run_pipeline, (pipeline_served w token raw inv H). reflexivity.
Qed.

(** ** Example inventories *)

(** The inventories of the example worlds. *)
Lemma world_B_served :
  inventory_served Examples.world_B (VStr "tok")
    (Examples.stringify Examples.orgs_B)
    [({| orgId := VNum 1; orgName := "Acme" |},
      DevicesListed (Examples.page 200 Examples.devices_B)
        [{| serialNumber := Some "AB-12 34";
            warrantyExpiryDate := Some "2026-02-15";
            isExpired := false |}])].
Proof.
  split; [|split; [reflexivity|split]].
  - split; [reflexivity|].
    exists (Examples.page 200 Examples.token_body), Examples.token_body.
    repeat split.
  - split; vm_compute; discriminate.
  - exists [("data", VArr [Examples.org 1 "Acme"])], [Examples.org 1 "Acme"].
    split; [exists (Examples.page 200 Examples.orgs_B); repeat split|].
    split; [reflexivity|]. split; [discriminate|].
    split; [repeat constructor|].
    simpl. split; [|exact I].
    split; [reflexivity|]. split; [reflexivity|].
    eexists _, _. split; [reflexivity|]. split; [reflexivity|].
    repeat constructor.
Defined.

Lemma world_D_served :
  inventory_served Examples.world_D (VStr "tok")
    (Examples.stringify Examples.orgs_D)
    ([] ++
     ({| orgId := VNum 1; orgName := "Acme" |}, DeviceFetchFailed Examples.failure_D) ::
     [({| orgId := VNum 2; orgName := "Bolt" |},
       DevicesListed (Examples.page 200 Examples.devices_D)
         [{| serialNumber := Some "1111-2222-3333";
             warrantyExpiryDate := Some "2025-12-22";
             isExpired := true |}])]).
Proof.
  split; [|split; [reflexivity|split]].
  - split; [reflexivity|].
    exists (Examples.page 200 Examples.token_body), Examples.token_body.
    repeat split.
  - split; vm_compute; discriminate.
  - exists [("data", VArr [Examples.org 1 "Acme"; Examples.org 2 "Bolt"])],
           [Examples.org 1 "Acme"; Examples.org 2 "Bolt"].
    split; [exists (Examples.page 200 Examples.orgs_D); repeat split|].
    split; [reflexivity|]. split; [discriminate|].
    split; [repeat constructor|].
    simpl. split; [split; reflexivity|]. split; [|exact I].
    split; [reflexivity|]. split; [reflexivity|].
    eexists _, _. split; [reflexivity|]. split; [reflexivity|].
    repeat constructor.
Defined.

(** ** Delivery failures *)

Lemma email_events_send_failed (w : world) (csvContent : string) (err : exn) :
  smtp_complete w = true ->
  smtp w (transporter_of_env w) (mailOptions_of_env w csvContent) = SendFailed err ->
  email_events w csvContent =
  [SendMail (transporter_of_env w) (mailOptions_of_env w csvContent);
   ConsoleError (ErrorSendingEmail err)].
Proof. intros H1 H2. unfold email_events. rewrite H1, H2. reflexivity. Qed.

(** C9.  [sendEmailWithCSV] always returns: it neither throws nor exits.
    When one of the SMTP settings is missing it logs that and sends
    nothing; when the submission is rejected it logs the error.  A run that
    has computed its report therefore ends with exit code 0 whatever the
    delivery does, the failure being the last thing in its log. *)
Theorem delivery_failure_is_not_fatal :
  forall (w : world) (csvContent : string) (t : trace),
    sendEmailWithCSV w csvContent t = (Normal tt, t ++ email_events w csvContent) /\
    (smtp_complete w = false ->
     email_events w csvContent = [ConsoleError MissingSmtpSettings]) /\
    (forall err : exn,
        smtp_complete w = true ->
        smtp w (transporter_of_env w) (mailOptions_of_env w csvContent) = SendFailed err ->
        email_events w csvContent =
        [SendMail (transporter_of_env w) (mailOptions_of_env w csvContent);
         ConsoleError (ErrorSendingEmail err)]) /\
    (pipeline w [] = (Normal (Some csvContent), t) ->
     run w = (0, t ++ email_events w csvContent) /\ exit_code w = 0).
Proof.
  intros w csvContent t. split; [|split; [|split]].
  - apply sendEmailWithCSV_events.
  - apply email_events_incomplete.
  - intros err. apply email_events_send_failed.
  - intros Hp.
    assert (Hrun : run w = (0, t ++ email_events w csvContent)).
    { rewrite run_pipeline, Hp. reflexivity. }
    split; [exact Hrun|]. unfold exit_code. rewrite Hrun. reflexivity.
Qed.

Lemma world_F_served :
  inventory_served Examples.world_F (VStr "tok")
    (Examples.stringify Examples.orgs_B)
    [({| orgId := VNum 1; orgName := "Acme" |},
      DevicesListed (Examples.page 200 Examples.devices_B)
        [{| serialNumber := Some "AB-12 34";
            warrantyExpiryDate := Some "2026-02-15";
            isExpired := false |}])].
Proof.
  split; [|split; [reflexivity|split]].
  - split; [reflexivity|].
    exists (Examples.page 200 Examples.token_body), Examples.token_body.
    repeat split.
  - split; vm_compute; discriminate.
  - exists [("data", VArr [Examples.org 1 "Acme"])], [Examples.org 1 "Acme"].
    split; [exists (Examples.page 200 Examples.orgs_B); repeat split|].
    split; [reflexivity|]. split; [discriminate|].
    split; [repeat constructor|].
    simpl. split; [|exact I].
    split; [reflexivity|]. split; [reflexivity|].
    eexists _, _. split; [reflexivity|]. split; [reflexivity|].
    repeat constructor.
Defined.

Lemma delivery_failure_is_not_fatal_witness :
  let w := Examples.world_F in
  let csvContent :=
    csv_header +:+ LF +:+ csv_line "Acme" "AB1234" "2026-02-15" "45" "NO" in
  exit_code w = 0 /\
  List.last (run_trace w) (ConsoleLog NoExpiringDevices) =
    ConsoleError (ErrorSendingEmail (Error "connect ECONNREFUSED")) /\
  sendEmailWithCSV Examples.world_no_smtp_host csvContent [] =
    (Normal tt, [ConsoleError MissingSmtpSettings]).
Proof.
  intros w csvContent.
  destruct (delivery_failure_is_not_fatal w csvContent
              (served_trace w (VStr "tok") (Examples.stringify Examples.orgs_B)
                 [({| orgId := VNum 1; orgName := "Acme" |},
                   DevicesListed (Examples.page 200 Examples.devices_B)
                     [{| serialNumber := Some "AB-12 34";
                         warrantyExpiryDate := Some "2026-02-15";
                         isExpired := false |}])]))
    as (_ & _ & Hfail & Hrun).
  destruct (Hrun (pipeline_served _ _ _ _ world_F_served)) as [Hr Hexit].
  split; [exact Hexit|]. split.
  - unfold run_trace. rewrite Hr. simpl snd.
    rewrite (Hfail (Error "connect ECONNREFUSED") eq_refl eq_refl).
    reflexivity.
  - destruct (delivery_failure_is_not_fatal Examples.world_no_smtp_host csvContent [])
      as (Hsend & Hmissing & _).
    rewrite Hsend, (Hmissing eq_refl). reflexivity.
Defined.

(** ** The scenarios of the specification, run *)

(** Scenario B: a warranty ending in 45 days, serial AB-12 34. *)
Example scenario_B :
  fst (pipeline Examples.world_B []) =
    Normal (Some (csv_header +:+ LF +:+
                  csv_line "Acme" "AB1234" "2026-02-15" "45" "NO")) /\
  exit_code Examples.world_B = 0.
Proof. split; reflexivity. Qed.

(** Scenario C: a warranty ending in 120 days; the header alone is sent. *)
Example scenario_C :
  fst (pipeline Examples.world_C []) = Normal (Some csv_header) /\
  exit_code Examples.world_C = 0 /\
  List.existsb is_delivery (run_trace Examples.world_C) = true.
Proof. repeat split; reflexivity. Qed.

(** The token endpoint answers 200 with the text null: the property read
    throws, and the run ends like any other failed token exchange. *)
Example null_token_body :
  run Examples.world_null_token =
    (1, [Fetch (the_token_request Examples.world_null_token);
         ConsoleError
           (ErrorRetrievingToken
              (TypeError "Cannot read properties of null (reading 'access_token')"))]).
Proof. reflexivity. Qed.

(** * The report of a run

    The theorems of this part are about whole runs: what [run] hands to
    [sendEmailWithCSV] when the API serves an inventory. *)

(** ** A run that is served an inventory *)

Lemma run_served_delivery (w : world) (token : value) (raw : string)
    (inv : list (Organization * org_outcome)) :
  inventory_served w token raw inv ->
  run w =
  (0, snd (sendEmailWithCSV w (formatCSV (report_rows (Date_parse w) (clock w) inv))
             (served_trace w token raw inv))).
Proof.
  intros H. rewrite (run_served w token raw inv H), sendEmailWithCSV_events.
  reflexivity.
Qed.

Lemma report_rows_by_device (parse : string -> number) (now : Z)
    (inv : list (Organization * org_outcome)) :
  report_rows parse now inv =
  flat_map (fun p =>
              match snd p with
              | DevicesListed _ devices =>
                  omap (selectRow parse (orgName (fst p)) now 90) devices
              | DeviceFetchFailed _ => []
              end) inv.
Proof. unfold report_rows. f_equal. Qed.

Lemma report_rows_app (parse : string -> number) (now : Z)
    (inv1 inv2 : list (Organization * org_outcome)) :
  report_rows parse now (inv1 ++ inv2) =
  report_rows parse now inv1 ++ report_rows parse now inv2.
Proof. apply List.flat_map_app. Qed.

Lemma inventory_events_app (token : value)
    (inv1 inv2 : list (Organization * org_outcome)) :
  inventory_events token (inv1 ++ inv2) =
  inventory_events token inv1 ++ inventory_events token inv2.
Proof. apply List.flat_map_app. Qed.

Lemma serves_app (w : world) (token : value)
    (inv1 inv2 : list (Organization * org_outcome)) :
  forall t : trace,
    serves w token t (inv1 ++ inv2) ->
    serves w token (t ++ inventory_events token inv1) inv2.
Proof.
  induction inv1 as [|[o out] inv1 IH]; intros t Hs.
  - simpl. rewrite List.app_nil_r. exact Hs.
  - destruct Hs as [_ Hs]. apply IH in Hs.
    change (inventory_events token ((o, out) :: inv1))
      with (org_events token o out ++ inventory_events token inv1).
    rewrite List.app_assoc. exact Hs.
Qed.

Lemma events_in_run (w : world) (token : value) (raw : string)
    (inv : list (Organization * org_outcome)) (e : event) :
  inventory_served w token raw inv ->
  In e (inventory_events token inv) -> In e (run_trace w).
Proof.
  intros Hserved He. unfold run_trace.
  rewrite (run_served w token raw inv Hserved). cbn [snd].
  unfold served_trace. rewrite !List.in_app_iff. left. right. right. left. exact He.
Qed.

Lemma org_request_in_events (token : value) (o : Organization) (out : org_outcome)
    (inv : list (Organization * org_outcome)) :
  In (o, out) inv ->
  In (Fetch (dev_request token (orgId o))) (inventory_events token inv).
Proof.
  intros Hin. unfold inventory_events. apply List.in_flat_map.
  exists (o, out). split; [exact Hin|].
  simpl. right. left. reflexivity.
Qed.

Lemma omap_cons_eq {A B} (f : A -> option B) (x : A) (l : list A) :
  omap f (x :: l) = match f x with Some y => y :: omap f l | None => omap f l end.
Proof. reflexivity. Qed.

(** The rows of an inventory, around one of its devices: those before it,
    its own row if it has one, those after it. *)
Lemma report_rows_at_device (parse : string -> number) (now : Z)
    (inv1 inv2 : list (Organization * org_outcome)) (o : Organization)
    (r : response) (devices1 devices2 : list Device) (d : Device) :
  report_rows parse now
    (inv1 ++ (o, DevicesListed r (devices1 ++ d :: devices2)) :: inv2) =
  (report_rows parse now inv1 ++ selectExpiring parse devices1 (orgName o) now 90) ++
  option_list (selectRow parse (orgName o) now 90 d) ++
  (selectExpiring parse devices2 (orgName o) now 90 ++ report_rows parse now inv2).
Proof.
  rewrite report_rows_app.
  change (report_rows parse now
            ((o, DevicesListed r (devices1 ++ d :: devices2)) :: inv2))
    with (selectExpiring parse (devices1 ++ d :: devices2) (orgName o) now 90 ++
          report_rows parse now inv2).
  unfold selectExpiring. rewrite omap_app, omap_cons_eq.
  destruct (selectRow parse (orgName o) now 90 d) as [row|]; simpl;
    rewrite <- !List.app_assoc; reflexivity.
Qed.

(** ** The row of a device *)

Lemma selectRow_dated (parse : string -> number) (name : string) (now : Z)
    (d : Device) (serial literal : string) (expiryDate : Z) :
  serialNumber d = Some serial -> serial <> EmptyString ->
  warrantyExpiryDate d = Some literal -> literal <> EmptyString ->
  parse literal = Some expiryDate ->
  selectRow parse name now 90 d =
  if expiryDate <=? now + 90 * msInDay
  then Some {| organizationName := name;
               normalizedSerial := strip_non_alnum serial;
               expiryDateLiteral := literal;
               daysUntilExpiry := days_between expiryDate now;
               expiredFlag := if isExpired d then YES else NO |}
  else None.
Proof.
  intros Hsn Hs He Hl Hparse. unfold selectRow. rewrite Hsn, He.
  apply String.eqb_neq in Hs, Hl. rewrite Hs, Hl. simpl. rewrite Hparse.
  reflexivity.
Qed.

Lemma selectRow_lacking (parse : string -> number) (name : string) (now : Z)
    (d : Device) :
  serialNumber d = None \/ serialNumber d = Some EmptyString \/
  warrantyExpiryDate d = None \/ warrantyExpiryDate d = Some EmptyString \/
  (exists literal, warrantyExpiryDate d = Some literal /\ parse literal = None) ->
  selectRow parse name now 90 d = None.
Proof.
  unfold selectRow.
  intros [H|[H|[H|[H|(literal & H & Hp)]]]]; rewrite H.
  - reflexivity.
  - destruct (warrantyExpiryDate d); reflexivity.
  - destruct (serialNumber d); reflexivity.
  - destruct (serialNumber d) as [serial|]; [|reflexivity].
    rewrite orb_true_r. reflexivity.
  - destruct (serialNumber d) as [serial|]; [|reflexivity].
    destruct (String.eqb serial EmptyString || String.eqb literal EmptyString);
      [reflexivity|].
    rewrite Hp. reflexivity.
Qed.

(** The text of a line, written out. *)
Lemma row_line_text (r : ReportRow) :
  row_line r =
  dq +:+ organizationName r +:+ dq +:+ "," +:+
  dq +:+ normalizedSerial r +:+ dq +:+ "," +:+
  dq +:+ expiryDateLiteral r +:+ dq +:+ "," +:+
  dq +:+ pretty (daysUntilExpiry r) +:+ dq +:+ "," +:+
  dq +:+ YesNo_text (expiredFlag r) +:+ dq.
Proof. apply row_line_csv_line. Qed.

(** The report with the row of one device singled out. *)
Lemma formatCSV_at_device (parse : string -> number) (now : Z)
    (inv1 inv2 : list (Organization * org_outcome)) (o : Organization)
    (r : response) (devices1 devices2 : list Device) (d : Device) :
  formatCSV (report_rows parse now
               (inv1 ++ (o, DevicesListed r (devices1 ++ d :: devices2)) :: inv2)) =
  join LF (csv_header ::
           map row_line (report_rows parse now inv1 ++
                         selectExpiring parse devices1 (orgName o) now 90) ++
           map row_line (option_list (selectRow parse (orgName o) now 90 d)) ++
           map row_line (selectExpiring parse devices2 (orgName o) now 90 ++
                         report_rows parse now inv2)).
Proof.
  rewrite report_rows_at_device. unfold formatCSV, formatCSV_lines.
  rewrite !List.map_app. reflexivity.
Qed.

(** C1.  In a run that is served an inventory, the report handed to the
    delivery is the header followed by the lines of the rows of the devices,
    organization by organization and device by device.  Take any device of
    the inventory.  When it has a non-empty serial and a date that parses,
    the report holds its line, at its place between the lines of the devices
    before it and of those after it, exactly when its date is at or before
    the clock plus 90 days; otherwise the report goes from the lines before
    it straight to the lines after it.  Its [expired] mark plays no part in
    that, it only fills the last field of the line.  A device without
    serial, without date, or with a date that does not parse has no line
    either, and the log of an organization is the same whatever its devices
    are: nothing is logged for a device that is left out. *)
Theorem device_reported_iff_within_horizon :
  forall (w : world) (token : value) (raw : string)
         (inv : list (Organization * org_outcome)),
    inventory_served w token raw inv ->
    let now := clock w in
    let parse := Date_parse w in
    let rows := report_rows parse now inv in
    run w =
      (0, snd (sendEmailWithCSV w (formatCSV rows) (served_trace w token raw inv))) /\
    formatCSV rows = join LF (csv_header :: map row_line rows) /\
    rows =
      flat_map (fun p =>
                  match snd p with
                  | DevicesListed _ devices =>
                      omap (selectRow parse (orgName (fst p)) now 90) devices
                  | DeviceFetchFailed _ => []
                  end) inv /\
    (forall (inv1 inv2 : list (Organization * org_outcome)) (o : Organization)
            (r : response) (devices1 devices2 : list Device) (d : Device),
        inv = inv1 ++ (o, DevicesListed r (devices1 ++ d :: devices2)) :: inv2 ->
        let before :=
          map row_line (report_rows parse now inv1 ++
                        selectExpiring parse devices1 (orgName o) now 90) in
        let after :=
          map row_line (selectExpiring parse devices2 (orgName o) now 90 ++
                        report_rows parse now inv2) in
        (forall (serial literal : string) (expiryDate : Z),
            serialNumber d = Some serial -> serial <> EmptyString ->
            warrantyExpiryDate d = Some literal -> literal <> EmptyString ->
            parse literal = Some expiryDate ->
            let line :=
              dq +:+ orgName o +:+ dq +:+ "," +:+
              dq +:+ strip_non_alnum serial +:+ dq +:+ "," +:+
              dq +:+ literal +:+ dq +:+ "," +:+
              dq +:+ pretty (days_between expiryDate now) +:+ dq +:+ "," +:+
              dq +:+ (if isExpired d then "YES" else "NO") +:+ dq in
            (expiryDate <= now + 90 * msInDay ->
             formatCSV rows = join LF (csv_header :: before ++ line :: after)) /\
            (now + 90 * msInDay < expiryDate ->
             formatCSV rows = join LF (csv_header :: before ++ after))) /\
        (serialNumber d = None \/ serialNumber d = Some EmptyString \/
         warrantyExpiryDate d = None \/ warrantyExpiryDate d = Some EmptyString \/
         (exists literal, warrantyExpiryDate d = Some literal /\ parse literal = None) ->
         formatCSV rows = join LF (csv_header :: before ++ after))) /\
    (forall (name : string) (d : Device) (serial literal : string) (expiryDate : Z),
        serialNumber d = Some serial -> serial <> EmptyString ->
        warrantyExpiryDate d = Some literal -> literal <> EmptyString ->
        parse literal = Some expiryDate ->
        (expiryDate <= now + 90 * msInDay ->
         selectRow parse name now 90 d =
         Some {| organizationName := name;
                 normalizedSerial := strip_non_alnum serial;
                 expiryDateLiteral := literal;
                 daysUntilExpiry := days_between expiryDate now;
                 expiredFlag := if isExpired d then YES else NO |}) /\
        (now + 90 * msInDay < expiryDate ->
         selectRow parse name now 90 d = None)) /\
    (forall (name : string) (d : Device),
        serialNumber d = None \/ serialNumber d = Some EmptyString \/
        warrantyExpiryDate d = None \/ warrantyExpiryDate d = Some EmptyString \/
        (exists literal, warrantyExpiryDate d = Some literal /\ parse literal = None) ->
        selectRow parse name now 90 d = None) /\
    (forall r : ReportRow,
        row_line r =
        dq +:+ organizationName r +:+ dq +:+ "," +:+
        dq +:+ normalizedSerial r +:+ dq +:+ "," +:+
        dq +:+ expiryDateLiteral r +:+ dq +:+ "," +:+
        dq +:+ pretty (daysUntilExpiry r) +:+ dq +:+ "," +:+
        dq +:+ YesNo_text (expiredFlag r) +:+ dq) /\
    (forall (o : Organization) (r : response) (d : Device) (devices : list Device),
        org_events token o (DevicesListed r (d :: devices)) =
        [ConsoleLog (FetchingDevices (orgId o) (VStr (orgName o)));
         Fetch (dev_request token (orgId o));
         ConsoleLog (RawDeviceResponse (orgId o) (text r))]).
Proof.
  intros w token raw inv Hserved now parse rows.
  split; [exact (run_served_delivery w token raw inv Hserved)|].
  split; [reflexivity|].
  split; [apply report_rows_by_device|].
  split; [|split; [|split; [|split]]].
  - intros inv1 inv2 o r devices1 devices2 d Hinv before after.
    unfold rows. rewrite Hinv, formatCSV_at_device. fold before after. split.
    + intros serial literal expiryDate Hsn Hs He Hl Hparse. cbv zeta.
      rewrite (selectRow_dated parse (orgName o) now d serial literal expiryDate
                 Hsn Hs He Hl Hparse).
      split; intros H.
      * apply Z.leb_le in H. rewrite H.
        match goal with
        | |- context [option_list (Some ?x)] => change (option_list (Some x)) with [x]
        end.
        cbn [map app]. rewrite row_line_text.
        cbn [organizationName normalizedSerial expiryDateLiteral
             daysUntilExpiry expiredFlag].
        destruct (isExpired d); reflexivity.
      * apply Z.leb_gt in H. rewrite H. reflexivity.
    + intros Hlack. rewrite (selectRow_lacking parse (orgName o) now d Hlack).
      reflexivity.
  - intros name d serial literal expiryDate Hsn Hs He Hl Hparse.
    rewrite (selectRow_dated parse name now d serial literal expiryDate
               Hsn Hs He Hl Hparse).
    split; intros H.
    + apply Z.leb_le in H. rewrite H. reflexivity.
    + apply Z.leb_gt in H. rewrite H. reflexivity.
  - intros name d. apply selectRow_lacking.
  - apply row_line_text.
  - reflexivity.
Qed.

(** ** The text of the report *)

Lemma count_char_append (c : ascii) (a b : string) :
  count_char c (a +:+ b) = (count_char c a + count_char c b)%nat.
Proof.
  induction a as [|x a IH]; [reflexivity|].
  rewrite append_cons. simpl. rewrite IH. lia.
Qed.

(** Joining lines puts one line feed between any two of them and keeps
    those the lines hold. *)
Lemma count_LF_join (lines : list string) :
  count_char "010" (join LF lines) =
  (List.length lines - 1 + list_sum (map (count_char "010") lines))%nat.
Proof.
  induction lines as [|l lines IH]; [reflexivity|].
  destruct lines as [|l' lines].
  - simpl. lia.
  - change (join LF (l :: l' :: lines)) with (l +:+ LF +:+ join LF (l' :: lines)).
    rewrite !count_char_append, IH. simpl. lia.
Qed.

Lemma strip_non_alnum_no_LF (s : string) :
  count_char "010" (strip_non_alnum s) = 0%nat.
Proof.
  induction s as [|c s IH]; [reflexivity|]. cbn [strip_non_alnum].
  destruct (is_alnum c) eqn:Hc; [|exact IH].
  cbn [count_char]. rewrite IH.
  destruct (Ascii.eqb "010" c) eqn:E; [|reflexivity].
  apply Ascii.eqb_eq in E. subst c. discriminate.
Qed.

Lemma pretty_N_go_no_LF (x : N) :
  forall s : string,
    count_char "010" (pretty_N_go x s) = count_char "010" s.
Proof.
  induction (N.lt_wf_0 x) as [x _ IH]; intros s.
  destruct (N.eq_dec x 0) as [->|Hx]; [reflexivity|].
  rewrite pretty_N_go_step by lia.
  rewrite IH by (apply N.div_lt; lia).
  simpl. unfold pretty_N_char.
  destruct (x `mod` 10)%N as [|p]; [reflexivity|].
  repeat (destruct p as [p|p|]; try reflexivity).
Qed.

Lemma pretty_Z_no_LF (z : Z) : count_char "010" (pretty z) = 0%nat.
Proof.
  assert (HN : forall p : positive, count_char "010" (pretty (N.pos p)) = 0%nat).
  { intros p. unfold pretty, pretty_N.
    destruct (decide (N.pos p = 0%N)); [reflexivity|].
    apply pretty_N_go_no_LF. }
  destruct z as [|p|p].
  - reflexivity.
  - apply HN.
  - change (pretty (Z.neg p)) with ("-" +:+ pretty (N.pos p)).
    rewrite count_char_append, HN. reflexivity.
Qed.

(** The line feeds of a line are those of its name, serial and date. *)
Lemma row_line_LF (r : ReportRow) :
  count_char "010" (row_line r) =
  (count_char "010" (organizationName r) + count_char "010" (normalizedSerial r) +
   count_char "010" (expiryDateLiteral r))%nat.
Proof.
  rewrite row_line_text, !count_char_append, pretty_Z_no_LF.
  destruct (expiredFlag r); simpl; lia.
Qed.

Lemma list_sum_map_ext {A} (f g : A -> nat) (l : list A) :
  Forall (fun x => f x = g x) l -> list_sum (map f l) = list_sum (map g l).
Proof.
  induction 1 as [|x l Hx HF IH]; [reflexivity|].
  simpl. rewrite Hx, IH. reflexivity.
Qed.

(** The serial of a selected row is a normalized one. *)
Lemma selectRow_serial (parse : string -> number) (name : string) (now : Z)
    (d : Device) (r : ReportRow) :
  selectRow parse name now 90 d = Some r ->
  count_char "010" (normalizedSerial r) = 0%nat.
Proof.
  unfold selectRow.
  destruct (serialNumber d) as [serial|]; [|discriminate].
  destruct (warrantyExpiryDate d) as [literal|]; [|discriminate].
  destruct (String.eqb serial EmptyString || String.eqb literal EmptyString);
    [discriminate|].
  destruct (parse literal) as [expiryDate|]; [|discriminate].
  destruct (expiryDate <=? now + 90 * msInDay); [|discriminate].
  intros H. inversion H; subst r. apply strip_non_alnum_no_LF.
Qed.

Lemma report_rows_serial (parse : string -> number) (now : Z)
    (inv : list (Organization * org_outcome)) :
  Forall (fun r => count_char "010" (normalizedSerial r) = 0%nat)
         (report_rows parse now inv).
Proof.
  apply List.Forall_forall. intros r Hin.
  unfold report_rows in Hin. apply List.in_flat_map in Hin.
  destruct Hin as ([o out] & _ & Hin). destruct out as [resp devices|resp]; [|destruct Hin].
  unfold org_rows, selectExpiring in Hin. cbn [fst snd] in Hin.
  apply list_elem_of_In, list_elem_of_omap in Hin.
  destruct Hin as (d & _ & Hd). exact (selectRow_serial _ _ _ _ _ Hd).
Qed.

Lemma formatCSV_LF (rows : list ReportRow) :
  Forall (fun r => count_char "010" (normalizedSerial r) = 0%nat) rows ->
  count_char "010" (formatCSV rows) =
  (List.length rows +
   list_sum (map (fun r => count_char "010" (organizationName r) +
                           count_char "010" (expiryDateLiteral r)) rows))%nat.
Proof.
  intros Hserial.
  assert (Hsum : list_sum (map (count_char "010") (map row_line rows)) =
                 list_sum (map (fun r => count_char "010" (organizationName r) +
                                         count_char "010" (expiryDateLiteral r))%nat rows)).
  { rewrite List.map_map. apply list_sum_map_ext.
    eapply List.Forall_impl; [|exact Hserial].
    intros r Hr. cbv beta in *. rewrite row_line_LF, Hr. lia. }
  unfold formatCSV, formatCSV_lines. rewrite count_LF_join.
  change (map (count_char "010") (csv_header :: map row_line rows))
    with (0%nat :: map (count_char "010") (map row_line rows)).
  change (list_sum (0%nat :: map (count_char "010") (map row_line rows)))
    with (list_sum (map (count_char "010") (map row_line rows))).
  rewrite Hsum. cbn [List.length]. rewrite List.length_map. lia.
Qed.

(** C7, the part that fails.  An organization whose name holds a line feed
    has its name copied into the line as it is: the report of this run has
    one row, and its text, the header and one line joined by a line feed,
    holds two line feeds, which makes three lines of text. *)
Lemma line_feed_in_name_counterexample :
  let w := Failures.world_two_line_name in
  let line :=
    dq +:+ "North" +:+ LF +:+ "Wing" +:+ dq +:+ "," +:+ dq +:+ "AB1234" +:+ dq +:+ "," +:+
    dq +:+ "2026-02-15" +:+ dq +:+ "," +:+ dq +:+ "45" +:+ dq +:+ "," +:+
    dq +:+ "NO" +:+ dq in
  exit_code w = 0 /\
  fst (pipeline w []) = Normal (Some (join LF [csv_header; line])) /\
  mails_of (run_trace w) = [mailOptions_of_env w (join LF [csv_header; line])] /\
  List.length [csv_header; line] = 2%nat /\
  count_char "010" (join LF [csv_header; line]) = 2%nat.
Proof. vm_compute. repeat split. Qed.

(** C7, as the script has it.  In a run that is served an inventory, the
    CSV the script hands to the delivery is the formatter's text for the
    rows of the inventory: the rows of the organizations in the order of the
    organization list, each organization's rows in the order of its devices.
    For any [n] rows that text is made of [n + 1] entries joined by line
    feeds, the fixed header first and then the line of each row in order; a
    line is the five fields of its row, each between double quotes, the
    content of a field copied as it is.  The text therefore holds [n] line
    feeds and those of the names and the dates of its rows: it has [n + 1]
    lines exactly when no name and no date of a row holds a line feed. *)
Theorem csv_lines_of_report :
  forall (w : world) (token : value) (raw : string)
         (inv : list (Organization * org_outcome)),
    inventory_served w token raw inv ->
    let rows := report_rows (Date_parse w) (clock w) inv in
    run w =
      (0, snd (sendEmailWithCSV w (formatCSV rows) (served_trace w token raw inv))) /\
    rows =
      flat_map (fun p =>
                  match snd p with
                  | DevicesListed _ devices =>
                      omap (selectRow (Date_parse w) (orgName (fst p)) (clock w) 90) devices
                  | DeviceFetchFailed _ => []
                  end) inv /\
    formatCSV rows = join LF (formatCSV_lines rows) /\
    List.length (formatCSV_lines rows) = S (List.length rows) /\
    List.nth_error (formatCSV_lines rows) 0 =
      Some "org_name,serial_number,warranty_expiry_date,days_until_expiry,is_expired" /\
    (forall i : nat,
        List.nth_error (formatCSV_lines rows) (S i) =
        option_map row_line (List.nth_error rows i)) /\
    (forall r : ReportRow,
        row_line r =
        dq +:+ organizationName r +:+ dq +:+ "," +:+
        dq +:+ normalizedSerial r +:+ dq +:+ "," +:+
        dq +:+ expiryDateLiteral r +:+ dq +:+ "," +:+
        dq +:+ pretty (daysUntilExpiry r) +:+ dq +:+ "," +:+
        dq +:+ YesNo_text (expiredFlag r) +:+ dq) /\
    count_char "010" (formatCSV rows) =
      (List.length rows +
       list_sum (map (fun r => count_char "010" (organizationName r) +
                               count_char "010" (expiryDateLiteral r)) rows))%nat /\
    (count_char "010" (formatCSV rows) = List.length rows <->
     Forall (fun r => count_char "010" (organizationName r) = 0%nat /\
                      count_char "010" (expiryDateLiteral r) = 0%nat) rows).
Proof.
  intros w token raw inv Hserved rows.
  split; [exact (run_served_delivery w token raw inv Hserved)|].
  split; [apply report_rows_by_device|].
  split; [reflexivity|]. split.
  { unfold formatCSV_lines. simpl. rewrite List.length_map. reflexivity. }
  split; [reflexivity|]. split.
  { intros i. unfold formatCSV_lines. simpl. apply List.nth_error_map. }
  split; [apply row_line_text|].
  pose proof (formatCSV_LF rows (report_rows_serial _ _ inv)) as Hcount.
  split; [exact Hcount|].
  rewrite Hcount. clear Hcount Hserved. clearbody rows.
  induction rows as [|r rows IH].
  - simpl. split; [constructor | reflexivity].
  - unfold list_sum in *. cbn [List.length map fold_right]. split.
    + intros H. constructor; [split; lia|]. apply IH. lia.
    + intros H. inversion H as [|? ? [H1 H2] H']; subst.
      apply IH in H'. lia.
Qed.

(** The inventories of two more example worlds. *)
Lemma world_two_line_name_served :
  inventory_served Failures.world_two_line_name (VStr "tok")
    (Examples.stringify Failures.orgs_two_lines)
    [({| orgId := VNum 1; orgName := Failures.two_line_name |},
      DevicesListed (Examples.page 200 Examples.devices_B)
        [{| serialNumber := Some "AB-12 34";
            warrantyExpiryDate := Some "2026-02-15";
            isExpired := false |}])].
Proof.
  split; [|split; [reflexivity|split]].
  - split; [reflexivity|].
    exists (Examples.page 200 Examples.token_body), Examples.token_body.
    repeat split.
  - split; vm_compute; discriminate.
  - exists [("data", VArr [Examples.org 1 Failures.two_line_name])],
           [Examples.org 1 Failures.two_line_name].
    split; [exists (Examples.page 200 Failures.orgs_two_lines); repeat split|].
    split; [reflexivity|]. split; [discriminate|].
    split; [repeat constructor|].
    simpl. split; [|exact I].
    split; [reflexivity|]. split; [reflexivity|].
    eexists _, _. split; [reflexivity|]. split; [reflexivity|].
    repeat constructor.
Defined.

Lemma world_punctuation_served :
  inventory_served Failures.world_punctuation (VStr "tok")
    (Examples.stringify Examples.orgs_B)
    ([] ++
     ({| orgId := VNum 1; orgName := "Acme" |},
      DevicesListed (Examples.page 200 Failures.devices_punctuation)
        ([{| serialNumber := Some "AB-12 34";
             warrantyExpiryDate := Some "2026-02-15";
             isExpired := false |}] ++
         {| serialNumber := Some "- -";
            warrantyExpiryDate := Some "2026-02-15";
            isExpired := true |} ::
         [{| serialNumber := Some "CD-56 78";
             warrantyExpiryDate := Some "2026-03-01";
             isExpired := false |}])) :: []).
Proof.
  split; [|split; [reflexivity|split]].
  - split; [reflexivity|].
    exists (Examples.page 200 Examples.token_body), Examples.token_body.
    repeat split.
  - split; vm_compute; discriminate.
  - exists [("data", VArr [Examples.org 1 "Acme"])], [Examples.org 1 "Acme"].
    split; [exists (Examples.page 200 Examples.orgs_B); repeat split|].
    split; [reflexivity|]. split; [discriminate|].
    split; [repeat constructor|].
    simpl. split; [|exact I].
    split; [reflexivity|]. split; [reflexivity|].
    eexists _, _. split; [reflexivity|]. split; [reflexivity|].
    repeat constructor.
Defined.

Lemma world_C_served :
  inventory_served Examples.world_C (VStr "tok")
    (Examples.stringify Examples.orgs_B)
    [({| orgId := VNum 1; orgName := "Acme" |},
      DevicesListed (Examples.page 200 Examples.devices_C)
        [{| serialNumber := Some "AB-12 34";
            warrantyExpiryDate := Some "2026-05-01";
            isExpired := false |}])].
Proof.
  split; [|split; [reflexivity|split]].
  - split; [reflexivity|].
    exists (Examples.page 200 Examples.token_body), Examples.token_body.
    repeat split.
  - split; vm_compute; discriminate.
  - exists [("data", VArr [Examples.org 1 "Acme"])], [Examples.org 1 "Acme"].
    split; [exists (Examples.page 200 Examples.orgs_B); repeat split|].
    split; [reflexivity|]. split; [discriminate|].
    split; [repeat constructor|].
    simpl. split; [|exact I].
    split; [reflexivity|]. split; [reflexivity|].
    eexists _, _. split; [reflexivity|]. split; [reflexivity|].
    repeat constructor.
Defined.

(** Scenario B, a warranty that ends in 45 days, and scenario C, one that
    ends in 120 days. *)
Lemma device_reported_iff_within_horizon_witness :
  let line :=
    dq +:+ "Acme" +:+ dq +:+ "," +:+ dq +:+ "AB1234" +:+ dq +:+ "," +:+
    dq +:+ "2026-02-15" +:+ dq +:+ "," +:+ dq +:+ "45" +:+ dq +:+ "," +:+
    dq +:+ "NO" +:+ dq in
  (exit_code Examples.world_B = 0 /\
   mails_of (run_trace Examples.world_B) =
     [mailOptions_of_env Examples.world_B (join LF [csv_header; line])]) /\
  (exit_code Examples.world_C = 0 /\
   mails_of (run_trace Examples.world_C) =
     [mailOptions_of_env Examples.world_C (join LF [csv_header])]).
Proof.
  intros line. split.
  - destruct (device_reported_iff_within_horizon _ _ _ _ world_B_served)
      as (Hrun & _ & _ & Hat & _).
    destruct (Hat [] [] {| orgId := VNum 1; orgName := "Acme" |}
                (Examples.page 200 Examples.devices_B) [] []
                {| serialNumber := Some "AB-12 34";
                   warrantyExpiryDate := Some "2026-02-15";
                   isExpired := false |} eq_refl) as [Hdated _].
    destruct (Hdated "AB-12 34" "2026-02-15" 1771113600000 eq_refl
                ltac:(discriminate) eq_refl ltac:(discriminate) eq_refl)
      as [Hin _].
    specialize (Hin ltac:(vm_compute; discriminate)).
    unfold exit_code, run_trace. rewrite Hrun, Hin. split; reflexivity.
  - destruct (device_reported_iff_within_horizon _ _ _ _ world_C_served)
      as (Hrun & _ & _ & Hat & _).
    destruct (Hat [] [] {| orgId := VNum 1; orgName := "Acme" |}
                (Examples.page 200 Examples.devices_C) [] []
                {| serialNumber := Some "AB-12 34";
                   warrantyExpiryDate := Some "2026-05-01";
                   isExpired := false |} eq_refl) as [Hdated _].
    destruct (Hdated "AB-12 34" "2026-05-01" 1777593600000 eq_refl
                ltac:(discriminate) eq_refl ltac:(discriminate) eq_refl)
      as [_ Hout].
    specialize (Hout ltac:(vm_compute; reflexivity)).
    unfold exit_code, run_trace. rewrite Hrun, Hout. split; reflexivity.
Defined.

Lemma csv_lines_of_report_witness :
  let w := Failures.world_two_line_name in
  let inv :=
    [({| orgId := VNum 1; orgName := Failures.two_line_name |},
      DevicesListed (Examples.page 200 Examples.devices_B)
        [{| serialNumber := Some "AB-12 34";
            warrantyExpiryDate := Some "2026-02-15";
            isExpired := false |}])] in
  let line :=
    dq +:+ "North" +:+ LF +:+ "Wing" +:+ dq +:+ "," +:+ dq +:+ "AB1234" +:+ dq +:+ "," +:+
    dq +:+ "2026-02-15" +:+ dq +:+ "," +:+ dq +:+ "45" +:+ dq +:+ "," +:+
    dq +:+ "NO" +:+ dq in
  run w =
    (0, snd (sendEmailWithCSV w (join LF [csv_header; line])
               (served_trace w (VStr "tok")
                  (Examples.stringify Failures.orgs_two_lines) inv))) /\
  count_char "010" (join LF [csv_header; line]) = (1 + (1 + 0 + 0))%nat.
Proof.
  intros w inv line.
  destruct (csv_lines_of_report w _ _ inv world_two_line_name_served)
    as (Hrun & _ & _ & _ & _ & _ & _ & Hcount & _).
  split; [exact Hrun | exact Hcount].
Defined.

(** ** A serial without letters or digits *)


(** C10.  A serial made of punctuation and blanks only is not empty, so it
    passes the test for a missing serial; after the replacement nothing is
    left of it.  When the date of such a device qualifies, the report the
    run hands to the delivery holds, at the place of that device, a line
    whose serial field is two double quotes with nothing between them. *)
Theorem punctuation_only_serial_reported :
  forall (w : world) (token : value) (raw : string)
         (inv1 inv2 : list (Organization * org_outcome))
         (o : Organization) (r : response) (devices1 devices2 : list Device)
         (d : Device) (serial literal : string) (expiryDate : Z),
    inventory_served w token raw
      (inv1 ++ (o, DevicesListed r (devices1 ++ d :: devices2)) :: inv2) ->
    serialNumber d = Some serial -> serial <> EmptyString ->
    List.forallb (fun c => negb (is_alnum c)) (list_ascii_of_string serial) = true ->
    warrantyExpiryDate d = Some literal -> literal <> EmptyString ->
    Date_parse w literal = Some expiryDate ->
    expiryDate <= clock w + 90 * msInDay ->
    let line :=
      dq +:+ orgName o +:+ dq +:+ "," +:+ dq +:+ dq +:+ "," +:+
      dq +:+ literal +:+ dq +:+ "," +:+
      dq +:+ pretty (days_between expiryDate (clock w)) +:+ dq +:+ "," +:+
      dq +:+ (if isExpired d then "YES" else "NO") +:+ dq in
    let before :=
      map row_line
        (report_rows (Date_parse w) (clock w) inv1 ++
         selectExpiring (Date_parse w) devices1 (orgName o) (clock w) 90) in
    let after :=
      map row_line
        (selectExpiring (Date_parse w) devices2 (orgName o) (clock w) 90 ++
         report_rows (Date_parse w) (clock w) inv2) in
    truthy (VStr serial) = true /\
    strip_non_alnum serial = EmptyString /\
    run w =
      (0, snd (sendEmailWithCSV w (join LF (csv_header :: before ++ line :: after))
                 (served_trace w token raw
                    (inv1 ++ (o, DevicesListed r (devices1 ++ d :: devices2)) :: inv2)))).
Proof.
  intros w token raw inv1 inv2 o r devices1 devices2 d serial literal expiryDate
         Hserved Hsn Hs Hpunct He Hl Hparse Hle line before after.
  split; [apply truthy_VStr, Hs|].
  split; [apply strip_non_alnum_nothing_left, Hpunct|].
  rewrite (run_served_delivery w token raw _ Hserved). do 3 f_equal.
  unfold formatCSV, formatCSV_lines. do 2 f_equal.
  rewrite report_rows_app.
  change (report_rows (Date_parse w) (clock w)
            ((o, DevicesListed r (devices1 ++ d :: devices2)) :: inv2))
    with (selectExpiring (Date_parse w) (devices1 ++ d :: devices2) (orgName o)
            (clock w) 90 ++ report_rows (Date_parse w) (clock w) inv2).
  unfold before, after, selectExpiring. rewrite omap_app, omap_cons_eq.
  rewrite (selectRow_dated (Date_parse w) (orgName o) (clock w) d serial literal
             expiryDate Hsn Hs He Hl Hparse).
  apply Z.leb_le in Hle. rewrite Hle.
  rewrite !List.map_app. cbn [map].
  rewrite row_line_text. cbn [organizationName normalizedSerial expiryDateLiteral
                              daysUntilExpiry expiredFlag].
  rewrite (strip_non_alnum_nothing_left serial Hpunct).
  rewrite <- !List.app_assoc. cbn [app].
  unfold line. destruct (isExpired d); reflexivity.
Qed.

Lemma punctuation_only_serial_reported_witness :
  let w := Failures.world_punctuation in
  let row (serial days flag : string) :=
    dq +:+ "Acme" +:+ dq +:+ "," +:+ dq +:+ serial +:+ dq +:+ "," +:+
    dq +:+ "2026-02-15" +:+ dq +:+ "," +:+ dq +:+ days +:+ dq +:+ "," +:+
    dq +:+ flag +:+ dq in
  let last :=
    dq +:+ "Acme" +:+ dq +:+ "," +:+ dq +:+ "CD5678" +:+ dq +:+ "," +:+
    dq +:+ "2026-03-01" +:+ dq +:+ "," +:+ dq +:+ "59" +:+ dq +:+ "," +:+
    dq +:+ "NO" +:+ dq in
  truthy (VStr "- -") = true /\
  strip_non_alnum "- -" = EmptyString /\
  fst (run w) = 0 /\
  mails_of (snd (run w)) =
    [mailOptions_of_env w
       (join LF [csv_header; row "AB1234" "45" "NO"; row EmptyString "45" "YES"; last])].
Proof.
  intros w row last.
  destruct (punctuation_only_serial_reported w _ _ _ _ _ _ _ _ _
              "- -" "2026-02-15" 1771113600000 world_punctuation_served
              eq_refl ltac:(discriminate) eq_refl eq_refl ltac:(discriminate)
              eq_refl ltac:(vm_compute; discriminate))
    as (Htruthy & Hstrip & Hrun).
  split; [exact Htruthy|]. split; [exact Hstrip|].
  rewrite Hrun. split; reflexivity.
Defined.

(** ** One organization fails *)

(** C5.  In a run that is served an inventory in which the device request
    of one organization is answered with a status that is not 2xx: the
    error is logged for that organization, with its id, the status and the
    body; the device requests of the organizations after it are still made;
    the report handed to the delivery is the one of the other organizations
    alone, so that with one other organization and one qualifying device it
    is the header and the line of that device; and the exit code is 0. *)
Theorem failed_organization_is_skipped :
  forall (w : world) (token : value) (raw : string)
         (inv1 inv2 : list (Organization * org_outcome))
         (o : Organization) (r : response),
    inventory_served w token raw (inv1 ++ (o, DeviceFetchFailed r) :: inv2) ->
    let rows := report_rows (Date_parse w) (clock w) (inv1 ++ inv2) in
    ok r = false /\
    run w =
      (0, snd (sendEmailWithCSV w (formatCSV rows)
                 (served_trace w token raw (inv1 ++ (o, DeviceFetchFailed r) :: inv2)))) /\
    exit_code w = 0 /\
    In (ConsoleError
          (ErrorFetchingDevices (orgId o)
             (Error ("Failed to fetch devices for org " +:+ toString (orgId o) +:+ ": " +:+
                     pretty (status r) +:+ " - " +:+ text r))))
       (run_trace w) /\
    (forall (o' : Organization) (out' : org_outcome),
        In (o', out') inv2 ->
        In (Fetch (dev_request token (orgId o'))) (run_trace w)) /\
    (forall (o' : Organization) (r' : response) (d : Device) (row : ReportRow),
        inv1 ++ inv2 = [(o', DevicesListed r' [d])] ->
        selectRow (Date_parse w) (orgName o') (clock w) 90 d = Some row ->
        formatCSV rows =
        csv_header +:+ LF +:+
        dq +:+ organizationName row +:+ dq +:+ "," +:+
        dq +:+ normalizedSerial row +:+ dq +:+ "," +:+
        dq +:+ expiryDateLiteral row +:+ dq +:+ "," +:+
        dq +:+ pretty (daysUntilExpiry row) +:+ dq +:+ "," +:+
        dq +:+ YesNo_text (expiredFlag row) +:+ dq).
Proof.
  intros w token raw inv1 inv2 o r Hserved rows.
  pose proof (run_served_delivery w token raw _ Hserved) as Hrun.
  assert (Hrows : report_rows (Date_parse w) (clock w)
                    (inv1 ++ (o, DeviceFetchFailed r) :: inv2) = rows).
  { change ((o, DeviceFetchFailed r) :: inv2)
      with ([(o, DeviceFetchFailed r)] ++ inv2).
    unfold rows. rewrite !report_rows_app. reflexivity. }
  rewrite Hrows in Hrun.
  split; [|split; [exact Hrun|split; [|split; [|split]]]].
  - destruct Hserved as (_ & _ & _ & fields & vs & _ & _ & _ & _ & Hs).
    apply serves_app in Hs. destruct Hs as [[_ Hok] _]. exact Hok.
  - unfold exit_code. rewrite Hrun. reflexivity.
  - apply (events_in_run w token raw _ _ Hserved).
    rewrite inventory_events_app. apply List.in_app_iff. right.
    change ((o, DeviceFetchFailed r) :: inv2)
      with ([(o, DeviceFetchFailed r)] ++ inv2).
    rewrite inventory_events_app. apply List.in_app_iff. left.
    simpl. right. right. left. reflexivity.
  - intros o' out' Hin. apply (events_in_run w token raw _ _ Hserved).
    apply (org_request_in_events token o' out').
    apply List.in_app_iff. right. right. exact Hin.
  - intros o' r' d row Hinv Hrow. unfold rows. rewrite Hinv.
    change (report_rows (Date_parse w) (clock w) [(o', DevicesListed r' [d])])
      with (omap (selectRow (Date_parse w) (orgName o') (clock w) 90) [d] ++ []).
    rewrite omap_cons_eq, Hrow.
    change (formatCSV ((row :: omap (selectRow (Date_parse w) (orgName o') (clock w) 90) [])
                       ++ []))
      with (csv_header +:+ LF +:+ row_line row).
    rewrite row_line_text. reflexivity.
Qed.

Lemma failed_organization_is_skipped_witness :
  let w := Examples.world_D in
  let line :=
    dq +:+ "Bolt" +:+ dq +:+ "," +:+ dq +:+ "111122223333" +:+ dq +:+ "," +:+
    dq +:+ "2025-12-22" +:+ dq +:+ "," +:+ dq +:+ "-10" +:+ dq +:+ "," +:+
    dq +:+ "YES" +:+ dq in
  exit_code w = 0 /\
  In (ConsoleError
        (ErrorFetchingDevices (VNum 1)
           (Error "Failed to fetch devices for org 1: 500 - Internal Server Error")))
     (run_trace w) /\
  In (Fetch (dev_request (VStr "tok") (VNum 2))) (run_trace w) /\
  mails_of (run_trace w) = [mailOptions_of_env w (csv_header +:+ LF +:+ line)].
Proof.
  intros w line.
  destruct (failed_organization_is_skipped w _ _ _ _ _ _ world_D_served)
    as (_ & Hrun & Hexit & Hlog & Hnext & _).
  split; [exact Hexit|]. split; [exact Hlog|]. split.
  - eapply (Hnext {| orgId := VNum 2; orgName := "Bolt" |}). left. reflexivity.
  - unfold run_trace. rewrite Hrun. reflexivity.
Defined.

(** * Further properties of the script *)

(** ** The day count and the horizon *)

Lemma ceil_div_le_iff (x d k : Z) :
  0 < d -> (ceil_div x d <= k <-> x <= k * d).
Proof.
  intros Hd. pose proof (ceil_div_spec x d Hd). split; intros; nia.
Qed.

(** X1.  The test that admits a device to the report and the day count
    printed for it agree: a date passes [expiryDate <= cutoffDate] exactly
    when its count of days is at most 90.  No line of the report shows more
    than 90 days, and no device is left out whose count would be 90 or
    less. *)
Theorem reported_days_at_most_ninety :
  forall expiryDate now : Z,
    exists d : Z,
      diffInDays (Some expiryDate) (Some now) = Some d /\
      (date_le (Some expiryDate) (Some (now + ninety_days)) = true <-> d <= 90).
Proof.
  intros e n. exists (days_between e n). split; [reflexivity|].
  unfold date_le. rewrite Z.leb_le.
  assert (H53 : 2 ^ 53 = 9007199254740992) by reflexivity.
  assert (H26 : 2 ^ 26 = 67108864) by reflexivity.
  assert (H90 : ninety_days = 7776000000) by reflexivity.
  destruct (Z_le_gt_dec (Z.abs (e - n)) (2 ^ 53)) as [Hin | Hout].
  - rewrite (days_between_exact e n Hin), (ceil_div_le_iff _ _ 90 msInDay_pos).
    unfold ninety_days, msInDay. lia.
  - destruct (days_between_far e n) as [Hhi Hlo].
    destruct (Z_lt_le_dec 0 (e - n)) as [Hpos | Hneg].
    + specialize (Hhi ltac:(lia)). lia.
    + specialize (Hlo ltac:(lia)). lia.
Qed.

(** X2.  [diffInDays] rounds up to whole days.  For dates at most 2^53 ms
    from [now]: the count grows with the first date, moving that date by [k]
    whole days moves the count by [k], and swapping the two dates negates
    the count only when they are a whole number of days apart (otherwise the
    two counts add up to 1).  With an invalid date on either side the count
    is NaN. *)
Theorem diffInDays_rounding :
  forall a b now k : Z,
    Z.abs (a - now) <= 2 ^ 53 ->
    Z.abs (b - now) <= 2 ^ 53 ->
    Z.abs (a + k * msInDay - now) <= 2 ^ 53 ->
    a <= b ->
    exists da db dr : Z,
      diffInDays (Some a) (Some now) = Some da /\
      diffInDays (Some b) (Some now) = Some db /\
      diffInDays (Some now) (Some a) = Some dr /\
      da <= db /\
      diffInDays (Some (a + k * msInDay)) (Some now) = Some (da + k) /\
      da + dr = (if (a - now) mod msInDay =? 0 then 0 else 1) /\
      diffInDays None (Some now) = None /\
      diffInDays (Some a) None = None.
Proof.
  intros a b n k Ha Hb Hk Hab. pose proof msInDay_pos as Hpos.
  exists (ceil_div (a - n) msInDay), (ceil_div (b - n) msInDay),
         (ceil_div (n - a) msInDay).
  pose proof (ceil_div_spec (a - n) msInDay Hpos) as Sa.
  unfold diffInDays.
  rewrite (days_between_exact a n Ha), (days_between_exact b n Hb),
          (days_between_exact (a + k * msInDay) n Hk),
          (days_between_exact n a ltac:(lia)).
  split; [reflexivity|]. split; [reflexivity|]. split; [reflexivity|].
  split; [|split; [|split; [|split]]]; try reflexivity.
  - pose proof (ceil_div_spec (b - n) msInDay Hpos). nia.
  - f_equal. apply ceil_div_unique; [exact Hpos|]. nia.
  - pose proof (Z.div_mod (a - n) msInDay ltac:(lia)) as E.
    pose proof (Z.mod_pos_bound (a - n) msInDay Hpos) as B.
    set (q := (a - n) / msInDay) in *. set (r := (a - n) mod msInDay) in *.
    destruct (r =? 0) eqn:Hm.
    + apply Z.eqb_eq in Hm.
      rewrite (ceil_div_unique (a - n) msInDay q Hpos) by lia.
      rewrite (ceil_div_unique (n - a) msInDay (- q) Hpos) by lia. lia.
    + apply Z.eqb_neq in Hm.
      rewrite (ceil_div_unique (a - n) msInDay (q + 1) Hpos) by lia.
      rewrite (ceil_div_unique (n - a) msInDay (- q) Hpos) by lia. lia.
Qed.

(** A day and a half after [now], against three days after, moved by two
    days, and swapped. *)
Lemma diffInDays_rounding_witness :
  let now := 1767225600000 in
  let a := now + 129600000 in
  let b := now + 3 * msInDay in
  exists da db dr : Z,
    diffInDays (Some a) (Some now) = Some da /\
    diffInDays (Some b) (Some now) = Some db /\
    diffInDays (Some now) (Some a) = Some dr /\
    da <= db /\
    diffInDays (Some (a + 2 * msInDay)) (Some now) = Some (da + 2) /\
    da + dr = (if (a - now) mod msInDay =? 0 then 0 else 1) /\
    diffInDays None (Some now) = None /\
    diffInDays (Some a) None = None.
Proof.
  intros now a b.
  apply (diffInDays_rounding a b now 2); vm_compute; discriminate.
Defined.

(** ** Serials *)

Lemma list_ascii_of_string_append (a b : string) :
  list_ascii_of_string (a +:+ b) = list_ascii_of_string a ++ list_ascii_of_string b.
Proof.
  induction a as [|x a IH]; [reflexivity|].
  rewrite append_cons. simpl. rewrite IH. reflexivity.
Qed.

Lemma strip_non_alnum_append (a b : string) :
  strip_non_alnum (a +:+ b) = strip_non_alnum a +:+ strip_non_alnum b.
Proof.
  induction a as [|x a IH]; [reflexivity|].
  rewrite append_cons. simpl. destruct (is_alnum x).
  - rewrite append_cons, IH. reflexivity.
  - exact IH.
Qed.

Lemma strip_non_alnum_length (s : string) :
  (String.length (strip_non_alnum s) <= String.length s)%nat.
Proof.
  induction s as [|x s IH]; simpl; [lia|].
  destruct (is_alnum x); simpl; lia.
Qed.

Lemma strip_non_alnum_fixed_inv (s : string) :
  strip_non_alnum s = s ->
  List.forallb is_alnum (list_ascii_of_string s) = true.
Proof.
  intros H. rewrite <- H. apply strip_non_alnum_all_alnum.
Qed.

(** X3.  The normalization of serials works character by character: the
    normalized form of a concatenation is the concatenation of the
    normalized forms, it is never longer than the serial, it has the same
    length only when nothing was removed, and a serial is left as it is
    exactly when it holds letters and digits only. *)
Theorem serial_normalization_structure :
  forall a b : string,
    strip_non_alnum (a +:+ b) = strip_non_alnum a +:+ strip_non_alnum b /\
    (String.length (strip_non_alnum a) <= String.length a)%nat /\
    (String.length (strip_non_alnum a) = String.length a <-> strip_non_alnum a = a) /\
    (strip_non_alnum a = a <->
     List.forallb is_alnum (list_ascii_of_string a) = true).
Proof.
  intros a b. split; [apply strip_non_alnum_append|].
  split; [apply strip_non_alnum_length|]. split.
  - split; [|intros ->; reflexivity].
    induction a as [|x a IH]; simpl; [reflexivity|].
    destruct (is_alnum x); simpl; intros H.
    + f_equal. apply IH. lia.
    + pose proof (strip_non_alnum_length a). lia.
  - split; [apply strip_non_alnum_fixed_inv | apply strip_non_alnum_fixed].
Qed.

(** ** Quotes in a line *)

Lemma count_char_dq : count_char "034" dq = 1%nat.
Proof. reflexivity. Qed.

(** X4.  A line of the report is written with exactly ten double quotes
    and four commas of its own; every quote or comma inside a field is
    copied on top of these.  The line can be split back into five quoted
    fields only if no field holds a double quote: a single quote in an
    organization name already makes the count odd. *)
Theorem csv_line_delimiters :
  forall orgName serial expiry_date daysLeft isExpired : string,
    let fields := [orgName; serial; expiry_date; daysLeft; isExpired] in
    let inside (c : ascii) := list_sum (map (count_char c) fields) in
    count_char "034" (csv_line orgName serial expiry_date daysLeft isExpired) =
      (10 + inside "034"%char)%nat /\
    count_char "," (csv_line orgName serial expiry_date daysLeft isExpired) =
      (4 + inside ","%char)%nat.
Proof.
  intros a b c d e fields inside. unfold csv_line, inside, fields. simpl map.
  split; rewrite !count_char_append; simpl list_sum;
    change (count_char "034" dq) with 1%nat;
    change (count_char "034" ",") with 0%nat;
    change (count_char "," dq) with 0%nat;
    change (count_char "," ",") with 1%nat; lia.
Qed.

(** ** Failures before the loop *)

(** X5.  When the token request itself fails (the fetch rejects: no
    network, no DNS, TLS failure), the rejection is what [getBearerToken]
    throws: the run logs it as a token error and exits with code 1, the
    token request being all it has sent. *)
Theorem token_request_rejected :
  forall (w : world) (e : exn),
    credentials_set w = true ->
    net w [] (the_token_request w) = Rejected e ->
    run w = (1, [Fetch (the_token_request w); ConsoleError (ErrorRetrievingToken e)]).
Proof.
  intros w e Hcred Hnet.
  apply (run_token_failure w [Fetch (the_token_request w)] e).
  rewrite (getBearerToken_answer w [] Hcred). simpl requests_of.
  rewrite Hnet. reflexivity.
Qed.

Lemma token_request_rejected_witness :
  run Failures.world_offline =
    (1, [Fetch (the_token_request Failures.world_offline);
         ConsoleError (ErrorRetrievingToken (TypeError "fetch failed"))]).
Proof.
  apply (token_request_rejected Failures.world_offline (TypeError "fetch failed"));
    reflexivity.
Defined.

Lemma fetch_organizations_failed (w : world) (token : value) (t : trace) :
  fetch_organizations w token t =
  match net w (requests_of t) (org_request token) with
  | Rejected e =>
      (Exit 1, t ++ [Fetch (org_request token);
                     ConsoleError (ErrorFetchingOrganizations e)])
  | Responded r =>
      if negb (ok r) then
        (Exit 1, t ++ [Fetch (org_request token);
                       ConsoleError
                         (ErrorFetchingOrganizations
                            (Error ("Failed to fetch orgs: " +:+ pretty (status r) +:+
                                    " - " +:+ text r)))])
      else
        match JSON_parse w (text r) with
        | Parsed j =>
            (Normal j, t ++ [Fetch (org_request token);
                             ConsoleLog (RawOrganizationBody (text r))])
        | Unparseable msg =>
            (Exit 1, t ++ [Fetch (org_request token);
                           ConsoleLog (RawOrganizationBody (text r));
                           ConsoleError (ErrorFetchingOrganizations (SyntaxError msg))])
        end
  end.
Proof.
  unfold fetch_organizations, try_catch, bind, fetch.
  destruct (net w (requests_of t) (org_request token)) as [r|e].
  - destruct (ok r); simpl.
    + unfold console_log, emit, JSON_parse_M.
      destruct (JSON_parse w (text r)) as [j|msg]; simpl;
        unfold ret, throw, console_error, emit, process_exit;
        rewrite <- ?List.app_assoc; reflexivity.
    + unfold throw, console_error, emit, process_exit.
      rewrite <- ?List.app_assoc. reflexivity.
  - simpl. unfold console_error, emit, process_exit.
    rewrite <- ?List.app_assoc. reflexivity.
Qed.

(** The run after a granted token, up to the answer to the organization
    request. *)
Lemma run_after_token (w : world) (token : value) :
  token_granted w token ->
  run w =
  match fetch_organizations w token
          [Fetch (the_token_request w); ConsoleLog (TokenRetrieved token)] with
  | (Normal j, t) =>
      match bind (report_steps w token j) (deliver w) t with
      | (Normal _, t') => (0, t')
      | (Throw err, t') => (1, t' ++ [ConsoleError (UnexpectedError err)])
      | (Exit code, t') => (code, t')
      end
  | (Throw err, t) => (1, t ++ [ConsoleError (UnexpectedError err)])
  | (Exit code, t) => (code, t)
  end.
Proof.
  intros Htok. unfold run. rewrite main_pipeline. unfold pipeline, bind.
  rewrite (retrieve_token_success w [] _ token (getBearerToken_granted w token Htok)).
  simpl app.
  destruct (fetch_organizations w token _) as [[j|e|c] t]; reflexivity.
Qed.

(** X6.  After a granted token, a failure of the organization request is
    fatal whatever its kind: a rejected fetch, an answer that is not 2xx
    (the error carries status and body), or a 2xx answer whose body is not
    JSON (the raw body is logged first).  The run logs the error as an
    organization error and exits with code 1; it has sent two requests, no
    device request among them, and no mail. *)
Theorem organization_fetch_failure_is_fatal :
  forall (w : world) (token : value),
    token_granted w token ->
    let sent := [Fetch (the_token_request w); ConsoleLog (TokenRetrieved token);
                 Fetch (org_request token)] in
    let answer := net w [the_token_request w] (org_request token) in
    (forall e : exn,
        answer = Rejected e ->
        run w = (1, sent ++ [ConsoleError (ErrorFetchingOrganizations e)])) /\
    (forall r : response,
        answer = Responded r -> ok r = false ->
        run w =
          (1, sent ++
              [ConsoleError
                 (ErrorFetchingOrganizations
                    (Error ("Failed to fetch orgs: " +:+ pretty (status r) +:+
                            " - " +:+ text r)))])) /\
    (forall (r : response) (msg : string),
        answer = Responded r -> ok r = true ->
        JSON_parse w (text r) = Unparseable msg ->
        run w =
          (1, sent ++
              [ConsoleLog (RawOrganizationBody (text r));
               ConsoleError (ErrorFetchingOrganizations (SyntaxError msg))])).
Proof.
  intros w token Htok sent answer.
  pose proof (run_after_token w token Htok) as E.
  rewrite fetch_organizations_failed in E. simpl requests_of in E.
  fold answer in E.
  split; [|split].
  - intros e Ha. rewrite Ha in E. exact E.
  - intros r Ha Hok. rewrite Ha, Hok in E. exact E.
  - intros r msg Ha Hok Hparse. rewrite Ha, Hok, Hparse in E. exact E.
Qed.

Lemma token_granted_examples (pages : list (string * response)) (known : list value)
    (relay : send_result) :
  token_granted
    (Examples.make_world Examples.full_env
       ((TOKEN_ENDPOINT, Examples.page 200 Examples.token_body) :: pages)
       (Examples.token_body :: known) relay Examples.new_year_2026)
    (VStr "tok").
Proof.
  split; [reflexivity|].
  exists (Examples.page 200 Examples.token_body), Examples.token_body.
  repeat split.
Defined.

Lemma organization_fetch_failure_is_fatal_witness :
  let w := Failures.world_orgs_unavailable in
  run w =
    (1, [Fetch (the_token_request w); ConsoleLog (TokenRetrieved (VStr "tok"));
         Fetch (org_request (VStr "tok"));
         ConsoleError
           (ErrorFetchingOrganizations
              (Error "Failed to fetch orgs: 503 - Service Unavailable"))]).
Proof.
  intros w.
  destruct (organization_fetch_failure_is_fatal w (VStr "tok")
              (token_granted_examples _ _ _)) as (_ & Hstatus & _).
  exact (Hstatus Failures.unavailable eq_refl eq_refl).
Defined.

(** X7.  When the organization request is answered 2xx with the JSON text
    null, reading [orgData.data] throws outside every [try]: the error
    reaches the handler at the end of the script, which logs it as an
    unexpected error and exits with code 1.  No device is fetched and no
    mail is sent. *)
Theorem null_organization_body_is_fatal :
  forall (w : world) (token : value) (raw : string),
    token_granted w token ->
    orgs_answered w token raw VNull ->
    run w =
      (1, prefix_trace w token raw ++
          [ConsoleError
             (UnexpectedError
                (TypeError "Cannot read properties of null (reading 'data')"))]).
Proof.
  intros w token raw Htok Horgs.
  rewrite run_pipeline, (pipeline_first_steps w token raw VNull Htok Horgs).
  reflexivity.
Qed.

Lemma null_organization_body_is_fatal_witness :
  let w := Failures.world_orgs_null in
  run w =
    (1, prefix_trace w (VStr "tok") "null" ++
        [ConsoleError
           (UnexpectedError
              (TypeError "Cannot read properties of null (reading 'data')"))]).
Proof.
  intros w.
  apply (null_organization_body_is_fatal w (VStr "tok") "null").
  - apply token_granted_examples.
  - exists (Examples.page 200 VNull). repeat split.
Defined.

(** ** Failures inside the loop over the organizations *)

(** The body of the loop for an organization that is an object, by the
    answer to its device request. *)
Lemma org_body_object (w : world) (token : value) (now cutoffDate : number)
    (fields : list (string * value)) (csvLines : list string) (t : trace) :
  let orgId := lookup_field "id" fields in
  let orgName := lookup_field "name" fields in
  let t1 := t ++ [ConsoleLog (FetchingDevices orgId orgName);
                  Fetch (dev_request token orgId)] in
  org_body w token now cutoffDate (VObj fields) csvLines t =
  match net w (requests_of t) (dev_request token orgId) with
  | Rejected e =>
      (Normal csvLines, t1 ++ [ConsoleError (ErrorFetchingDevices orgId e)])
  | Responded r =>
      if negb (ok r) then
        (Normal csvLines,
         t1 ++ [ConsoleError (ErrorFetchingDevices orgId (device_error orgId r))])
      else
        match JSON_parse w (text r) with
        | Unparseable msg =>
            (Normal csvLines,
             t1 ++ [ConsoleLog (RawDeviceResponse orgId (text r));
                    ConsoleError (ErrorFetchingDevices orgId (SyntaxError msg))])
        | Parsed devicesData =>
            device_steps w orgName now cutoffDate devicesData csvLines
              (t1 ++ [ConsoleLog (RawDeviceResponse orgId (text r))])
        end
  end.
Proof.
  intros orgId orgName t1.
  unfold org_body, bind, get_prop, ret. fold orgId. fold orgName.
  unfold console_log, emit, try_catch, fetch.
  rewrite requests_of_log.
  destruct (net w (requests_of t) (dev_request token orgId)) as [r|e].
  - destruct (ok r); cbv beta iota delta [negb].
    + unfold JSON_parse_M.
      destruct (JSON_parse w (text r)) as [j|msg].
      * unfold ret, device_steps, bind, get_prop, console_log, emit, ret. subst t1.
        rewrite <- !List.app_assoc. reflexivity.
      * unfold throw, console_error, emit, ret. subst t1.
        rewrite <- !List.app_assoc. reflexivity.
    + unfold throw, console_error, emit, ret, device_error. subst t1.
      rewrite <- !List.app_assoc. reflexivity.
  - unfold console_error, emit, ret. subst t1.
    rewrite <- !List.app_assoc. reflexivity.
Qed.






(** ** What every run keeps to *)

Lemma quiet_app (d1 d2 : trace) : quiet d1 -> quiet d2 -> quiet (d1 ++ d2).
Proof.
  unfold quiet. intros H1 H2. rewrite List.existsb_app, H1, H2. reflexivity.
Qed.

Lemma quiet_nil : quiet [].
Proof. reflexivity. Qed.

(** One device: the trace is not touched, and the lines either stay or get
    one more; the only other outcome is a thrown error. *)
Lemma device_body_outcome (w : world) (orgName : value) (now cutoffDate : number)
    (device : value) (csvLines : list string) (t : trace) :
  exists c,
    device_body w orgName now cutoffDate device csvLines t = (c, t) /\
    (forall code, c <> Exit code) /\
    (forall csvLines', c = Normal csvLines' ->
                       exists more, csvLines' = csvLines ++ more).
Proof.
  assert (Hsame : exists more : list string, csvLines = csvLines ++ more).
  { exists []. rewrite List.app_nil_r. reflexivity. }
  assert (Hthrow : forall e : exn,
             exists c : completion (list string),
               (Throw e, t) = (c, t) /\ (forall code, c <> Exit code) /\
               (forall csvLines', c = Normal csvLines' ->
                                  exists more, csvLines' = csvLines ++ more)).
  { intros e. eexists. split; [reflexivity|]. split; [discriminate|]. discriminate. }
  assert (Hnormal : forall l : list string,
             (exists more, l = csvLines ++ more) ->
             exists c : completion (list string),
               (Normal l, t) = (c, t) /\ (forall code, c <> Exit code) /\
               (forall csvLines', c = Normal csvLines' ->
                                  exists more, csvLines' = csvLines ++ more)).
  { intros l Hl. eexists. split; [reflexivity|]. split; [discriminate|].
    intros l' H. inversion H; subst. exact Hl. }
  unfold device_body, bind.
  destruct (get_prop device "sn" t) as [[sn|e|code] t1] eqn:Hsn;
    destruct device; simpl in Hsn; unfold ret, throw in Hsn; inversion Hsn; subst;
    try apply Hthrow;
    try (apply Hnormal; exact Hsame).
  all: destruct (truthy _); simpl; try (apply Hnormal; exact Hsame).
  all: unfold ret; destruct (truthy _); simpl; try (apply Hnormal; exact Hsame).
  all: unfold replace_non_alnum;
    match goal with |- context [match ?v with VStr _ => _ | _ => _ end] =>
      destruct v end; unfold throw, ret; try apply Hthrow.
  all: destruct (date_le _ _); apply Hnormal; [eexists; reflexivity | exact Hsame].
Qed.

(** The inner loop: the same, for any list of devices. *)
Lemma for_of_devices_outcome (w : world) (orgName : value) (now cutoffDate : number)
    (devices : list value) :
  forall (csvLines : list string) (t : trace),
  exists c,
    for_of (device_body w orgName now cutoffDate) devices csvLines t = (c, t) /\
    (forall code, c <> Exit code) /\
    (forall csvLines', c = Normal csvLines' ->
                       exists more, csvLines' = csvLines ++ more).
Proof.
  induction devices as [|device devices IH]; intros csvLines t.
  - exists (Normal csvLines). split; [reflexivity|]. split; [discriminate|].
    intros l H. inversion H; subst. exists []. rewrite List.app_nil_r. reflexivity.
  - simpl for_of. unfold bind.
    destruct (device_body_outcome w orgName now cutoffDate device csvLines t)
      as (c1 & E1 & Hexit1 & Hlines1).
    rewrite E1. destruct c1 as [csv1|e|code].
    + destruct (Hlines1 csv1 eq_refl) as [more1 ->].
      destruct (IH (csvLines ++ more1) t) as (c & E & Hexit & Hlines).
      exists c. split; [exact E|]. split; [exact Hexit|].
      intros l Hl. destruct (Hlines l Hl) as [more ->].
      exists (more1 ++ more). rewrite List.app_assoc. reflexivity.
    + exists (Throw e). split; [reflexivity|]. split; discriminate.
    + exfalso. apply (Hexit1 code). reflexivity.
Qed.

Lemma requests_of_single_log (m : console_msg) : requests_of [ConsoleLog m] = [].
Proof. reflexivity. Qed.

(** The devices of one decoded answer: nothing is requested, nothing of the
    delivery step happens, lines are only added. *)
Lemma device_steps_outcome (w : world) (orgName : value) (now cutoffDate : number)
    (j : value) (csvLines : list string) (t : trace) :
  exists c d,
    device_steps w orgName now cutoffDate j csvLines t = (c, t ++ d) /\
    quiet d /\ requests_of d = [] /\
    (forall code, c <> Exit code) /\
    (forall csvLines', c = Normal csvLines' ->
                       exists more, csvLines' = csvLines ++ more).
Proof.
  unfold device_steps, bind.
  destruct (get_prop j "data" t) as [[data|e|code] t1] eqn:Hget;
    destruct j; simpl in Hget; unfold ret, throw in Hget; inversion Hget; subst.
  all: try (eexists (Throw _), []; rewrite List.app_nil_r;
            split; [reflexivity|]; split; [reflexivity|]; split; [reflexivity|];
            split; discriminate).
  all: match goal with
       | |- context [if ?b then _ else _] => destruct b
       end.
  all: try (eexists (Normal csvLines), [_];
            split; [reflexivity|]; split; [reflexivity|]; split; [reflexivity|];
            split; [discriminate|];
            intros l H; inversion H; subst; exists [];
            rewrite List.app_nil_r; reflexivity).
  all: match goal with
       | |- context [for_of ?body ?l ?cs ?t1] =>
           destruct (for_of_devices_outcome w orgName now cutoffDate l cs t1)
             as (c & E & Hexit & Hlines)
       end;
       exists c, []; rewrite List.app_nil_r;
       split; [exact E|]; split; [reflexivity|]; split; [reflexivity|];
       split; [exact Hexit | exact Hlines].
Qed.

Lemma org_body_non_object (w : world) (token : value) (now cutoffDate : number)
    (v : value) (csvLines : list string) (t : trace) :
  v <> VNull -> v <> VUndefined ->
  org_body w token now cutoffDate v csvLines t =
  org_body w token now cutoffDate (VObj [("id", field "id" v); ("name", field "name" v)])
           csvLines t.
Proof.
  intros Hnull Hundef. destruct v; try congruence; reflexivity.
Qed.

(** One organization: at most its own device request goes out, nothing of
    the delivery step happens, the script does not exit, and when the body
    completes the request was made and lines were only added. *)
Lemma org_body_outcome (w : world) (token : value) (now cutoffDate : number)
    (v : value) (csvLines : list string) (t : trace) :
  exists c d,
    org_body w token now cutoffDate v csvLines t = (c, t ++ d) /\
    quiet d /\
    (forall code, c <> Exit code) /\
    (forall csvLines', c = Normal csvLines' ->
                       requests_of d = [dev_request_of token v] /\
                       exists more, csvLines' = csvLines ++ more).
Proof.
  assert (Hsame : exists more : list string, csvLines = csvLines ++ more).
  { exists []. rewrite List.app_nil_r. reflexivity. }
  destruct v as [| |b|n|s|l|fields] eqn:Hv.
  1, 2: eexists (Throw _), []; rewrite List.app_nil_r;
    (split; [reflexivity|]); (split; [reflexivity|]); split; discriminate.
  1, 2, 3, 4: rewrite org_body_non_object by discriminate.
  all: rewrite org_body_object; cbv zeta; unfold dev_request_of; simpl field;
    simpl lookup_field;
    match goal with
    | |- context [net ?w' (requests_of ?t') ?req] =>
        destruct (net w' (requests_of t') req) as [r|e]
    end.
  all: try (eexists (Normal csvLines), [_; _; _];
            rewrite <- List.app_assoc;
            split; [reflexivity|]; split; [reflexivity|]; split; [discriminate|];
            intros l' H; inversion H; subst; split; [reflexivity | exact Hsame]).
  all: destruct (negb (ok r)).
  all: try (eexists (Normal csvLines), [_; _; _];
            rewrite <- List.app_assoc;
            split; [reflexivity|]; split; [reflexivity|]; split; [discriminate|];
            intros l' H; inversion H; subst; split; [reflexivity | exact Hsame]).
  all: destruct (JSON_parse w (text r)) as [j|msg].
  all: try (eexists (Normal csvLines), [_; _; _; _];
            rewrite <- List.app_assoc;
            split; [reflexivity|]; split; [reflexivity|]; split; [discriminate|];
            intros l' H; inversion H; subst; split; [reflexivity | exact Hsame]).
  all: match goal with
       | |- context [device_steps ?w' ?name ?n' ?c' ?j' ?cs ?t1] =>
           destruct (device_steps_outcome w' name n' c' j' cs t1)
             as (c & d & E & Hq & Hreq & Hexit & Hlines)
       end;
       rewrite E; exists c; eexists ([_; _] ++ [_] ++ d);
       rewrite <- !List.app_assoc;
       (split; [reflexivity|]);
       (split; [apply (quiet_app [_; _; _] d); [reflexivity | exact Hq]|]);
       (split; [exact Hexit|]);
       intros l' H; (split; [|exact (Hlines l' H)]);
       change ([?a; ?b] ++ [?c] ++ d) with ([a; b; c] ++ d);
       rewrite requests_of_app, Hreq; reflexivity.
Qed.

(** The outer loop. *)
Lemma for_of_orgs_outcome (w : world) (token : value) (now cutoffDate : number)
    (orgs : list value) :
  forall (csvLines : list string) (t : trace),
  exists c d,
    for_of (org_body w token now cutoffDate) orgs csvLines t = (c, t ++ d) /\
    quiet d /\
    (forall code, c <> Exit code) /\
    (forall csvLines', c = Normal csvLines' ->
                       requests_of d = map (dev_request_of token) orgs /\
                       exists more, csvLines' = csvLines ++ more).
Proof.
  induction orgs as [|v orgs IH]; intros csvLines t.
  - exists (Normal csvLines), []. rewrite List.app_nil_r.
    split; [reflexivity|]. split; [reflexivity|]. split; [discriminate|].
    intros l H. inversion H; subst. split; [reflexivity|].
    exists []. rewrite List.app_nil_r. reflexivity.
  - simpl for_of. unfold bind.
    destruct (org_body_outcome w token now cutoffDate v csvLines t)
      as (c1 & d1 & E1 & Hq1 & Hexit1 & Hn1).
    rewrite E1. destruct c1 as [csv1|e|code].
    + destruct (Hn1 csv1 eq_refl) as [Hreq1 [more1 ->]].
      destruct (IH (csvLines ++ more1) (t ++ d1))
        as (c & d & E & Hq & Hexit & Hn).
      exists c, (d1 ++ d). rewrite List.app_assoc.
      split; [exact E|]. split; [apply quiet_app; assumption|].
      split; [exact Hexit|].
      intros l Hl. destruct (Hn l Hl) as [Hreq [more ->]]. split.
      * rewrite requests_of_app, Hreq1, Hreq. reflexivity.
      * exists (more1 ++ more). rewrite List.app_assoc. reflexivity.
    + exists (Throw e), d1. split; [reflexivity|]. split; [exact Hq1|].
      split; discriminate.
    + exfalso. apply (Hexit1 code). reflexivity.
Qed.

Lemma header_first_lines (more : list string) :
  header_first (join LF ([csv_header] ++ more)).
Proof. exists more. reflexivity. Qed.

Lemma items_nil_of_guard (data : value) :
  negb (isArray data) || (List.length (items data) =? 0)%nat = true ->
  items data = [].
Proof.
  destruct data as [| | | | |l|]; try reflexivity.
  simpl. destruct l; [reflexivity|discriminate].
Qed.

(** The steps after the organization list is decoded. *)
Lemma report_steps_outcome (w : world) (token j : value) (t : trace) :
  exists c d,
    report_steps w token j t = (c, t ++ d) /\
    quiet d /\
    (forall code, c <> Exit code) /\
    (forall report, c = Normal report ->
       requests_of d = map (dev_request_of token) (items (field "data" j)) /\
       match report with
       | Some csvContent => header_first csvContent
       | None => True
       end).
Proof.
  unfold report_steps. unfold bind at 1.
  destruct j as [| |b|n|s|l|fields].
  1, 2: eexists (Throw _), []; rewrite List.app_nil_r;
    (split; [reflexivity|]); (split; [reflexivity|]); split; discriminate.
  all: simpl get_prop; unfold ret; cbv beta iota;
    match goal with
    | |- context [negb (isArray ?data) || _] =>
        destruct (negb (isArray data) || (List.length (items data) =? 0)%nat) eqn:Hguard
    end.
  all: try (simpl in Hguard; discriminate Hguard).
  all: try (eexists (Normal None), [_];
            split; [reflexivity|]; split; [reflexivity|]; split; [discriminate|];
            intros report H; inversion H; subst; split; [|exact I];
            simpl field; rewrite (items_nil_of_guard _ Hguard); reflexivity).
  all: unfold bind at 1; unfold console_log at 1; unfold emit at 1; cbv beta iota;
    unfold bind at 1;
    match goal with
    | |- context [for_of (org_body ?w' ?tok ?n' ?c') ?orgs ?cs ?t1] =>
        destruct (for_of_orgs_outcome w' tok n' c' orgs cs t1)
          as (c & d & E & Hq & Hexit & Hn)
    end;
    rewrite E; destruct c as [csvLines|e|code];
    [ destruct (Hn csvLines eq_refl) as [Hreq [more ->]];
      destruct (List.length ([csv_header] ++ more) =? 1)%nat;
      [ eexists (Normal (Some _)), ([_] ++ d ++ [_])
      | eexists (Normal (Some _)), ([_] ++ d ++ [_; _]) ];
      unfold bind, console_log, emit, ret; rewrite <- !List.app_assoc;
      (split; [reflexivity|]);
      (split; [apply (quiet_app [_]); [reflexivity|];
               apply quiet_app; [exact Hq | reflexivity]|]);
      (split; [discriminate|]);
      intros report H; inversion H; subst;
      (split; [|apply header_first_lines]);
      rewrite !requests_of_app, Hreq; simpl; rewrite ?List.app_nil_r; reflexivity
    | eexists (Throw e), ([_] ++ d); rewrite <- !List.app_assoc;
      (split; [reflexivity|]);
      (split; [apply (quiet_app [_]); [reflexivity | exact Hq]|]);
      split; discriminate
    | exfalso; apply (Hexit code); reflexivity ].
Qed.

(** The first step, whatever the token endpoint does: a token and the two
    events that go with it, or exit code 1 after the error message. *)
Lemma retrieve_token_outcome (w : world) :
  (exists token,
      retrieve_token w [] =
      (Normal token, [Fetch (the_token_request w); ConsoleLog (TokenRetrieved token)])) \/
  (exists d, retrieve_token w [] = (Exit 1, d) /\ quiet d).
Proof.
  destruct (getBearerToken w []) as [[token|e|code] d] eqn:E.
  - left. exists token.
    rewrite (retrieve_token_success w [] d token E).
    destruct (credentials_set w) eqn:Hc.
    + rewrite (getBearerToken_answer w [] Hc) in E. inversion E. reflexivity.
    + rewrite (getBearerToken_missing_credentials w [] Hc) in E. discriminate.
  - right. eexists. split; [apply (retrieve_token_failure w [] d e E)|].
    destruct (credentials_set w) eqn:Hc.
    + rewrite (getBearerToken_answer w [] Hc) in E. inversion E. reflexivity.
    + rewrite (getBearerToken_missing_credentials w [] Hc) in E.
      inversion E. reflexivity.
  - exfalso. exact (getBearerToken_never_exits w [] d code E).
Qed.

(** The second step. *)
Lemma fetch_organizations_outcome (w : world) (token : value) (t : trace) :
  (exists r j,
      net w (requests_of t) (org_request token) = Responded r /\
      JSON_parse w (text r) = Parsed j /\
      fetch_organizations w token t =
      (Normal j, t ++ [Fetch (org_request token);
                       ConsoleLog (RawOrganizationBody (text r))])) \/
  (exists d, fetch_organizations w token t = (Exit 1, t ++ d) /\ quiet d).
Proof.
  rewrite fetch_organizations_failed.
  destruct (net w (requests_of t) (org_request token)) as [r|e].
  - destruct (negb (ok r)).
    + right. eexists. split; reflexivity.
    + destruct (JSON_parse w (text r)) as [j|msg] eqn:Hparse.
      * left. exists r, j. repeat split. exact Hparse.
      * right. eexists. split; reflexivity.
  - right. eexists. split; reflexivity.
Qed.

(** The pipeline of any run: nothing of the delivery step happens in it,
    it exits with code 1 if it exits, and when it completes it has made the
    token request, the organization request and one device request for each
    element of the decoded organization list, in that order, and its
    report, if it has one, begins with the header. *)
Lemma pipeline_outcome (w : world) :
  exists c d,
    pipeline w [] = (c, d) /\
    quiet d /\
    (forall code, c = Exit code -> code = 1) /\
    (forall report, c = Normal report ->
       (exists token r j,
           net w [the_token_request w] (org_request token) = Responded r /\
           JSON_parse w (text r) = Parsed j /\
           requests_of d =
             the_token_request w :: org_request token ::
             map (dev_request_of token) (items (field "data" j))) /\
       match report with
       | Some csvContent => header_first csvContent
       | None => True
       end).
Proof.
  unfold pipeline. unfold bind at 1.
  destruct (retrieve_token_outcome w) as [[token E1]|[d1 [E1 Hq1]]]; rewrite E1.
  2: { exists (Exit 1), d1. split; [reflexivity|]. split; [exact Hq1|].
       split; [intros code H; inversion H; reflexivity | discriminate]. }
  unfold bind at 1.
  destruct (fetch_organizations_outcome w token
              [Fetch (the_token_request w); ConsoleLog (TokenRetrieved token)])
    as [(r & j & Hnet & Hparse & E2)|[d2 [E2 Hq2]]]; rewrite E2.
  2: { eexists (Exit 1), _. split; [reflexivity|].
       split; [apply (quiet_app [_; _]); [reflexivity | exact Hq2]|].
       split; [intros code H; inversion H; reflexivity | discriminate]. }
  destruct (report_steps_outcome w token j
              ([Fetch (the_token_request w); ConsoleLog (TokenRetrieved token)] ++
               [Fetch (org_request token); ConsoleLog (RawOrganizationBody (text r))]))
    as (c & d & E3 & Hq3 & Hexit3 & Hn3).
  rewrite E3. exists c. eexists. split; [reflexivity|].
  split; [apply (quiet_app [_; _; _; _]); [reflexivity | exact Hq3]|].
  split; [intros code H; subst c; exfalso; apply (Hexit3 code); reflexivity|].
  intros report H. destruct (Hn3 report H) as [Hreq Hhead]. split; [|exact Hhead].
  exists token, r, j. split; [exact Hnet|]. split; [exact Hparse|].
  rewrite requests_of_app, Hreq. reflexivity.
Qed.

Lemma quiet_no_mail (d : trace) : quiet d -> mails_of d = [].
Proof.
  unfold quiet. induction d as [|e d IH]; [reflexivity|].
  simpl. intros [He Hd]%orb_false_iff.
  destruct e as [req|m|m|tr m]; try discriminate He; simpl; auto.
Qed.

Lemma mails_of_app (t1 t2 : trace) : mails_of (t1 ++ t2) = mails_of t1 ++ mails_of t2.
Proof. apply omap_app. Qed.

Lemma mails_of_email_events (w : world) (csvContent : string) :
  mails_of (email_events w csvContent) =
  if smtp_complete w then [mailOptions_of_env w csvContent] else [].
Proof.
  unfold email_events. destruct (smtp_complete w); [|reflexivity].
  simpl. destruct (smtp w _ _); reflexivity.
Qed.

Lemma requests_of_email_events (w : world) (csvContent : string) :
  requests_of (email_events w csvContent) = [].
Proof.
  unfold email_events. destruct (smtp_complete w); [|reflexivity].
  simpl. destruct (smtp w _ _); reflexivity.
Qed.

(** The mails of any run: none, or the one mail built from the environment
    around the report of the pipeline. *)
Lemma mails_of_run (w : world) :
  mails_of (run_trace w) = [] \/
  exists csvContent,
    smtp_complete w = true /\ exit_code w = 0 /\ header_first csvContent /\
    fst (pipeline w []) = Normal (Some csvContent) /\
    mails_of (run_trace w) = [mailOptions_of_env w csvContent].
Proof.
  unfold run_trace, exit_code. rewrite run_pipeline.
  destruct (pipeline_outcome w) as (c & d & E & Hq & Hexit & Hn). rewrite E.
  destruct c as [[csvContent|]|e|code]; simpl.
  - rewrite mails_of_app, (quiet_no_mail d Hq), mails_of_email_events.
    destruct (smtp_complete w) eqn:Hs; [|left; reflexivity].
    right. exists csvContent. destruct (Hn _ eq_refl) as [_ Hhead]. auto.
  - left. rewrite List.app_nil_r. apply quiet_no_mail, Hq.
  - left. rewrite mails_of_app, (quiet_no_mail d Hq). reflexivity.
  - left. apply quiet_no_mail, Hq.
Qed.

(** X10.  Every run ends with exit code 0 or 1.  It submits at most one
    mail, and a run that ends with exit code 1 has not reached the delivery
    step at all: nothing was submitted and no delivery message was
    logged. *)
Theorem mail_only_on_success :
  forall w : world,
    (exit_code w = 0 \/ exit_code w = 1) /\
    (List.length (mails_of (run_trace w)) <= 1)%nat /\
    (exit_code w = 1 -> List.existsb is_delivery (run_trace w) = false).
Proof.
  intros w. split; [|split].
  - unfold exit_code. rewrite run_pipeline.
    destruct (pipeline_outcome w) as (c & d & E & Hq & Hexit & Hn). rewrite E.
    destruct c as [report|e|code]; simpl; auto.
  - destruct (mails_of_run w) as [H|(csvContent & _ & _ & _ & _ & H)];
      rewrite H; simpl; lia.
  - unfold exit_code, run_trace. rewrite run_pipeline.
    destruct (pipeline_outcome w) as (c & d & E & Hq & Hexit & Hn). rewrite E.
    destruct c as [report|e|code]; simpl; intros H; try discriminate.
    + apply (quiet_app d [_]); [exact Hq | reflexivity].
    + exact Hq.
Qed.

Lemma mail_only_on_success_witness :
  List.existsb is_delivery (run_trace Failures.world_orgs_unavailable) = false.
Proof.
  apply (proj2 (proj2 (mail_only_on_success Failures.world_orgs_unavailable))).
  reflexivity.
Defined.

Lemma requests_of_inventory_events (token : value)
    (inv : list (Organization * org_outcome)) :
  requests_of (inventory_events token inv) =
  map (fun p => dev_request token (orgId (fst p))) inv.
Proof.
  induction inv as [|[o out] inv IH]; [reflexivity|].
  change (inventory_events token ((o, out) :: inv))
    with (org_events token o out ++ inventory_events token inv).
  rewrite requests_of_app, IH.
  destruct out as [r [|d devices]|r]; reflexivity.
Qed.

Lemma requests_of_report_log (rows : list ReportRow) :
  requests_of (report_log rows) = [].
Proof. destruct rows; reflexivity. Qed.

(** X11.  A run that is served an inventory ends with exit code 0 after
    exactly these requests, in this order: the token request, the
    organization request with the token it got, and one device request for
    each organization of the list, with its id and the same token, whether
    that request is answered with devices or with an error status.  No
    request is repeated and none is made for anything else; the mail is not
    a request. *)
Theorem one_request_per_organization :
  forall (w : world) (token : value) (raw : string)
         (inv : list (Organization * org_outcome)),
    inventory_served w token raw inv ->
    exit_code w = 0 /\
    requests_of (run_trace w) =
      the_token_request w :: org_request token ::
      map (fun p => dev_request token (orgId (fst p))) inv.
Proof.
  intros w token raw inv Hserved.
  pose proof (run_served w token raw inv Hserved) as Hrun.
  split; [unfold exit_code; rewrite Hrun; reflexivity|].
  unfold run_trace. rewrite Hrun. cbn [snd]. unfold served_trace.
  rewrite !requests_of_app, requests_of_email_events, requests_of_report_log,
          requests_of_inventory_events, !List.app_nil_r.
  reflexivity.
Qed.

Lemma one_request_per_organization_witness :
  let w := Examples.world_D in
  exit_code w = 0 /\
  requests_of (run_trace w) =
    [the_token_request w; org_request (VStr "tok");
     dev_request (VStr "tok") (VNum 1); dev_request (VStr "tok") (VNum 2)].
Proof.
  intros w.
  exact (one_request_per_organization w _ _ _ world_D_served).
Defined.

(** X12.  Whatever the API answered, a mail the script submits carries
    exactly one attachment, named peplink_ic2_warranty_report.csv, and its
    content begins with the header line: it is the header alone or the
    header followed by lines the loops added.  The content is the report the
    pipeline ended with. *)
Theorem attachment_begins_with_header :
  forall (w : world) (m : mail),
    In m (mails_of (run_trace w)) ->
    exists csvContent : string,
      attachments m = [("peplink_ic2_warranty_report.csv", csvContent)] /\
      fst (pipeline w []) = Normal (Some csvContent) /\
      exists more : list string, csvContent = join LF (csv_header :: more).
Proof.
  intros w m Hin.
  destruct (mails_of_run w) as [H|(csvContent & _ & _ & Hhead & Hp & H)];
    rewrite H in Hin; [destruct Hin|].
  destruct Hin as [<-|[]]. exists csvContent. split; [reflexivity|].
  split; [exact Hp | exact Hhead].
Qed.

Lemma attachment_begins_with_header_witness :
  exists csvContent : string,
    attachments (mailOptions_of_env Examples.world_C csv_header) =
      [("peplink_ic2_warranty_report.csv", csvContent)] /\
    fst (pipeline Examples.world_C []) = Normal (Some csvContent) /\
    exists more : list string, csvContent = join LF (csv_header :: more).
Proof.
  apply (attachment_begins_with_header Examples.world_C).
  left. reflexivity.
Defined.

Lemma env_truthy_text (o : option string) :
  env_truthy o = true -> env_text o <> EmptyString.
Proof.
  destruct o as [s|]; simpl; [|discriminate].
  rewrite negb_true_iff. apply String.eqb_neq.
Qed.

(** X13.  A mail is submitted only with all five SMTP settings in place,
    and it is addressed from them: the recipient is SMTP_TO, the sender is
    SMTP_FROM when that is set and not empty and SMTP_USER otherwise, so
    neither is ever empty; the subject is fixed. *)
Theorem mail_addressing :
  forall (w : world) (m : mail),
    In m (mails_of (run_trace w)) ->
    smtp_complete w = true /\
    to m = env_text (env w !! "SMTP_TO") /\ to m <> EmptyString /\
    from m = (if env_truthy (env w !! "SMTP_FROM")
              then env_text (env w !! "SMTP_FROM")
              else env_text (env w !! "SMTP_USER")) /\
    from m <> EmptyString /\
    subject m = "Peplink Warranty Expiry Report".
Proof.
  intros w m Hin.
  destruct (mails_of_run w) as [H|(csvContent & Hs & _ & _ & _ & H)];
    rewrite H in Hin; [destruct Hin|].
  destruct Hin as [<-|[]]. split; [exact Hs|].
  unfold smtp_complete in Hs. rewrite !andb_true_iff in Hs.
  destruct Hs as [[[[Hhost Hport] Huser] Hpass] Hto].
  simpl. split; [reflexivity|]. split; [apply env_truthy_text, Hto|].
  split; [reflexivity|]. split; [|reflexivity].
  destruct (env_truthy (env w !! "SMTP_FROM")) eqn:Hfrom;
    apply env_truthy_text; assumption.
Qed.

Lemma mail_addressing_witness :
  let w := Examples.world_B in
  let m := mailOptions_of_env w
             (csv_header +:+ LF +:+ csv_line "Acme" "AB1234" "2026-02-15" "45" "NO") in
  to m = "recipient@somewhere.com" /\ from m = "someone@example.com".
Proof.
  intros w m.
  destruct (mail_addressing w m) as (_ & Hto & _ & Hfrom & _).
  - left. reflexivity.
  - split; [exact Hto | exact Hfrom].
Defined.

(** ** One record the script cannot read *)

Lemma for_of_app {A} (body : value -> A -> M A) (xs ys : list value) :
  forall (acc : A) (t : trace),
    for_of body (xs ++ ys) acc t =
    match for_of body xs acc t with
    | (Normal acc', t') => for_of body ys acc' t'
    | (Throw e, t') => (Throw e, t')
    | (Exit code, t') => (Exit code, t')
    end.
Proof.
  induction xs as [|x xs IH]; intros acc t; [reflexivity|].
  simpl. unfold bind.
  destruct (body x acc t) as [[acc'|e|code] t']; try reflexivity.
  apply IH.
Qed.

Lemma for_of_throws {A} (body : value -> A -> M A) (x : value) (rest : list value)
    (acc : A) (t t' : trace) (e : exn) :
  body x acc t = (Throw e, t') ->
  for_of body (x :: rest) acc t = (Throw e, t').
Proof. intros H. simpl. unfold bind. rewrite H. reflexivity. Qed.

(** A device whose serial is there but is no string: the replacement is not
    a method of it. *)
Lemma device_body_bad_serial (w : world) (orgName : value) (now cutoffDate : number)
    (fields : list (string * value)) (csvLines : list string) (t : trace) :
  truthy (lookup_field "sn" fields) = true ->
  (forall s, lookup_field "sn" fields <> VStr s) ->
  truthy (lookup_field "expiry_date" fields) = true ->
  device_body w orgName now cutoffDate (VObj fields) csvLines t =
  (Throw (TypeError "device.sn.replace is not a function"), t).
Proof.
  intros Hsn Hnot He. unfold device_body, bind, get_prop, ret.
  rewrite Hsn, He. simpl.
  destruct (lookup_field "sn" fields); try reflexivity.
  exfalso. apply (Hnot s). reflexivity.
Qed.

(** X14.  The device loop has no [try] of its own.  When a device carries a
    serial that is there but is not a string (a number, say) together with
    an expiry date, [device.sn.replace] throws; the error leaves both
    loops, is logged as an unexpected error, and the run ends with exit
    code 1.  The lines already collected, for earlier organizations and for
    the earlier devices of this one, are dropped with it, the devices and
    organizations after it are never looked at, and no mail is sent. *)
Theorem unreadable_serial_aborts_run :
  forall (w : world) (token : value) (raw : string)
         (orgFields : list (string * value)) (vs1 vs2 : list value)
         (inv1 : list (Organization * org_outcome))
         (org : list (string * value)) (o : Organization)
         (r : response) (devFields : list (string * value))
         (good rest : list value) (earlier : list Device)
         (bad : list (string * value)),
    token_granted w token ->
    clock_ok (clock w) ->
    orgs_answered w token raw (VObj orgFields) ->
    lookup_field "data" orgFields = VArr (vs1 ++ VObj org :: vs2) ->
    Forall2 (fun v o => as_organization v = Some o) vs1 (map fst inv1) ->
    let t0 := prefix_trace w token raw ++
              [ConsoleLog (RetrievedOrganizations
                             (List.length (vs1 ++ VObj org :: vs2)))] in
    serves w token t0 inv1 ->
    let t1 := t0 ++ inventory_events token inv1 in
    as_organization (VObj org) = Some o ->
    net w (requests_of t1) (dev_request token (orgId o)) = Responded r ->
    ok r = true ->
    JSON_parse w (text r) = Parsed (VObj devFields) ->
    lookup_field "data" devFields = VArr (good ++ VObj bad :: rest) ->
    Forall2 (fun v d => as_device v = Some d) good earlier ->
    truthy (lookup_field "sn" bad) = true ->
    (forall s, lookup_field "sn" bad <> VStr s) ->
    truthy (lookup_field "expiry_date" bad) = true ->
    run w =
      (1, t1 ++
          [ConsoleLog (FetchingDevices (orgId o) (VStr (orgName o)));
           Fetch (dev_request token (orgId o));
           ConsoleLog (RawDeviceResponse (orgId o) (text r));
           ConsoleError
             (UnexpectedError (TypeError "device.sn.replace is not a function"))]) /\
    mails_of (run_trace w) = [].
Proof.
  intros w token raw orgFields vs1 vs2 inv1 org o r devFields good rest earlier bad
         Htok Hclock Horgs Hdata HF1 t0 Hserved t1 Ho Hnet Hok Hparse Hdevs HF2
         Hsn Hnot He.
  assert (Hrun : run w =
      (1, t1 ++
          [ConsoleLog (FetchingDevices (orgId o) (VStr (orgName o)));
           Fetch (dev_request token (orgId o));
           ConsoleLog (RawDeviceResponse (orgId o) (text r));
           ConsoleError
             (UnexpectedError (TypeError "device.sn.replace is not a function"))])).
  { rewrite run_pipeline, (pipeline_first_steps w token raw _ Htok Horgs).
    unfold report_steps. unfold bind at 1. unfold get_prop, ret. rewrite Hdata.
    assert (Hguard : negb (isArray (VArr (vs1 ++ VObj org :: vs2))) ||
                     (List.length (items (VArr (vs1 ++ VObj org :: vs2))) =? 0)%nat
                     = false).
    { simpl. destruct vs1; reflexivity. }
    rewrite Hguard. simpl items.
    unfold bind at 1. unfold console_log at 1. unfold emit at 1. cbv beta iota.
    fold t0. unfold bind at 1.
    rewrite for_of_app.
    rewrite (for_of_orgs w token (clock w) inv1 Hclock vs1 [csv_header] t0 HF1 Hserved).
    fold t1.
    destruct (as_organization_inv _ _ Ho) as (org' & Horg' & Hid & Hname).
    inversion Horg'; subst org'.
    assert (Hbody :
      org_body w token (TimeClip (clock w)) (add_ms (TimeClip (clock w)) ninety_days)
               (VObj org)
               ([csv_header] ++ map row_line (report_rows (Date_parse w) (clock w) inv1))
               t1 =
      (Throw (TypeError "device.sn.replace is not a function"),
       t1 ++ [ConsoleLog (FetchingDevices (orgId o) (VStr (orgName o)));
              Fetch (dev_request token (orgId o));
              ConsoleLog (RawDeviceResponse (orgId o) (text r))])).
    { rewrite org_body_object. cbv zeta. rewrite Hid, Hname, Hnet, Hok, Hparse.
      cbv beta iota delta [negb].
      unfold device_steps, bind at 1. unfold get_prop, ret. rewrite Hdevs.
      assert (Hg : negb (isArray (or_else (VArr (good ++ VObj bad :: rest)) (VArr []))) ||
                   (List.length
                      (items (or_else (VArr (good ++ VObj bad :: rest)) (VArr []))) =? 0)%nat
                   = false).
      { unfold or_else. simpl. destruct good; reflexivity. }
      rewrite Hg. unfold or_else. simpl truthy. cbv iota. simpl items.
      rewrite for_of_app.
      rewrite (for_of_devices w (orgName o) (clock w) good earlier Hclock HF2).
      rewrite (for_of_throws _ _ _ _ _ _ _
                 (device_body_bad_serial w _ _ _ bad _ _ Hsn Hnot He)).
      rewrite <- !List.app_assoc. reflexivity. }
    rewrite (for_of_throws _ _ _ _ _ _ _ Hbody).
    rewrite <- !List.app_assoc. reflexivity. }
  split; [exact Hrun|].
  destruct (mails_of_run w) as [H|(csvContent & _ & Hexit & _)]; [exact H|].
  unfold exit_code in Hexit. rewrite Hrun in Hexit. discriminate.
Qed.

Lemma unreadable_serial_aborts_run_witness :
  let w := Failures.world_numeric_serial in
  run w =
    (1, (prefix_trace w (VStr "tok") (Examples.stringify Examples.orgs_B) ++
         [ConsoleLog (RetrievedOrganizations 1)]) ++
        [ConsoleLog (FetchingDevices (VNum 1) (VStr "Acme"));
         Fetch (dev_request (VStr "tok") (VNum 1));
         ConsoleLog (RawDeviceResponse (VNum 1)
                       (Examples.stringify Failures.devices_numeric));
         ConsoleError
           (UnexpectedError (TypeError "device.sn.replace is not a function"))]) /\
  mails_of (run_trace w) = [].
Proof.
  intros w.
  apply (unreadable_serial_aborts_run w (VStr "tok")
           (Examples.stringify Examples.orgs_B)
           [("data", VArr [Examples.org 1 "Acme"])] [] [] []
           [("id", VNum 1); ("name", VStr "Acme")]
           {| orgId := VNum 1; orgName := "Acme" |}
           (Examples.page 200 Failures.devices_numeric)
           [("data", VArr [Examples.device "AB-12 34" "2026-02-15" false;
                           Failures.numeric_serial;
                           Examples.device "CD-56 78" "2026-03-01" false])]
           [Examples.device "AB-12 34" "2026-02-15" false]
           [Examples.device "CD-56 78" "2026-03-01" false]
           [{| serialNumber := Some "AB-12 34";
               warrantyExpiryDate := Some "2026-02-15";
               isExpired := false |}]
           [("sn", VNum 12345678); ("expiry_date", VStr "2026-02-15");
            ("expired", VBool false)]).
  - apply token_granted_examples.
  - split; vm_compute; discriminate.
  - exists (Examples.page 200 Examples.orgs_B). repeat split.
  - reflexivity.
  - constructor.
  - exact I.
  - reflexivity.
  - reflexivity.
  - reflexivity.
  - reflexivity.
  - reflexivity.
  - repeat constructor.
  - reflexivity.
  - intros s. discriminate.
  - reflexivity.
Defined.

(** ** The report on its way out *)

Lemma email_events_sent (w : world) (csvContent messageId : string) :
  smtp_complete w = true ->
  smtp w (transporter_of_env w) (mailOptions_of_env w csvContent) = Sent messageId ->
  email_events w csvContent =
  [SendMail (transporter_of_env w) (mailOptions_of_env w csvContent);
   ConsoleLog (EmailSent messageId)].
Proof. intros H1 H2. unfold email_events. rewrite H1, H2. reflexivity. Qed.

(** X15.  When the API serves an inventory, the SMTP settings are complete
    and the relay accepts the message, the run ends with exit code 0 after
    exactly one submission: a mail over a secure transport to the configured
    host, whose single attachment is the CSV of the rows of the inventory,
    the same text the run printed to the console when there were rows; the
    message id the relay returned is the last thing logged. *)
Theorem report_is_delivered :
  forall (w : world) (token : value) (raw : string)
         (inv : list (Organization * org_outcome)) (messageId : string),
    inventory_served w token raw inv ->
    smtp_complete w = true ->
    let csvContent := formatCSV (report_rows (Date_parse w) (clock w) inv) in
    let m := mailOptions_of_env w csvContent in
    smtp w (transporter_of_env w) m = Sent messageId ->
    run w =
      (0, served_trace w token raw inv ++
          [SendMail (transporter_of_env w) m; ConsoleLog (EmailSent messageId)]) /\
    mails_of (run_trace w) = [m] /\
    attachments m = [("peplink_ic2_warranty_report.csv", csvContent)] /\
    secure (transporter_of_env w) = true /\
    host (transporter_of_env w) = env_text (env w !! "SMTP_HOST") /\
    (report_rows (Date_parse w) (clock w) inv <> [] ->
     In (ConsoleLog (CsvOutput csvContent)) (run_trace w)).
Proof.
  intros w token raw inv messageId Hserved Hsmtp csvContent m Hsent.
  assert (Hrun : run w =
      (0, served_trace w token raw inv ++
          [SendMail (transporter_of_env w) m; ConsoleLog (EmailSent messageId)])).
  { rewrite (run_served w token raw inv Hserved).
    fold csvContent. rewrite (email_events_sent w csvContent messageId Hsmtp Hsent).
    reflexivity. }
  split; [exact Hrun|]. split; [|split; [reflexivity|split; [reflexivity|split]]].
  - destruct (mails_of_run w) as [H|(csv' & _ & _ & _ & Hp & H)].
    + unfold run_trace in H. rewrite Hrun in H. cbn [snd] in H.
      rewrite mails_of_app in H. apply List.app_eq_nil in H.
      destruct H as [_ H]. discriminate.
    + rewrite (pipeline_served w token raw inv Hserved) in Hp.
      inversion Hp; subst csv'. exact H.
  - reflexivity.
  - intros Hrows. unfold run_trace. rewrite Hrun. cbn [snd].
    unfold served_trace. rewrite !List.in_app_iff. left. right. right. right.
    fold csvContent.
    destruct (report_rows (Date_parse w) (clock w) inv) eqn:E; [congruence|].
    simpl. right. left. reflexivity.
Qed.

Lemma report_is_delivered_witness :
  let w := Examples.world_B in
  let csvContent :=
    csv_header +:+ LF +:+ csv_line "Acme" "AB1234" "2026-02-15" "45" "NO" in
  mails_of (run_trace w) = [mailOptions_of_env w csvContent] /\
  attachments (mailOptions_of_env w csvContent) =
    [("peplink_ic2_warranty_report.csv", csvContent)].
Proof.
  intros w csvContent.
  destruct (report_is_delivered w _ _ _ "<1@example.com>" world_B_served
              eq_refl eq_refl) as (_ & Hmails & Hatt & _).
  split; [exact Hmails | exact Hatt].
Defined.

(** X16.  A run whose inventory yields no row still sends its mail: it
    logs that no device is expiring, hands the header line alone to the
    delivery step and ends with exit code 0; with complete SMTP settings
    the one mail submitted has the header line as its whole attachment. *)
Theorem empty_report_is_still_sent :
  forall (w : world) (token : value) (raw : string)
         (inv : list (Organization * org_outcome)),
    inventory_served w token raw inv ->
    report_rows (Date_parse w) (clock w) inv = [] ->
    fst (pipeline w []) = Normal (Some csv_header) /\
    exit_code w = 0 /\
    In (ConsoleLog NoExpiringDevices) (run_trace w) /\
    List.existsb is_delivery (run_trace w) = true /\
    (smtp_complete w = true ->
     mails_of (run_trace w) = [mailOptions_of_env w csv_header]).
Proof.
  intros w token raw inv Hserved Hrows.
  pose proof (pipeline_served w token raw inv Hserved) as Hp.
  pose proof (run_served w token raw inv Hserved) as Hrun.
  rewrite Hrows in Hp, Hrun. change (formatCSV []) with csv_header in Hp, Hrun.
  split; [rewrite Hp; reflexivity|].
  split; [unfold exit_code; rewrite Hrun; reflexivity|].
  split; [|split].
  - unfold run_trace. rewrite Hrun. cbn [snd]. unfold served_trace.
    rewrite Hrows. rewrite !List.in_app_iff. left. right. right. right.
    left. reflexivity.
  - unfold run_trace. rewrite Hrun. cbn [snd].
    rewrite List.existsb_app. apply orb_true_iff. right.
    unfold email_events. destruct (smtp_complete w); reflexivity.
  - intros Hsmtp.
    destruct (mails_of_run w) as [H|(csv' & _ & _ & _ & Hp' & H)].
    + unfold run_trace in H. rewrite Hrun in H. cbn [snd] in H.
      rewrite mails_of_app, mails_of_email_events, Hsmtp in H.
      apply List.app_eq_nil in H. destruct H as [_ H]. discriminate.
    + rewrite Hp in Hp'. inversion Hp'; subst csv'. exact H.
Qed.

Lemma empty_report_is_still_sent_witness :
  fst (pipeline Examples.world_C []) = Normal (Some csv_header) /\
  exit_code Examples.world_C = 0 /\
  mails_of (run_trace Examples.world_C) =
    [mailOptions_of_env Examples.world_C csv_header].
Proof.
  destruct (empty_report_is_still_sent _ _ _ _ world_C_served eq_refl)
    as (Hp & Hexit & _ & _ & Hmail).
  split; [exact Hp|]. split; [exact Hexit | exact (Hmail eq_refl)].
Defined.

(** ** How much the device loop can add *)

Lemma device_body_at_most_one (w : world) (orgName : value) (now cutoffDate : number)
    (device : value) (csvLines csvLines' : list string) (t t' : trace) :
  device_body w orgName now cutoffDate device csvLines t = (Normal csvLines', t') ->
  csvLines' = csvLines \/ exists line, csvLines' = csvLines ++ [line].
Proof.
  unfold device_body, bind.
  destruct (get_prop device "sn" t) as [[sn|e|code] t1] eqn:Hsn;
    destruct device; simpl in Hsn; unfold ret, throw in Hsn; inversion Hsn; subst;
    try discriminate.
  all: destruct (truthy _); simpl; unfold ret;
    try (intros H; inversion H; left; reflexivity).
  all: destruct (truthy _); simpl;
    try (intros H; inversion H; left; reflexivity).
  all: unfold replace_non_alnum;
    match goal with |- context [match ?v with VStr _ => _ | _ => _ end] =>
      destruct v end; unfold throw, ret; try discriminate.
  all: destruct (date_le _ _); intros H; inversion H;
    [right; eexists; reflexivity | left; reflexivity].
Qed.

(** X17.  The device loop only ever appends, and at most one line for each
    device: when it completes on any list of devices, well formed or not,
    the lines it was given are a prefix of the lines it returns and it has
    added no more lines than there are devices.  In particular a device
    listed twice can be reported twice, and nothing is ever removed or
    reordered. *)
Theorem device_loop_appends_at_most_one_each :
  forall (w : world) (orgName : value) (now cutoffDate : number)
         (devices : list value) (csvLines csvLines' : list string) (t t' : trace),
    for_of (device_body w orgName now cutoffDate) devices csvLines t =
      (Normal csvLines', t') ->
    t' = t /\
    exists more : list string,
      csvLines' = csvLines ++ more /\
      (List.length more <= List.length devices)%nat.
Proof.
  intros w orgName now cutoffDate devices.
  induction devices as [|device devices IH]; intros csvLines csvLines' t t' H.
  - simpl in H. unfold ret in H. inversion H; subst. split; [reflexivity|].
    exists []. rewrite List.app_nil_r. split; [reflexivity|]. simpl. lia.
  - simpl in H. unfold bind in H.
    destruct (device_body w orgName now cutoffDate device csvLines t)
      as [[csv1|e|code] t1] eqn:E1; try discriminate.
    destruct (device_body_outcome w orgName now cutoffDate device csvLines t)
      as (c & Ec & _ & _).
    rewrite E1 in Ec. inversion Ec; subst t1.
    destruct (IH csv1 csvLines' t t' H) as [Ht (more & -> & Hlen)].
    split; [exact Ht|].
    destruct (device_body_at_most_one _ _ _ _ _ _ _ _ _ E1) as [->|[line ->]].
    + exists more. split; [reflexivity|]. simpl. lia.
    + exists (line :: more). rewrite <- List.app_assoc.
      split; [reflexivity|]. simpl. lia.
Qed.

Lemma device_loop_appends_at_most_one_each_witness :
  let w := Examples.world_B in
  let now := TimeClip (clock w) in
  exists more : list string,
    [csv_header; csv_line "Acme" "AB1234" "2026-02-15" "45" "NO";
     csv_line "Acme" "AB1234" "2026-02-15" "45" "NO"] = [csv_header] ++ more /\
    (List.length more <= 2)%nat.
Proof.
  intros w now.
  apply (device_loop_appends_at_most_one_each w (VStr "Acme") now
           (add_ms now ninety_days)
           [Examples.device "AB-12 34" "2026-02-15" false;
            Examples.device "AB-12 34" "2026-02-15" false]
           [csv_header] _ [] []).
  reflexivity.
Defined.
